(** * The command processor (CP) of the emulated graphics FIFO

    A shallow embedding of [VideoCommon/CommandProcessor.cpp]: the FIFO
    descriptor, the memory-mapped register window, the gather-pipe commit and
    the interrupt engine, followed by the properties established about them.

    Conventions.  A [u32] or [u16] of the source is a [Z] kept in range by
    writing the wrap-around out ([u32_of], [u16_of]).  The globals of the
    translation unit are the fields of [CPState]; every [void] function of the
    source is a computation [M unit] over that state.  Calls into the
    collaborators (consumer loop, platform interrupt controller, event
    scheduler) are not executed: they are appended to the [calls] log in
    program order, and the events handed to the scheduler are kept in
    [pending_events] until the scheduler runs them. *)

From Stdlib Require Import ZArith List Bool Lia.
Import ListNotations.
Local Open Scope Z_scope.

(** ** Fixed-width integers *)

Definition u16_of (x : Z) : Z := x mod 2 ^ 16.
Definition u32_of (x : Z) : Z := x mod 2 ^ 32.

Definition is_u16 (x : Z) : Prop := 0 <= x < 2 ^ 16.
Definition is_u32 (x : Z) : Prop := 0 <= x < 2 ^ 32.

(** [a + b] and [a - b] on [u32] operands. *)
Definition add32 (a b : Z) : Z := u32_of (a + b).
Definition sub32 (a b : Z) : Z := u32_of (a - b).

(** Assigning [b] to the one-bit field at position [n] of a register word. *)
Definition assign_bit (n : Z) (b : bool) (w : Z) : Z :=
  if b then Z.setbit w n else Z.clearbit w n.

(** ** Configuration read by the module

    [bCPUThread] and [bWii] are the two [SConfig] fields consulted;
    [UseDeterministicGPUThread] is the answer of
    [Fifo::UseDeterministicGPUThread()]. *)
Record Config := {
  bCPUThread : bool;
  bWii : bool;
  UseDeterministicGPUThread : bool
}.

(** ** The FIFO descriptor

    The fields are those [SCPFifoStruct::DoState] saves, in its order (the
    declaration of the struct is in [CommandProcessor.h], which is not among
    the sources).  The [bFF_] fields hold truth values and are kept as
    [bool]. *)
Record SCPFifoStruct := {
  CPBase : Z;
  CPEnd : Z;
  CPHiWatermark : Z;
  CPLoWatermark : Z;
  CPReadWriteDistance : Z;
  CPWritePointer : Z;
  CPReadPointer : Z;
  CPBreakpoint : Z;
  SafeCPReadPointer : Z;
  bFF_GPLinkEnable : bool;
  bFF_GPReadEnable : bool;
  bFF_BPEnable : bool;
  bFF_BPInt : bool;
  bFF_Breakpoint : bool;
  bFF_LoWatermarkInt : bool;
  bFF_HiWatermarkInt : bool;
  bFF_LoWatermark : bool;
  bFF_HiWatermark : bool
}.

(** Field assignment, one function per field. *)
Definition set_CPBase (v : Z) (f : SCPFifoStruct) : SCPFifoStruct :=
  Build_SCPFifoStruct v (CPEnd f) (CPHiWatermark f) (CPLoWatermark f)
    (CPReadWriteDistance f) (CPWritePointer f) (CPReadPointer f)
    (CPBreakpoint f) (SafeCPReadPointer f) (bFF_GPLinkEnable f)
    (bFF_GPReadEnable f) (bFF_BPEnable f) (bFF_BPInt f) (bFF_Breakpoint f)
    (bFF_LoWatermarkInt f) (bFF_HiWatermarkInt f) (bFF_LoWatermark f)
    (bFF_HiWatermark f).
Definition set_CPEnd (v : Z) (f : SCPFifoStruct) : SCPFifoStruct :=
  Build_SCPFifoStruct (CPBase f) v (CPHiWatermark f) (CPLoWatermark f)
    (CPReadWriteDistance f) (CPWritePointer f) (CPReadPointer f)
    (CPBreakpoint f) (SafeCPReadPointer f) (bFF_GPLinkEnable f)
    (bFF_GPReadEnable f) (bFF_BPEnable f) (bFF_BPInt f) (bFF_Breakpoint f)
    (bFF_LoWatermarkInt f) (bFF_HiWatermarkInt f) (bFF_LoWatermark f)
    (bFF_HiWatermark f).
Definition set_CPHiWatermark (v : Z) (f : SCPFifoStruct) : SCPFifoStruct :=
  Build_SCPFifoStruct (CPBase f) (CPEnd f) v (CPLoWatermark f)
    (CPReadWriteDistance f) (CPWritePointer f) (CPReadPointer f)
    (CPBreakpoint f) (SafeCPReadPointer f) (bFF_GPLinkEnable f)
    (bFF_GPReadEnable f) (bFF_BPEnable f) (bFF_BPInt f) (bFF_Breakpoint f)
    (bFF_LoWatermarkInt f) (bFF_HiWatermarkInt f) (bFF_LoWatermark f)
    (bFF_HiWatermark f).
Definition set_CPLoWatermark (v : Z) (f : SCPFifoStruct) : SCPFifoStruct :=
  Build_SCPFifoStruct (CPBase f) (CPEnd f) (CPHiWatermark f) v
    (CPReadWriteDistance f) (CPWritePointer f) (CPReadPointer f)
    (CPBreakpoint f) (SafeCPReadPointer f) (bFF_GPLinkEnable f)
    (bFF_GPReadEnable f) (bFF_BPEnable f) (bFF_BPInt f) (bFF_Breakpoint f)
    (bFF_LoWatermarkInt f) (bFF_HiWatermarkInt f) (bFF_LoWatermark f)
    (bFF_HiWatermark f).
Definition set_CPReadWriteDistance (v : Z) (f : SCPFifoStruct) : SCPFifoStruct :=
  Build_SCPFifoStruct (CPBase f) (CPEnd f) (CPHiWatermark f) (CPLoWatermark f)
    v (CPWritePointer f) (CPReadPointer f) (CPBreakpoint f)
    (SafeCPReadPointer f) (bFF_GPLinkEnable f) (bFF_GPReadEnable f)
    (bFF_BPEnable f) (bFF_BPInt f) (bFF_Breakpoint f) (bFF_LoWatermarkInt f)
    (bFF_HiWatermarkInt f) (bFF_LoWatermark f) (bFF_HiWatermark f).
Definition set_CPWritePointer (v : Z) (f : SCPFifoStruct) : SCPFifoStruct :=
  Build_SCPFifoStruct (CPBase f) (CPEnd f) (CPHiWatermark f) (CPLoWatermark f)
    (CPReadWriteDistance f) v (CPReadPointer f) (CPBreakpoint f)
    (SafeCPReadPointer f) (bFF_GPLinkEnable f) (bFF_GPReadEnable f)
    (bFF_BPEnable f) (bFF_BPInt f) (bFF_Breakpoint f) (bFF_LoWatermarkInt f)
    (bFF_HiWatermarkInt f) (bFF_LoWatermark f) (bFF_HiWatermark f).
Definition set_CPReadPointer (v : Z) (f : SCPFifoStruct) : SCPFifoStruct :=
  Build_SCPFifoStruct (CPBase f) (CPEnd f) (CPHiWatermark f) (CPLoWatermark f)
    (CPReadWriteDistance f) (CPWritePointer f) v (CPBreakpoint f)
    (SafeCPReadPointer f) (bFF_GPLinkEnable f) (bFF_GPReadEnable f)
    (bFF_BPEnable f) (bFF_BPInt f) (bFF_Breakpoint f) (bFF_LoWatermarkInt f)
    (bFF_HiWatermarkInt f) (bFF_LoWatermark f) (bFF_HiWatermark f).
Definition set_CPBreakpoint (v : Z) (f : SCPFifoStruct) : SCPFifoStruct :=
  Build_SCPFifoStruct (CPBase f) (CPEnd f) (CPHiWatermark f) (CPLoWatermark f)
    (CPReadWriteDistance f) (CPWritePointer f) (CPReadPointer f) v
    (SafeCPReadPointer f) (bFF_GPLinkEnable f) (bFF_GPReadEnable f)
    (bFF_BPEnable f) (bFF_BPInt f) (bFF_Breakpoint f) (bFF_LoWatermarkInt f)
    (bFF_HiWatermarkInt f) (bFF_LoWatermark f) (bFF_HiWatermark f).
Definition set_SafeCPReadPointer (v : Z) (f : SCPFifoStruct) : SCPFifoStruct :=
  Build_SCPFifoStruct (CPBase f) (CPEnd f) (CPHiWatermark f) (CPLoWatermark f)
    (CPReadWriteDistance f) (CPWritePointer f) (CPReadPointer f)
    (CPBreakpoint f) v (bFF_GPLinkEnable f) (bFF_GPReadEnable f)
    (bFF_BPEnable f) (bFF_BPInt f) (bFF_Breakpoint f) (bFF_LoWatermarkInt f)
    (bFF_HiWatermarkInt f) (bFF_LoWatermark f) (bFF_HiWatermark f).
Definition set_bFF_GPLinkEnable (v : bool) (f : SCPFifoStruct) : SCPFifoStruct :=
  Build_SCPFifoStruct (CPBase f) (CPEnd f) (CPHiWatermark f) (CPLoWatermark f)
    (CPReadWriteDistance f) (CPWritePointer f) (CPReadPointer f)
    (CPBreakpoint f) (SafeCPReadPointer f) v (bFF_GPReadEnable f)
    (bFF_BPEnable f) (bFF_BPInt f) (bFF_Breakpoint f) (bFF_LoWatermarkInt f)
    (bFF_HiWatermarkInt f) (bFF_LoWatermark f) (bFF_HiWatermark f).
Definition set_bFF_GPReadEnable (v : bool) (f : SCPFifoStruct) : SCPFifoStruct :=
  Build_SCPFifoStruct (CPBase f) (CPEnd f) (CPHiWatermark f) (CPLoWatermark f)
    (CPReadWriteDistance f) (CPWritePointer f) (CPReadPointer f)
    (CPBreakpoint f) (SafeCPReadPointer f) (bFF_GPLinkEnable f) v
    (bFF_BPEnable f) (bFF_BPInt f) (bFF_Breakpoint f) (bFF_LoWatermarkInt f)
    (bFF_HiWatermarkInt f) (bFF_LoWatermark f) (bFF_HiWatermark f).
Definition set_bFF_BPEnable (v : bool) (f : SCPFifoStruct) : SCPFifoStruct :=
  Build_SCPFifoStruct (CPBase f) (CPEnd f) (CPHiWatermark f) (CPLoWatermark f)
    (CPReadWriteDistance f) (CPWritePointer f) (CPReadPointer f)
    (CPBreakpoint f) (SafeCPReadPointer f) (bFF_GPLinkEnable f)
    (bFF_GPReadEnable f) v (bFF_BPInt f) (bFF_Breakpoint f)
    (bFF_LoWatermarkInt f) (bFF_HiWatermarkInt f) (bFF_LoWatermark f)
    (bFF_HiWatermark f).
Definition set_bFF_BPInt (v : bool) (f : SCPFifoStruct) : SCPFifoStruct :=
  Build_SCPFifoStruct (CPBase f) (CPEnd f) (CPHiWatermark f) (CPLoWatermark f)
    (CPReadWriteDistance f) (CPWritePointer f) (CPReadPointer f)
    (CPBreakpoint f) (SafeCPReadPointer f) (bFF_GPLinkEnable f)
    (bFF_GPReadEnable f) (bFF_BPEnable f) v (bFF_Breakpoint f)
    (bFF_LoWatermarkInt f) (bFF_HiWatermarkInt f) (bFF_LoWatermark f)
    (bFF_HiWatermark f).
Definition set_bFF_Breakpoint (v : bool) (f : SCPFifoStruct) : SCPFifoStruct :=
  Build_SCPFifoStruct (CPBase f) (CPEnd f) (CPHiWatermark f) (CPLoWatermark f)
    (CPReadWriteDistance f) (CPWritePointer f) (CPReadPointer f)
    (CPBreakpoint f) (SafeCPReadPointer f) (bFF_GPLinkEnable f)
    (bFF_GPReadEnable f) (bFF_BPEnable f) (bFF_BPInt f) v
    (bFF_LoWatermarkInt f) (bFF_HiWatermarkInt f) (bFF_LoWatermark f)
    (bFF_HiWatermark f).
Definition set_bFF_LoWatermarkInt (v : bool) (f : SCPFifoStruct) : SCPFifoStruct :=
  Build_SCPFifoStruct (CPBase f) (CPEnd f) (CPHiWatermark f) (CPLoWatermark f)
    (CPReadWriteDistance f) (CPWritePointer f) (CPReadPointer f)
    (CPBreakpoint f) (SafeCPReadPointer f) (bFF_GPLinkEnable f)
    (bFF_GPReadEnable f) (bFF_BPEnable f) (bFF_BPInt f) (bFF_Breakpoint f) v
    (bFF_HiWatermarkInt f) (bFF_LoWatermark f) (bFF_HiWatermark f).
Definition set_bFF_HiWatermarkInt (v : bool) (f : SCPFifoStruct) : SCPFifoStruct :=
  Build_SCPFifoStruct (CPBase f) (CPEnd f) (CPHiWatermark f) (CPLoWatermark f)
    (CPReadWriteDistance f) (CPWritePointer f) (CPReadPointer f)
    (CPBreakpoint f) (SafeCPReadPointer f) (bFF_GPLinkEnable f)
    (bFF_GPReadEnable f) (bFF_BPEnable f) (bFF_BPInt f) (bFF_Breakpoint f)
    (bFF_LoWatermarkInt f) v (bFF_LoWatermark f) (bFF_HiWatermark f).
Definition set_bFF_LoWatermark (v : bool) (f : SCPFifoStruct) : SCPFifoStruct :=
  Build_SCPFifoStruct (CPBase f) (CPEnd f) (CPHiWatermark f) (CPLoWatermark f)
    (CPReadWriteDistance f) (CPWritePointer f) (CPReadPointer f)
    (CPBreakpoint f) (SafeCPReadPointer f) (bFF_GPLinkEnable f)
    (bFF_GPReadEnable f) (bFF_BPEnable f) (bFF_BPInt f) (bFF_Breakpoint f)
    (bFF_LoWatermarkInt f) (bFF_HiWatermarkInt f) v (bFF_HiWatermark f).
Definition set_bFF_HiWatermark (v : bool) (f : SCPFifoStruct) : SCPFifoStruct :=
  Build_SCPFifoStruct (CPBase f) (CPEnd f) (CPHiWatermark f) (CPLoWatermark f)
    (CPReadWriteDistance f) (CPWritePointer f) (CPReadPointer f)
    (CPBreakpoint f) (SafeCPReadPointer f) (bFF_GPLinkEnable f)
    (bFF_GPReadEnable f) (bFF_BPEnable f) (bFF_BPInt f) (bFF_Breakpoint f)
    (bFF_LoWatermarkInt f) (bFF_HiWatermarkInt f) (bFF_LoWatermark f) v.

(** [fifo = {}] *)
Definition fifo_zero : SCPFifoStruct :=
  Build_SCPFifoStruct 0 0 0 0 0 0 0 0 0
    false false false false false false false false false.

(** ** Register words

    Modelled from the spec: the unions [UCPCtrlReg] and [UCPStatusReg] are
    declared in [CommandProcessor.h], which is not among the sources.  A
    register word is kept as its [Hex] value and each named one-bit field is
    a view of one bit of it; the spec names the fields (section 3 and 4.2) and
    the positions are those of the hardware register.  The statements that
    follow refer to the fields by name only. *)
Module UCPCtrlReg.
Definition bit_GPReadEnable : Z := 0.
Definition bit_BPEnable : Z := 1.
Definition bit_FifoOverflowIntEnable : Z := 2.
Definition bit_FifoUnderflowIntEnable : Z := 3.
Definition bit_GPLinkEnable : Z := 4.
Definition bit_BPInt : Z := 5.

Definition GPReadEnable (hex : Z) : bool := Z.testbit hex bit_GPReadEnable.
Definition BPEnable (hex : Z) : bool := Z.testbit hex bit_BPEnable.
Definition FifoOverflowIntEnable (hex : Z) : bool :=
  Z.testbit hex bit_FifoOverflowIntEnable.
Definition FifoUnderflowIntEnable (hex : Z) : bool :=
  Z.testbit hex bit_FifoUnderflowIntEnable.
Definition GPLinkEnable (hex : Z) : bool := Z.testbit hex bit_GPLinkEnable.
Definition BPInt (hex : Z) : bool := Z.testbit hex bit_BPInt.
End UCPCtrlReg.

Module UCPStatusReg.
Definition bit_OverflowHiWatermark : Z := 0.
Definition bit_UnderflowLoWatermark : Z := 1.
Definition bit_ReadIdle : Z := 2.
Definition bit_CommandIdle : Z := 3.
Definition bit_Breakpoint : Z := 4.
End UCPStatusReg.

(** [MathUtil::Rectangle<u16>] *)
Module MathUtil.
Record Rectangle := {
  left : Z;
  top : Z;
  right : Z;
  bottom : Z
}.
End MathUtil.

(** Modelled from the spec: [GATHER_PIPE_SIZE] is a constant of
    [Core/HW/GPFifo.h], which is not among the sources; the spec fixes the
    burst at 32 bytes, the value the distance handlers of [RegisterMMIO]
    write as a literal. *)
Definition GATHER_PIPE_SIZE : Z := 32.

(** ** Calls into the collaborators *)

Inductive SyncGPUReason := SyncGPUReason_Other.

Inductive Assertion :=
| FIFO_overflowed_by_GatherPipe
| FIFOs_linked_but_out_of_sync.

Inductive Call :=
| Fifo_RunGpu
| Fifo_FlushGpu
| Fifo_SyncGPU (reason : SyncGPUReason)
| ProcessorInterface_SetInterrupt_INT_CAUSE_CP (set : bool)
| CoreTiming_ForceExceptionCheck (cycles : Z)
| ASSERT_MSG_failed (which : Assertion).

(** ** The state of the translation unit

    [fifo] to [s_interrupt_waiting] are the globals under [STATE_TO_SAVE];
    [Fifo_CPUBase], [Fifo_CPUEnd] and [Fifo_CPUWritePointer] are the three
    [ProcessorInterface] registers the commit mirrors into.

    Modelled from the spec: [CoreTiming] is not among the sources.
    [pending_events] holds the [userdata] of every [s_update_interrupts]
    event that [CoreTiming::ScheduleEvent] has accepted and the scheduler
    has not yet run (a zero-delay one-shot task that runs exactly once). *)
Record CPState := {
  fifo : SCPFifoStruct;
  s_cp_status_reg : Z;
  s_cp_ctrl_reg : Z;
  s_cp_clear_reg : Z;
  s_bbox : MathUtil.Rectangle;
  s_token_reg : Z;
  s_interrupt_set : bool;
  s_interrupt_waiting : bool;
  Fifo_CPUBase : Z;
  Fifo_CPUEnd : Z;
  Fifo_CPUWritePointer : Z;
  pending_events : list Z;
  calls : list Call
}.

Definition set_fifo (v : SCPFifoStruct) (s : CPState) : CPState :=
  Build_CPState v (s_cp_status_reg s) (s_cp_ctrl_reg s) (s_cp_clear_reg s)
    (s_bbox s) (s_token_reg s) (s_interrupt_set s) (s_interrupt_waiting s)
    (Fifo_CPUBase s) (Fifo_CPUEnd s) (Fifo_CPUWritePointer s)
    (pending_events s) (calls s).
Definition set_s_cp_status_reg (v : Z) (s : CPState) : CPState :=
  Build_CPState (fifo s) v (s_cp_ctrl_reg s) (s_cp_clear_reg s) (s_bbox s)
    (s_token_reg
    s) (s_interrupt_set s) (s_interrupt_waiting s)
    (Fifo_CPUBase s) (Fifo_CPUEnd s) (Fifo_CPUWritePointer s)
    (pending_events s) (calls s).
Definition set_s_cp_ctrl_reg (v : Z) (s : CPState) : CPState :=
  Build_CPState (fifo s) (s_cp_status_reg s) v (s_cp_clear_reg s) (s_bbox s)
    (s_token_reg s) (s_interrupt_set s) (s_interrupt_waiting s)
    (Fifo_CPUBase s) (Fifo_CPUEnd s) (Fifo_CPUWritePointer s)
    (pending_events s) (calls s).
Definition set_s_cp_clear_reg (v : Z) (s : CPState) : CPState :=
  Build_CPState (fifo s) (s_cp_status_reg s) (s_cp_ctrl_reg s) v (s_bbox s)
    (s_token_reg
    s) (s_interrupt_set s) (s_interrupt_waiting s)
    (Fifo_CPUBase s) (Fifo_CPUEnd s) (Fifo_CPUWritePointer s)
    (pending_events s) (calls s).
Definition set_s_bbox (v : MathUtil.Rectangle) (s : CPState) : CPState :=
  Build_CPState (fifo s) (s_cp_status_reg s) (s_cp_ctrl_reg s)
    (s_cp_clear_reg s) v (s_token_reg s) (s_interrupt_set s)
    (s_interrupt_waiting s) (Fifo_CPUBase s) (Fifo_CPUEnd s)
    (Fifo_CPUWritePointer s) (pending_events s) (calls s).
Definition set_s_token_reg (v : Z) (s : CPState) : CPState :=
  Build_CPState (fifo s) (s_cp_status_reg s) (s_cp_ctrl_reg s)
    (s_cp_clear_reg s) (s_bbox s) v (s_interrupt_set s)
    (s_interrupt_waiting s) (Fifo_CPUBase s) (Fifo_CPUEnd s)
    (Fifo_CPUWritePointer s) (pending_events s) (calls s).
Definition set_s_interrupt_set (v : bool) (s : CPState) : CPState :=
  Build_CPState (fifo s) (s_cp_status_reg s) (s_cp_ctrl_reg s)
    (s_cp_clear_reg s) (s_bbox s) (s_token_reg s) v (s_interrupt_waiting s)
    (Fifo_CPUBase s) (Fifo_CPUEnd
    s) (Fifo_CPUWritePointer s)
    (pending_events s) (calls s).
Definition set_s_interrupt_waiting (v : bool) (s : CPState) : CPState :=
  Build_CPState (fifo s) (s_cp_status_reg s) (s_cp_ctrl_reg s)
    (s_cp_clear_reg s) (s_bbox s) (s_token_reg s) (s_interrupt_set s) v
    (Fifo_CPUBase s) (Fifo_CPUEnd s) (Fifo_CPUWritePointer s)
    (pending_events s) (calls s).
Definition set_Fifo_CPUBase (v : Z) (s : CPState) : CPState :=
  Build_CPState (fifo s) (s_cp_status_reg s) (s_cp_ctrl_reg s)
    (s_cp_clear_reg s) (s_bbox s) (s_token_reg s) (s_interrupt_set s)
    (s_interrupt_waiting s) v (Fifo_CPUEnd s) (Fifo_CPUWritePointer s)
    (pending_events s) (calls s).
Definition set_Fifo_CPUEnd (v : Z) (s : CPState) : CPState :=
  Build_CPState (fifo s) (s_cp_status_reg s) (s_cp_ctrl_reg s)
    (s_cp_clear_reg s) (s_bbox s) (s_token_reg s) (s_interrupt_set s)
    (s_interrupt_waiting s) (Fifo_CPUBase
    s) v (Fifo_CPUWritePointer s)
    (pending_events s) (calls s).
Definition set_Fifo_CPUWritePointer (v : Z) (s : CPState) : CPState :=
  Build_CPState (fifo s) (s_cp_status_reg s) (s_cp_ctrl_reg s)
    (s_cp_clear_reg s) (s_bbox s) (s_token_reg s) (s_interrupt_set s)
    (s_interrupt_waiting s) (Fifo_CPUBase
    s) (Fifo_CPUEnd s) v
    (pending_events s) (calls s).
Definition set_pending_events (v : list Z) (s : CPState) : CPState :=
  Build_CPState (fifo s) (s_cp_status_reg s) (s_cp_ctrl_reg s)
    (s_cp_clear_reg s) (s_bbox s) (s_token_reg s) (s_interrupt_set s)
    (s_interrupt_waiting s) (Fifo_CPUBase
    s) (Fifo_CPUEnd s)
    (Fifo_CPUWritePointer s) v (calls s).
Definition set_calls (v : list Call) (s : CPState) : CPState :=
  Build_CPState (fifo s) (s_cp_status_reg s) (s_cp_ctrl_reg s)
    (s_cp_clear_reg s) (s_bbox s) (s_token_reg s) (s_interrupt_set s)
    (s_interrupt_waiting s) (Fifo_CPUBase
    s) (Fifo_CPUEnd s)
    (Fifo_CPUWritePointer s) (pending_events s) v.

(** ** State-passing computations *)

Definition M (A : Type) : Type := CPState -> A * CPState.

Definition ret {A} (a : A) : M A := fun s => (a, s).
Definition bind {A B} (m : M A) (k : A -> M B) : M B :=
  fun s => k (fst (m s)) (snd (m s)).
Definition gets {A} (proj : CPState -> A) : M A := fun s => (proj s, s).
Definition modify (upd : CPState -> CPState) : M unit := fun s => (tt, upd s).
Definition when (c : bool) (m : M unit) : M unit := if c then m else ret tt.

(** The state a computation leaves, and the value it returns. *)
Definition exec {A} (m : M A) (s : CPState) : CPState := snd (m s).
Definition eval {A} (m : M A) (s : CPState) : A := fst (m s).

Declare Scope cp_scope.
Delimit Scope cp_scope with cp.
Notation "x <- m ;; k" := (bind m (fun x => k))
  (at level 61, m at next level, right associativity) : cp_scope.
Notation "m ;; k" := (bind m (fun _ => k))
  (at level 61, right associativity) : cp_scope.
Local Open Scope cp_scope.

(** Assignment to a field of [fifo]. *)
Definition fifo_assign (upd : SCPFifoStruct -> SCPFifoStruct) : M unit :=
  modify (fun s => set_fifo (upd (fifo s)) s).

(** A call into a collaborator, logged in program order. *)
Definition call (c : Call) : M unit :=
  modify (fun s => set_calls (calls s ++ [c]) s).

Definition ASSERT_MSG (cond : bool) (which : Assertion) : M unit :=
  when (negb cond) (call (ASSERT_MSG_failed which)).

(** ** The register window *)

(** Modelled from the spec: the register offsets ([FIFO_BASE_LO], ...) are
    constants of [CommandProcessor.h], which is not among the sources.  A
    register is identified by the name of its constant; [base | addr] of
    [RegisterMMIO] is that name. *)
Inductive Reg :=
| FIFO_TOKEN_REGISTER
| FIFO_BOUNDING_BOX_LEFT | FIFO_BOUNDING_BOX_RIGHT
| FIFO_BOUNDING_BOX_TOP | FIFO_BOUNDING_BOX_BOTTOM
| FIFO_BASE_LO | FIFO_BASE_HI
| FIFO_END_LO | FIFO_END_HI
| FIFO_HI_WATERMARK_LO | FIFO_HI_WATERMARK_HI
| FIFO_LO_WATERMARK_LO | FIFO_LO_WATERMARK_HI
| FIFO_RW_DISTANCE_LO | FIFO_RW_DISTANCE_HI
| FIFO_WRITE_POINTER_LO | FIFO_WRITE_POINTER_HI
| FIFO_READ_POINTER_LO | FIFO_READ_POINTER_HI
| FIFO_BP_LO | FIFO_BP_HI
| XF_RASBUSY_L | XF_RASBUSY_H
| XF_CLKS_L | XF_CLKS_H
| XF_WAIT_IN_L | XF_WAIT_IN_H
| XF_WAIT_OUT_L | XF_WAIT_OUT_H
| VCACHE_METRIC_CHECK_L | VCACHE_METRIC_CHECK_H
| VCACHE_METRIC_MISS_L | VCACHE_METRIC_MISS_H
| VCACHE_METRIC_STALL_L | VCACHE_METRIC_STALL_H
| CLKS_PER_VTX_OUT
| STATUS_REGISTER | CTRL_REGISTER | CLEAR_REGISTER | PERF_SELECT.

Scheme Equality for Reg.

(** The [u32] fields of the descriptor that have a register window. *)
Inductive Field32 :=
| fifo_CPBase | fifo_CPEnd | fifo_CPHiWatermark | fifo_CPLoWatermark
| fifo_CPReadWriteDistance | fifo_CPWritePointer | fifo_CPReadPointer
| fifo_CPBreakpoint | fifo_SafeCPReadPointer.

Definition get32 (x : Field32) (f : SCPFifoStruct) : Z :=
  match x with
  | fifo_CPBase => CPBase f
  | fifo_CPEnd => CPEnd f
  | fifo_CPHiWatermark => CPHiWatermark f
  | fifo_CPLoWatermark => CPLoWatermark f
  | fifo_CPReadWriteDistance => CPReadWriteDistance f
  | fifo_CPWritePointer => CPWritePointer f
  | fifo_CPReadPointer => CPReadPointer f
  | fifo_CPBreakpoint => CPBreakpoint f
  | fifo_SafeCPReadPointer => SafeCPReadPointer f
  end.

Definition set32 (x : Field32) (v : Z) (f : SCPFifoStruct) : SCPFifoStruct :=
  match x with
  | fifo_CPBase => set_CPBase v f
  | fifo_CPEnd => set_CPEnd v f
  | fifo_CPHiWatermark => set_CPHiWatermark v f
  | fifo_CPLoWatermark => set_CPLoWatermark v f
  | fifo_CPReadWriteDistance => set_CPReadWriteDistance v f
  | fifo_CPWritePointer => set_CPWritePointer v f
  | fifo_CPReadPointer => set_CPReadPointer v f
  | fifo_CPBreakpoint => set_CPBreakpoint v f
  | fifo_SafeCPReadPointer => set_SafeCPReadPointer v f
  end.

(** The [u16*] targets handed to the direct handlers.

    Modelled from the spec: [MMIO::Utils::LowPart] and [MMIO::Utils::HighPart]
    ([Core/HW/MMIO.h], not among the sources) address the low and the high 16
    bits of a 32-bit field, each half independently (section 4.2). *)
Inductive Ptr16 :=
| ptr_s_token_reg
| ptr_s_bbox_left | ptr_s_bbox_right | ptr_s_bbox_top | ptr_s_bbox_bottom
| ptr_s_cp_ctrl_reg_Hex | ptr_s_cp_clear_reg_Hex
| LowPart (x : Field32)
| HighPart (x : Field32).

Definition set_bbox (upd : MathUtil.Rectangle -> MathUtil.Rectangle) (s : CPState) :=
  set_s_bbox (upd (s_bbox s)) s.

Definition load16 (p : Ptr16) (s : CPState) : Z :=
  match p with
  | ptr_s_token_reg => s_token_reg s
  | ptr_s_bbox_left => MathUtil.left (s_bbox s)
  | ptr_s_bbox_right => MathUtil.right (s_bbox s)
  | ptr_s_bbox_top => MathUtil.top (s_bbox s)
  | ptr_s_bbox_bottom => MathUtil.bottom (s_bbox s)
  | ptr_s_cp_ctrl_reg_Hex => s_cp_ctrl_reg s
  | ptr_s_cp_clear_reg_Hex => s_cp_clear_reg s
  | LowPart x => Z.land (get32 x (fifo s)) 0xFFFF
  | HighPart x => Z.land (Z.shiftr (get32 x (fifo s)) 16) 0xFFFF
  end.

Definition store16 (p : Ptr16) (v : Z) (s : CPState) : CPState :=
  match p with
  | ptr_s_token_reg => set_s_token_reg v s
  | ptr_s_bbox_left =>
      set_bbox (fun r => MathUtil.Build_Rectangle v (MathUtil.top r)
                           (MathUtil.right r) (MathUtil.bottom r)) s
  | ptr_s_bbox_right =>
      set_bbox (fun r => MathUtil.Build_Rectangle (MathUtil.left r) (MathUtil.top r)
                           v (MathUtil.bottom r)) s
  | ptr_s_bbox_top =>
      set_bbox (fun r => MathUtil.Build_Rectangle (MathUtil.left r) v
                           (MathUtil.right r) (MathUtil.bottom r)) s
  | ptr_s_bbox_bottom =>
      set_bbox (fun r => MathUtil.Build_Rectangle (MathUtil.left r) (MathUtil.top r)
                           (MathUtil.right r) v) s
  | ptr_s_cp_ctrl_reg_Hex => set_s_cp_ctrl_reg v s
  | ptr_s_cp_clear_reg_Hex => set_s_cp_clear_reg v s
  | LowPart x =>
      set_fifo (set32 x (Z.lor (Z.land (get32 x (fifo s)) 0xFFFF0000)
                               (Z.land v 0xFFFF)) (fifo s)) s
  | HighPart x =>
      set_fifo (set32 x (Z.lor (Z.land (get32 x (fifo s)) 0x0000FFFF)
                               (Z.shiftl (Z.land v 0xFFFF) 16)) (fifo s)) s
  end.

(** The handlers a register is given.

    Modelled from the spec: the handler constructors belong to
    [Core/HW/MMIO.h], which is not among the sources.  [DirectRead] returns
    the 16 bits at its target; [DirectWrite] stores the written value under
    its write mask, so that bits outside the mask read back as zero
    (section 4.2); [Constant] reads back a fixed value; [InvalidRead],
    [InvalidWrite] and [Nop] reject or ignore the access (section 4.2). *)
Inductive ReadHandler :=
| DirectRead (p : Ptr16)
| ComplexRead (lambda : M Z)
| Constant (value : Z)
| InvalidRead.

Inductive WriteHandler :=
| DirectWrite (p : Ptr16) (mask : Z)
| ComplexWrite (lambda : Z -> M unit)
| InvalidWrite
| Nop.

Definition run_read (h : ReadHandler) : M (option Z) :=
  match h with
  | DirectRead p => v <- gets (load16 p) ;; ret (Some v)
  | ComplexRead lambda => v <- lambda ;; ret (Some v)
  | Constant value => ret (Some value)
  | InvalidRead => ret None
  end.

Definition run_write (h : WriteHandler) (val : Z) : M unit :=
  match h with
  | DirectWrite p mask => modify (store16 p (Z.land val mask))
  | ComplexWrite lambda => lambda val
  | InvalidWrite => ret tt
  | Nop => ret tt
  end.

(** [MMIO::Mapping]: the registrations in the order they are made. *)
Definition Mapping : Type := list (Reg * (ReadHandler * WriteHandler)).

Definition Register (addr : Reg) (r : ReadHandler) (w : WriteHandler)
  (mmio : Mapping) : Mapping :=
  mmio ++ [(addr, (r, w))].

Fixpoint handlers_of (mmio : Mapping) (addr : Reg)
  : option (ReadHandler * WriteHandler) :=
  match mmio with
  | [] => None
  | (a, h) :: rest => if Reg_beq a addr then Some h else handlers_of rest addr
  end.

(** One row of the table [directly_mapped_vars]. *)
Record mapped_var := {
  mv_addr : Reg;
  mv_ptr : Ptr16;
  mv_readonly : bool;
  mv_wmask : Z
}.

(** One row of the table [metrics_mmios]. *)
Record metrics_mmio := {
  mm_addr : Reg;
  mm_value : Z
}.

(** ** The module's functions *)

Section CommandProcessor.

Variable cfg : Config.

Definition IsOnThread : bool := bCPUThread cfg.

Definition WriteLow (_reg : Z) (lowbits : Z) : Z :=
  Z.lor (Z.land _reg 0xFFFF0000) lowbits.
Definition WriteHigh (_reg : Z) (highbits : Z) : Z :=
  Z.lor (Z.land _reg 0x0000FFFF) (u32_of (Z.shiftl highbits 16)).
Definition ReadLow (_reg : Z) : Z := u16_of (Z.land _reg 0xFFFF).
Definition ReadHigh (_reg : Z) : Z := u16_of (Z.shiftr _reg 16).

Definition Init : M unit :=
  modify (set_s_cp_status_reg 0) ;;
  modify (fun s => set_s_cp_status_reg
            (assign_bit UCPStatusReg.bit_CommandIdle true (s_cp_status_reg s)) s) ;;
  modify (fun s => set_s_cp_status_reg
            (assign_bit UCPStatusReg.bit_ReadIdle true (s_cp_status_reg s)) s) ;;
  modify (set_s_cp_ctrl_reg 0) ;;
  modify (set_s_cp_clear_reg 0) ;;
  modify (set_s_bbox (MathUtil.Build_Rectangle 0 0 640 480)) ;;
  modify (set_s_token_reg 0) ;;
  modify (set_fifo fifo_zero) ;;
  modify (set_s_interrupt_set false) ;;
  modify (set_s_interrupt_waiting false).

Definition GetPhysicalAddressMask : Z :=
  if bWii cfg then 0x1fffffff else 0x03ffffff.

Definition UpdateInterrupts (userdata : Z) : M unit :=
  (if negb (userdata =? 0)
   then modify (set_s_interrupt_set true) ;;
        call (ProcessorInterface_SetInterrupt_INT_CAUSE_CP true)
   else modify (set_s_interrupt_set false) ;;
        call (ProcessorInterface_SetInterrupt_INT_CAUSE_CP false)) ;;
  call (CoreTiming_ForceExceptionCheck 0) ;;
  modify (set_s_interrupt_waiting false) ;;
  call Fifo_RunGpu.

(** [CoreTiming::ScheduleEvent(0, s_update_interrupts, userdata, NON_CPU)] *)
Definition CoreTiming_ScheduleEvent_update_interrupts (userdata : Z) : M unit :=
  modify (fun s => set_pending_events (pending_events s ++ [userdata]) s).

Definition UpdateInterruptsFromVideoBackend (userdata : Z) : M unit :=
  when (negb (UseDeterministicGPUThread cfg))
    (CoreTiming_ScheduleEvent_update_interrupts userdata).

Definition IsInterruptWaiting : M bool := gets s_interrupt_waiting.

(** The three interrupt sources and the line they ask for, as both
    [SetCPStatusFromGPU] and [SetCPStatusFromCPU] compute them from the
    flags of the descriptor and the control register. *)
Definition bpInt_of (s : CPState) : bool :=
  bFF_Breakpoint (fifo s) && bFF_BPInt (fifo s).
Definition ovfInt_of (s : CPState) : bool :=
  bFF_HiWatermark (fifo s) && bFF_HiWatermarkInt (fifo s).
Definition undfInt_of (s : CPState) : bool :=
  bFF_LoWatermark (fifo s) && bFF_LoWatermarkInt (fifo s).
Definition interrupt_of (s : CPState) : bool :=
  (bpInt_of s || ovfInt_of s || undfInt_of s)
  && UCPCtrlReg.GPReadEnable (s_cp_ctrl_reg s).

(** [// overflow & underflow check] *)
Definition watermark_check : M unit :=
  fifo_assign (fun f =>
    set_bFF_HiWatermark (CPHiWatermark f <? CPReadWriteDistance f) f) ;;
  fifo_assign (fun f =>
    set_bFF_LoWatermark (CPReadWriteDistance f <? CPLoWatermark f) f).

Definition SetCPStatusFromGPU : M unit :=
  (* breakpoint *)
  f <- gets fifo ;;
  (if bFF_BPEnable f
   then if CPBreakpoint f =? CPReadPointer f
        then when (negb (bFF_Breakpoint f))
               (fifo_assign (set_bFF_Breakpoint true))
        else fifo_assign (set_bFF_Breakpoint false)
   else fifo_assign (set_bFF_Breakpoint false)) ;;
  watermark_check ;;
  bpInt <- gets bpInt_of ;;
  ovfInt <- gets ovfInt_of ;;
  undfInt <- gets undfInt_of ;;
  interrupt <- gets interrupt_of ;;
  set <- gets s_interrupt_set ;;
  waiting <- gets s_interrupt_waiting ;;
  when (negb (Bool.eqb interrupt set) && negb waiting)
    (let userdata := if interrupt then 1 else 0 in
     if IsOnThread
     then when (negb interrupt || bpInt || undfInt || ovfInt)
            ((* Schedule the interrupt asynchronously *)
             modify (set_s_interrupt_waiting true) ;;
             UpdateInterruptsFromVideoBackend userdata)
     else UpdateInterrupts userdata).

Definition SetCPStatusFromCPU : M unit :=
  watermark_check ;;
  bpInt <- gets bpInt_of ;;
  ovfInt <- gets ovfInt_of ;;
  undfInt <- gets undfInt_of ;;
  interrupt <- gets interrupt_of ;;
  set <- gets s_interrupt_set ;;
  waiting <- gets s_interrupt_waiting ;;
  when (negb (Bool.eqb interrupt set) && negb waiting)
    (let userdata := if interrupt then 1 else 0 in
     if IsOnThread
     then when (negb interrupt || bpInt || undfInt || ovfInt)
            (modify (set_s_interrupt_set interrupt) ;;
             call (ProcessorInterface_SetInterrupt_INT_CAUSE_CP interrupt))
     else UpdateInterrupts userdata).

Definition GatherPipeBursted : M unit :=
  SetCPStatusFromCPU ;;
  ctrl <- gets s_cp_ctrl_reg ;;
  (* if we aren't linked, we don't care about gather pipe data *)
  if negb (UCPCtrlReg.GPLinkEnable ctrl)
  then
    when (IsOnThread && negb (UseDeterministicGPUThread cfg))
      (s <- gets (fun s => s) ;;
       when ((Fifo_CPUEnd s =? CPEnd (fifo s))
             && (Fifo_CPUBase s =? CPBase (fifo s))
             && (0 <? CPReadWriteDistance (fifo s)))
         (call Fifo_FlushGpu)) ;;
    call Fifo_RunGpu
  else
    (* update the fifo pointer *)
    f <- gets fifo ;;
    (if CPWritePointer f =? CPEnd f
     then fifo_assign (set_CPWritePointer (CPBase f))
     else fifo_assign (set_CPWritePointer
                         (add32 (CPWritePointer f) GATHER_PIPE_SIZE))) ;;
    when (UCPCtrlReg.GPReadEnable ctrl && UCPCtrlReg.GPLinkEnable ctrl)
      (modify (fun s => set_Fifo_CPUWritePointer (CPWritePointer (fifo s)) s) ;;
       modify (fun s => set_Fifo_CPUBase (CPBase (fifo s)) s) ;;
       modify (fun s => set_Fifo_CPUEnd (CPEnd (fifo s)) s)) ;;
    (* If the game is running close to overflowing, make the exception
       checking more frequent. *)
    hi <- gets (fun s => bFF_HiWatermark (fifo s)) ;;
    when hi (call (CoreTiming_ForceExceptionCheck 0)) ;;
    (* Common::AtomicAdd(fifo.CPReadWriteDistance, GATHER_PIPE_SIZE) *)
    fifo_assign (fun f =>
      set_CPReadWriteDistance (add32 (CPReadWriteDistance f) GATHER_PIPE_SIZE) f) ;;
    call Fifo_RunGpu ;;
    s <- gets (fun s => s) ;;
    ASSERT_MSG (CPReadWriteDistance (fifo s) <=? sub32 (CPEnd (fifo s)) (CPBase (fifo s)))
      FIFO_overflowed_by_GatherPipe ;;
    (* check if we are in sync *)
    ASSERT_MSG (CPWritePointer (fifo s) =? Fifo_CPUWritePointer s)
      FIFOs_linked_but_out_of_sync ;;
    ASSERT_MSG (CPBase (fifo s) =? Fifo_CPUBase s) FIFOs_linked_but_out_of_sync ;;
    ASSERT_MSG (CPEnd (fifo s) =? Fifo_CPUEnd s) FIFOs_linked_but_out_of_sync.

Definition SetCpControlRegister : M unit :=
  ctrl <- gets s_cp_ctrl_reg ;;
  fifo_assign (set_bFF_BPInt (UCPCtrlReg.BPInt ctrl)) ;;
  fifo_assign (set_bFF_BPEnable (UCPCtrlReg.BPEnable ctrl)) ;;
  fifo_assign (set_bFF_HiWatermarkInt (UCPCtrlReg.FifoOverflowIntEnable ctrl)) ;;
  fifo_assign (set_bFF_LoWatermarkInt (UCPCtrlReg.FifoUnderflowIntEnable ctrl)) ;;
  fifo_assign (set_bFF_GPLinkEnable (UCPCtrlReg.GPLinkEnable ctrl)) ;;
  re <- gets (fun s => bFF_GPReadEnable (fifo s)) ;;
  if re && negb (UCPCtrlReg.GPReadEnable ctrl)
  then fifo_assign (set_bFF_GPReadEnable (UCPCtrlReg.GPReadEnable ctrl)) ;;
       call Fifo_FlushGpu
  else fifo_assign (set_bFF_GPReadEnable (UCPCtrlReg.GPReadEnable ctrl)).

(** [// NOTE: We intentionally don't emulate this function at the moment.] *)
Definition SetCpClearRegister : M unit := ret tt.

(** Modelled from the spec: [Fifo::AtBreakpoint()] is the consumer's
    [IsAtBreakpoint()] query (section 6), whose body is not among the sources;
    the consumer is at the breakpoint when breakpoints are enabled and the
    read pointer equals the breakpoint address (section 4.1). *)
Definition Fifo_AtBreakpoint : M bool :=
  f <- gets fifo ;;
  ret (bFF_BPEnable f && (CPReadPointer f =? CPBreakpoint f)).

Definition SetCpStatusRegister : M unit :=
  (* Here always there is one fifo attached to the GPU *)
  let assign n b :=
    modify (fun s => set_s_cp_status_reg (assign_bit n b (s_cp_status_reg s)) s) in
  f <- gets fifo ;;
  assign UCPStatusReg.bit_Breakpoint (bFF_Breakpoint f) ;;
  assign UCPStatusReg.bit_ReadIdle
    ((CPReadWriteDistance f =? 0) || (CPReadPointer f =? CPWritePointer f)) ;;
  at_breakpoint <- Fifo_AtBreakpoint ;;
  assign UCPStatusReg.bit_CommandIdle
    ((CPReadWriteDistance f =? 0) || at_breakpoint || negb (bFF_GPReadEnable f)) ;;
  assign UCPStatusReg.bit_UnderflowLoWatermark (bFF_LoWatermark f) ;;
  assign UCPStatusReg.bit_OverflowHiWatermark (bFF_HiWatermark f).

Definition WMASK_NONE : Z := 0x0000.
Definition WMASK_ALL : Z := 0xffff.
Definition WMASK_LO_ALIGN_32BIT : Z := 0xffe0.
Definition WMASK_HI_RESTRICT : Z := u16_of (Z.shiftr GetPhysicalAddressMask 16).

Definition directly_mapped_vars : list mapped_var :=
  [ Build_mapped_var FIFO_TOKEN_REGISTER ptr_s_token_reg false WMASK_ALL;
    (* Bounding box registers are read only. *)
    Build_mapped_var FIFO_BOUNDING_BOX_LEFT ptr_s_bbox_left true WMASK_NONE;
    Build_mapped_var FIFO_BOUNDING_BOX_RIGHT ptr_s_bbox_right true WMASK_NONE;
    Build_mapped_var FIFO_BOUNDING_BOX_TOP ptr_s_bbox_top true WMASK_NONE;
    Build_mapped_var FIFO_BOUNDING_BOX_BOTTOM ptr_s_bbox_bottom true WMASK_NONE;
    Build_mapped_var FIFO_BASE_LO (LowPart fifo_CPBase) false WMASK_LO_ALIGN_32BIT;
    Build_mapped_var FIFO_BASE_HI (HighPart fifo_CPBase) false WMASK_HI_RESTRICT;
    Build_mapped_var FIFO_END_LO (LowPart fifo_CPEnd) false WMASK_LO_ALIGN_32BIT;
    Build_mapped_var FIFO_END_HI (HighPart fifo_CPEnd) false WMASK_HI_RESTRICT;
    Build_mapped_var FIFO_HI_WATERMARK_LO (LowPart fifo_CPHiWatermark) false
      WMASK_LO_ALIGN_32BIT;
    Build_mapped_var FIFO_HI_WATERMARK_HI (HighPart fifo_CPHiWatermark) false
      WMASK_HI_RESTRICT;
    Build_mapped_var FIFO_LO_WATERMARK_LO (LowPart fifo_CPLoWatermark) false
      WMASK_LO_ALIGN_32BIT;
    Build_mapped_var FIFO_LO_WATERMARK_HI (HighPart fifo_CPLoWatermark) false
      WMASK_HI_RESTRICT;
    (* FIFO_RW_DISTANCE has some complex read code different for
       single/dual core. *)
    Build_mapped_var FIFO_WRITE_POINTER_LO (LowPart fifo_CPWritePointer) false
      WMASK_LO_ALIGN_32BIT;
    Build_mapped_var FIFO_WRITE_POINTER_HI (HighPart fifo_CPWritePointer) false
      WMASK_HI_RESTRICT
    (* FIFO_READ_POINTER has different code for single/dual core. *) ].

(** Timing and metrics MMIOs are stubbed with fixed values. *)
Definition metrics_mmios : list metrics_mmio :=
  [ Build_metrics_mmio XF_RASBUSY_L 0; Build_metrics_mmio XF_RASBUSY_H 0;
    Build_metrics_mmio XF_CLKS_L 0; Build_metrics_mmio XF_CLKS_H 0;
    Build_metrics_mmio XF_WAIT_IN_L 0; Build_metrics_mmio XF_WAIT_IN_H 0;
    Build_metrics_mmio XF_WAIT_OUT_L 0; Build_metrics_mmio XF_WAIT_OUT_H 0;
    Build_metrics_mmio VCACHE_METRIC_CHECK_L 0;
    Build_metrics_mmio VCACHE_METRIC_CHECK_H 0;
    Build_metrics_mmio VCACHE_METRIC_MISS_L 0;
    Build_metrics_mmio VCACHE_METRIC_MISS_H 0;
    Build_metrics_mmio VCACHE_METRIC_STALL_L 0;
    Build_metrics_mmio VCACHE_METRIC_STALL_H 0;
    Build_metrics_mmio CLKS_PER_VTX_OUT 4 ].

(** The value the dual-core handlers of [FIFO_RW_DISTANCE] split into halves:
    [fifo.CPWritePointer - fifo.SafeCPReadPointer] when the write pointer is not
    behind the safe read pointer, and otherwise
    [fifo.CPEnd - fifo.SafeCPReadPointer + fifo.CPWritePointer - fifo.CPBase + 32],
    every operation on [u32]. *)
Definition dual_core_distance_lambda (half : Z -> Z) : M Z :=
  f <- gets fifo ;;
  if SafeCPReadPointer f <=? CPWritePointer f
  then ret (half (sub32 (CPWritePointer f) (SafeCPReadPointer f)))
  else ret (half (add32 (sub32 (add32 (sub32 (CPEnd f) (SafeCPReadPointer f))
                                      (CPWritePointer f))
                               (CPBase f))
                        32)).

Definition RegisterMMIO : Mapping :=
  let mmio : Mapping := [] in
  let mmio :=
    fold_left (fun mmio mapped_var =>
                 Register (mv_addr mapped_var) (DirectRead (mv_ptr mapped_var))
                   (if mv_readonly mapped_var then InvalidWrite
                    else DirectWrite (mv_ptr mapped_var) (mv_wmask mapped_var))
                   mmio)
      directly_mapped_vars mmio in
  let mmio :=
    Register FIFO_BP_LO (DirectRead (LowPart fifo_CPBreakpoint))
      (ComplexWrite (fun val =>
         fifo_assign (fun f =>
           set_CPBreakpoint
             (WriteLow (CPBreakpoint f) (Z.land val WMASK_LO_ALIGN_32BIT)) f)))
      mmio in
  let mmio :=
    Register FIFO_BP_HI (DirectRead (HighPart fifo_CPBreakpoint))
      (ComplexWrite (fun val =>
         fifo_assign (fun f =>
           set_CPBreakpoint
             (WriteHigh (CPBreakpoint f) (Z.land val WMASK_HI_RESTRICT)) f)))
      mmio in
  let mmio :=
    fold_left (fun mmio metrics_mmio =>
                 Register (mm_addr metrics_mmio) (Constant (mm_value metrics_mmio))
                   InvalidWrite mmio)
      metrics_mmios mmio in
  let mmio :=
    Register STATUS_REGISTER
      (ComplexRead (SetCpStatusRegister ;; gets s_cp_status_reg))
      InvalidWrite mmio in
  let mmio :=
    Register CTRL_REGISTER (DirectRead ptr_s_cp_ctrl_reg_Hex)
      (ComplexWrite (fun val =>
         modify (set_s_cp_ctrl_reg val) ;;
         SetCpControlRegister ;;
         call Fifo_RunGpu))
      mmio in
  let mmio :=
    Register CLEAR_REGISTER (DirectRead ptr_s_cp_clear_reg_Hex)
      (ComplexWrite (fun val =>
         modify (set_s_cp_clear_reg val) ;;
         SetCpClearRegister ;;
         call Fifo_RunGpu))
      mmio in
  let mmio := Register PERF_SELECT InvalidRead Nop mmio in
  (* Some MMIOs have different handlers for single core vs. dual core mode. *)
  let mmio :=
    Register FIFO_RW_DISTANCE_LO
      (if IsOnThread
       then ComplexRead (dual_core_distance_lambda ReadLow)
       else DirectRead (LowPart fifo_CPReadWriteDistance))
      (DirectWrite (LowPart fifo_CPReadWriteDistance) WMASK_LO_ALIGN_32BIT)
      mmio in
  let mmio :=
    Register FIFO_RW_DISTANCE_HI
      (if IsOnThread
       then ComplexRead (dual_core_distance_lambda ReadHigh)
       else DirectRead (HighPart fifo_CPReadWriteDistance))
      (ComplexWrite (fun val =>
         fifo_assign (fun f =>
           set_CPReadWriteDistance
             (WriteHigh (CPReadWriteDistance f) (Z.land val WMASK_HI_RESTRICT)) f) ;;
         call (Fifo_SyncGPU SyncGPUReason_Other) ;;
         call Fifo_RunGpu))
      mmio in
  let mmio :=
    Register FIFO_READ_POINTER_LO
      (if IsOnThread
       then DirectRead (LowPart fifo_SafeCPReadPointer)
       else DirectRead (LowPart fifo_CPReadPointer))
      (DirectWrite (LowPart fifo_CPReadPointer) WMASK_LO_ALIGN_32BIT)
      mmio in
  let mmio :=
    Register FIFO_READ_POINTER_HI
      (if IsOnThread
       then DirectRead (HighPart fifo_SafeCPReadPointer)
       else DirectRead (HighPart fifo_CPReadPointer))
      (if IsOnThread
       then ComplexWrite (fun val =>
              fifo_assign (fun f =>
                set_CPReadPointer
                  (WriteHigh (CPReadPointer f) (Z.land val WMASK_HI_RESTRICT)) f) ;;
              fifo_assign (fun f => set_SafeCPReadPointer (CPReadPointer f) f))
       else DirectWrite (HighPart fifo_CPReadPointer) WMASK_HI_RESTRICT)
      mmio in
  mmio.

(** A 16-bit access of the producer to the register window. *)
Definition mmio_Read (addr : Reg) : M (option Z) :=
  match handlers_of RegisterMMIO addr with
  | Some (r, _) => run_read r
  | None => ret None
  end.

Definition mmio_Write (addr : Reg) (val : Z) : M unit :=
  match handlers_of RegisterMMIO addr with
  | Some (_, w) => run_write w val
  | None => ret tt
  end.

(** ** The scheduler and the consumer

    Modelled from the spec: the scheduler runs a submitted one-shot task at
    its next opportunity, exactly once (sections 4.3 and 5); the task of
    [s_update_interrupts] is [UpdateInterrupts_Wrapper]. *)
Definition UpdateInterrupts_Wrapper (userdata cyclesLate : Z) : M unit :=
  UpdateInterrupts userdata.

Definition CoreTiming_run_next : M unit :=
  evs <- gets pending_events ;;
  match evs with
  | [] => ret tt
  | userdata :: rest =>
      modify (set_pending_events rest) ;;
      UpdateInterrupts_Wrapper userdata 0
  end.

(** The scheduler runs every task pending at the time of the call. *)
Definition CoreTiming_drain : M unit :=
  evs <- gets pending_events ;;
  fold_right (fun _ k => CoreTiming_run_next ;; k) (ret tt) evs.

(** What can happen to the module between two observations: an access of the
    producer to a register, a burst commit, the consumer changing the
    descriptor fields it owns or recomputing the status, the scheduler
    running the oldest pending task. *)
Inductive Action :=
| Producer_write (addr : Reg) (val : Z)
| Producer_read (addr : Reg)
| Producer_commit
| Consumer_update (upd : SCPFifoStruct -> SCPFifoStruct)
| Consumer_status
| Scheduler_run.

Definition step (a : Action) : M unit :=
  match a with
  | Producer_write addr val => mmio_Write addr val
  | Producer_read addr => mmio_Read addr ;; ret tt
  | Producer_commit => GatherPipeBursted
  | Consumer_update upd => fifo_assign upd
  | Consumer_status => SetCPStatusFromGPU
  | Scheduler_run => CoreTiming_run_next
  end.

Fixpoint run (acts : list Action) : M unit :=
  match acts with
  | [] => ret tt
  | a :: rest => step a ;; run rest
  end.

End CommandProcessor.


(** ** Notions used in the statements *)

Arguments UCPCtrlReg.GPReadEnable : simpl never.
Arguments UCPCtrlReg.BPEnable : simpl never.
Arguments UCPCtrlReg.FifoOverflowIntEnable : simpl never.
Arguments UCPCtrlReg.FifoUnderflowIntEnable : simpl never.
Arguments UCPCtrlReg.GPLinkEnable : simpl never.
Arguments UCPCtrlReg.BPInt : simpl never.

(** The descriptor after the flag assignments of [SetCPStatusFromCPU] and of
    [SetCPStatusFromGPU]. *)
Definition flags_from_CPU (f : SCPFifoStruct) : SCPFifoStruct :=
  set_bFF_LoWatermark (CPReadWriteDistance f <? CPLoWatermark f)
    (set_bFF_HiWatermark (CPHiWatermark f <? CPReadWriteDistance f) f).

Definition flags_from_GPU (f : SCPFifoStruct) : SCPFifoStruct :=
  flags_from_CPU
    (set_bFF_Breakpoint (bFF_BPEnable f && (CPBreakpoint f =? CPReadPointer f)) f).

(** The relation between the two watermark flags and the distance. *)
Definition watermark_flags_correct (f : SCPFifoStruct) : Prop :=
  (bFF_HiWatermark f = true <-> CPReadWriteDistance f > CPHiWatermark f)
  /\ (bFF_LoWatermark f = true <-> CPReadWriteDistance f < CPLoWatermark f)
  /\ (bFF_HiWatermark f = false /\ bFF_LoWatermark f = false <->
      CPLoWatermark f <= CPReadWriteDistance f <= CPHiWatermark f).

(** A computation preserves an observation of the state when running it
    never changes that observation. *)
Definition preserves {A B} (obs : CPState -> A) (m : M B) : Prop :=
  forall s, obs (exec m s) = obs s.

(** The [userdata] that carries a line value to [UpdateInterrupts]. *)
Definition userdata_of (interrupt : bool) : Z := if interrupt then 1 else 0.

(** [n] burst commits in a row, nothing else happening in between. *)
Definition commits (cfg : Config) (n : nat) (s : CPState) : CPState :=
  Nat.iter n (exec (GatherPipeBursted cfg)) s.

(** The half-registers of the address, threshold and pointer fields that
    carry a write mask. *)
Definition lo_half_registers : list Reg :=
  [FIFO_BASE_LO; FIFO_END_LO; FIFO_HI_WATERMARK_LO; FIFO_LO_WATERMARK_LO;
   FIFO_BP_LO; FIFO_WRITE_POINTER_LO].

Definition hi_half_registers : list Reg :=
  [FIFO_BASE_HI; FIFO_END_HI; FIFO_HI_WATERMARK_HI; FIFO_LO_WATERMARK_HI;
   FIFO_BP_HI; FIFO_WRITE_POINTER_HI].

(** What a 16-bit read returns after [val] was written to the same register. *)
Definition read_back (cfg : Config) (addr : Reg) (val : Z) (s : CPState)
  : option Z :=
  eval (mmio_Read cfg addr) (exec (mmio_Write cfg addr val) s).

(** ** Concrete configurations and states *)

Definition single_core : Config :=
  {| bCPUThread := false; bWii := false; UseDeterministicGPUThread := false |}.

Definition dual_core : Config :=
  {| bCPUThread := true; bWii := false; UseDeterministicGPUThread := false |}.

(** The state before [Init]: nothing scheduled, nothing called yet. *)
Definition power_on : CPState :=
  {| fifo := fifo_zero;
     s_cp_status_reg := 0; s_cp_ctrl_reg := 0; s_cp_clear_reg := 0;
     s_bbox := MathUtil.Build_Rectangle 0 0 0 0;
     s_token_reg := 0;
     s_interrupt_set := false; s_interrupt_waiting := false;
     Fifo_CPUBase := 0; Fifo_CPUEnd := 0; Fifo_CPUWritePointer := 0;
     pending_events := []; calls := [] |}.

Definition booted : CPState := exec Init power_on.

(** Scenario A: a ring from 0 to 0x1000 in linked mode with reads enabled,
    write pointer and distance at 0, the mirror registers in agreement. *)
Definition scenario_A_ctrl : Z :=
  assign_bit UCPCtrlReg.bit_GPLinkEnable true
    (assign_bit UCPCtrlReg.bit_GPReadEnable true 0).

Definition scenario_A_start : CPState :=
  set_Fifo_CPUEnd 0x1000
    (set_fifo (set_bFF_GPReadEnable true
                 (set_bFF_GPLinkEnable true (set_CPEnd 0x1000 fifo_zero)))
       (set_s_cp_ctrl_reg scenario_A_ctrl booted)).

(** The line the interrupt engine asks for, in the words of the
    specification: a source is active and enabled, and reads are enabled. *)
Definition desired_line (s : CPState) : bool :=
  let f := fifo s in
  ((bFF_Breakpoint f && bFF_BPInt f)
   || (bFF_HiWatermark f && bFF_HiWatermarkInt f)
   || (bFF_LoWatermark f && bFF_LoWatermarkInt f))
  && UCPCtrlReg.GPReadEnable (s_cp_ctrl_reg s).

(** The interrupt state: the asserted line, the pending flag and the tasks
    the scheduler holds. *)
Definition irq_state (s : CPState) : bool * bool * list Z :=
  (s_interrupt_set s, s_interrupt_waiting s, pending_events s).

(** The three places where the line is re-evaluated. *)
Inductive Recomputation := By_consumer | By_producer | By_commit.

Definition recompute (cfg : Config) (r : Recomputation) : M unit :=
  match r with
  | By_consumer => SetCPStatusFromGPU cfg
  | By_producer => SetCPStatusFromCPU cfg
  | By_commit => GatherPipeBursted cfg
  end.

(** At most one task is pending, and only while the pending flag is set. *)
Definition at_most_one_pending (s : CPState) : Prop :=
  (List.length (pending_events s) <= 1)%nat
  /\ (pending_events s <> [] -> s_interrupt_waiting s = true).

(** A state reached from [Init] by the actions [acts]. *)
Definition reached (cfg : Config) (s0 : CPState) (acts : list Action) : CPState :=
  exec (run cfg acts) (exec Init s0).

(** Control words used in the scenarios. *)
Definition ctrl_read_underflow_int : Z :=
  assign_bit UCPCtrlReg.bit_FifoUnderflowIntEnable true
    (assign_bit UCPCtrlReg.bit_GPReadEnable true 0).

Definition ctrl_underflow_int_only : Z :=
  assign_bit UCPCtrlReg.bit_FifoUnderflowIntEnable true 0.

(** The line is asserted for an underflow: reads and the underflow interrupt
    are enabled, the low watermark is raised above the empty FIFO, the
    consumer recomputes the status and the scheduler runs what is pending. *)
Definition underflow_asserted (cfg : Config) : CPState :=
  reached cfg power_on
    [ Producer_write CTRL_REGISTER ctrl_read_underflow_int;
      Producer_write FIFO_LO_WATERMARK_LO 0x20;
      Consumer_status;
      Scheduler_run ].

(** From there the low watermark is lowered again: no alarm is left, the line
    is still asserted. *)
Definition asserted_without_alarm (cfg : Config) : CPState :=
  exec (step cfg (Producer_write FIFO_LO_WATERMARK_LO 0)) (underflow_asserted cfg).

(** A dispatch is pending for the underflow when the alarm goes away; the
    consumer recomputes the status while the dispatch is still pending, then
    the scheduler runs the task. *)
Definition stale_dispatch_run (cfg : Config) : CPState :=
  reached cfg power_on
    [ Producer_write CTRL_REGISTER ctrl_read_underflow_int;
      Producer_write FIFO_LO_WATERMARK_LO 0x20;
      Consumer_status;
      Producer_write FIFO_LO_WATERMARK_LO 0;
      Consumer_status;
      Scheduler_run ].

(** A ring from 0 to 0x1000 whose write pointer (0x20) is behind the safe
    read pointer (0x40). *)
Definition write_pointer_behind : CPState :=
  set_fifo (set_CPWritePointer 0x20
              (set_SafeCPReadPointer 0x40 (set_CPEnd 0x1000 fifo_zero)))
    booted.

(** ** Address ranges ([VideoCommon/FramebufferManagerBase.h]) *)

Definition AddressRangesOverlap (aLower aUpper bLower bUpper : Z) : bool :=
  negb ((bUpper <=? aLower) || (aUpper <=? bLower)).

(** ** Further notions used in the statements *)

(** The registers whose write handler is [MMIO::InvalidWrite] or [MMIO::Nop]. *)
Definition metrics_registers : list Reg :=
  [XF_RASBUSY_L; XF_RASBUSY_H; XF_CLKS_L; XF_CLKS_H; XF_WAIT_IN_L; XF_WAIT_IN_H;
   XF_WAIT_OUT_L; XF_WAIT_OUT_H; VCACHE_METRIC_CHECK_L; VCACHE_METRIC_CHECK_H;
   VCACHE_METRIC_MISS_L; VCACHE_METRIC_MISS_H; VCACHE_METRIC_STALL_L;
   VCACHE_METRIC_STALL_H; CLKS_PER_VTX_OUT].

Definition write_rejecting_registers : list Reg :=
  [FIFO_BOUNDING_BOX_LEFT; FIFO_BOUNDING_BOX_RIGHT; FIFO_BOUNDING_BOX_TOP;
   FIFO_BOUNDING_BOX_BOTTOM; STATUS_REGISTER; PERF_SELECT] ++ metrics_registers.

(** The address, threshold and pointer fields written through a pair of
    masked half-registers: low register, high register, field. *)
Definition masked_fields : list (Reg * Reg * Field32) :=
  [ (FIFO_BASE_LO, FIFO_BASE_HI, fifo_CPBase);
    (FIFO_END_LO, FIFO_END_HI, fifo_CPEnd);
    (FIFO_HI_WATERMARK_LO, FIFO_HI_WATERMARK_HI, fifo_CPHiWatermark);
    (FIFO_LO_WATERMARK_LO, FIFO_LO_WATERMARK_HI, fifo_CPLoWatermark);
    (FIFO_BP_LO, FIFO_BP_HI, fifo_CPBreakpoint);
    (FIFO_WRITE_POINTER_LO, FIFO_WRITE_POINTER_HI, fifo_CPWritePointer) ].

(** The 32-bit value two masked half writes put together. *)
Definition masked_word (cfg : Config) (lo hi : Z) : Z :=
  Z.lor (Z.shiftl (Z.land hi (WMASK_HI_RESTRICT cfg)) 16)
        (Z.land lo WMASK_LO_ALIGN_32BIT).

(** The calls made to the interrupt sink, oldest first. *)
Definition sink_values (l : list Call) : list bool :=
  flat_map (fun c => match c with
                     | ProcessorInterface_SetInterrupt_INT_CAUSE_CP b => [b]
                     | _ => []
                     end) l.

(** What one of the three sync assertions of a linked commit logs. *)
Definition out_of_sync (in_sync : bool) : list Call :=
  if in_sync then [] else [ASSERT_MSG_failed FIFOs_linked_but_out_of_sync].

(** The number of slots of a ring whose last slot starts at [CPEnd]. *)
Definition ring_slots (f : SCPFifoStruct) : Z :=
  (CPEnd f - CPBase f) / GATHER_PIPE_SIZE + 1.

(** The write pointer is on a slot of the ring. *)
Definition on_ring (f : SCPFifoStruct) : Prop :=
  CPBase f <= CPWritePointer f <= CPEnd f
  /\ (CPWritePointer f - CPBase f) mod GATHER_PIPE_SIZE = 0
  /\ (CPEnd f - CPBase f) mod GATHER_PIPE_SIZE = 0
  /\ 0 <= CPBase f /\ CPEnd f < 2 ^ 32.

(** The interrupt state together with what the interrupt sink was told. *)
Definition sink_state (s : CPState) : bool * bool * list Z * list bool :=
  (s_interrupt_set s, s_interrupt_waiting s, pending_events s,
   sink_values (calls s)).


(** Reads are disabled, the line is low and nothing is pending. *)
Definition quiet (s : CPState) : Prop :=
  UCPCtrlReg.GPReadEnable (s_cp_ctrl_reg s) = false
  /\ s_interrupt_set s = false
  /\ s_interrupt_waiting s = false
  /\ pending_events s = [].

(** An action that does not enable reads. *)
Definition keeps_reads_disabled (a : Action) : Prop :=
  forall val, a = Producer_write CTRL_REGISTER val ->
              UCPCtrlReg.GPReadEnable val = false.


(** An action of the producer or of the scheduler. *)
Definition not_consumer (a : Action) : Prop :=
  match a with
  | Consumer_update _ | Consumer_status => False
  | _ => True
  end.

(** * Properties *)

(** ** Running a computation *)

Lemma exec_bind {A B} (m : M A) (k : A -> M B) s :
  exec (bind m k) s = exec (k (eval m s)) (exec m s).
Proof. reflexivity. Qed.

Lemma exec_bind_gets {A B} (proj : CPState -> A) (k : A -> M B) s :
  exec (bind (gets proj) k) s = exec (k (proj s)) s.
Proof. reflexivity. Qed.

Lemma exec_modify upd s : exec (modify upd) s = upd s.
Proof. reflexivity. Qed.

Lemma exec_fifo_assign upd s :
  exec (fifo_assign upd) s = set_fifo (upd (fifo s)) s.
Proof. reflexivity. Qed.

Lemma exec_call c s : exec (call c) s = set_calls (calls s ++ [c]) s.
Proof. reflexivity. Qed.

Lemma exec_ret {A} (a : A) s : exec (ret a) s = s.
Proof. reflexivity. Qed.

Lemma exec_when c m s : exec (when c m) s = if c then exec m s else s.
Proof. destruct c; reflexivity. Qed.

Lemma exec_if {A} (c : bool) (m1 m2 : M A) s :
  exec (if c then m1 else m2) s = if c then exec m1 s else exec m2 s.
Proof. destruct c; reflexivity. Qed.

(** Reading a field of a state written with the field assignments. *)
Ltac cp_fields :=
  cbn [fst snd
       CPBase CPEnd CPHiWatermark CPLoWatermark CPReadWriteDistance
       CPWritePointer CPReadPointer CPBreakpoint SafeCPReadPointer
       bFF_GPLinkEnable bFF_GPReadEnable bFF_BPEnable bFF_BPInt
       bFF_Breakpoint bFF_LoWatermarkInt bFF_HiWatermarkInt bFF_LoWatermark
       bFF_HiWatermark fifo s_cp_status_reg s_cp_ctrl_reg s_cp_clear_reg
       s_bbox s_token_reg s_interrupt_set s_interrupt_waiting Fifo_CPUBase
       Fifo_CPUEnd Fifo_CPUWritePointer pending_events calls set_CPBase
       set_CPEnd set_CPHiWatermark set_CPLoWatermark set_CPReadWriteDistance
       set_CPWritePointer set_CPReadPointer set_CPBreakpoint
       set_SafeCPReadPointer set_bFF_GPLinkEnable set_bFF_GPReadEnable
       set_bFF_BPEnable set_bFF_BPInt set_bFF_Breakpoint
       set_bFF_LoWatermarkInt set_bFF_HiWatermarkInt set_bFF_LoWatermark
       set_bFF_HiWatermark set_fifo set_s_cp_status_reg set_s_cp_ctrl_reg
       set_s_cp_clear_reg set_s_bbox set_s_token_reg set_s_interrupt_set
       set_s_interrupt_waiting set_Fifo_CPUBase set_Fifo_CPUEnd
       set_Fifo_CPUWritePointer set_pending_events set_calls].

Ltac cp_split c :=
  lazymatch c with
  | true => cbv iota
  | false => cbv iota
  | _ => destruct c eqn:?
  end.

(** One step of symbolic execution, chosen by the shape of the computation;
    a branch of the source splits the goal. *)
Ltac cp_step :=
  match goal with
  | |- context [exec (bind (gets ?p) ?k) ?s] => rewrite (exec_bind_gets p k s)
  | |- context [exec (bind ?m ?k) ?s] => rewrite (exec_bind m k s)
  | |- context [exec (modify ?u) ?s] => rewrite (exec_modify u s)
  | |- context [exec (fifo_assign ?u) ?s] => rewrite (exec_fifo_assign u s)
  | |- context [exec (call ?c) ?s] => rewrite (exec_call c s)
  | |- context [exec (ret ?a) ?s] => rewrite (exec_ret a s)
  | |- context [exec (when ?c ?m) ?s] =>
      rewrite (exec_when c m s); cp_split c
  | |- context [exec (if ?c then ?m1 else ?m2) ?s] =>
      rewrite (exec_if c m1 m2 s); cp_split c
  end; cbv beta; cp_fields.

Ltac cp_exec := repeat cp_step.

(** ** The interrupt engine *)

(** The inner guard of the dual-core branches lets every transition
    through: a line that is asked for has one of its three sources active. *)
Lemma edge_guard_always (bp ovf undf re : bool) :
  negb ((bp || ovf || undf) && re) || bp || undf || ovf = true.
Proof. destruct bp, ovf, undf, re; reflexivity. Qed.

Lemma interrupt_guard s :
  negb (interrupt_of s) || bpInt_of s || undfInt_of s || ovfInt_of s = true.
Proof. unfold interrupt_of. apply edge_guard_always. Qed.

Lemma exec_watermark_check s :
  exec watermark_check s = set_fifo (flags_from_CPU (fifo s)) s.
Proof. destruct s as [f ? ? ? ? ? ? ? ? ? ? ? ?]. destruct f. reflexivity. Qed.

Lemma exec_UpdateInterrupts userdata s :
  exec (UpdateInterrupts userdata) s =
  set_calls (calls s ++ [ProcessorInterface_SetInterrupt_INT_CAUSE_CP
                           (negb (userdata =? 0));
                         CoreTiming_ForceExceptionCheck 0; Fifo_RunGpu])
    (set_s_interrupt_waiting false
       (set_s_interrupt_set (negb (userdata =? 0)) s)).
Proof.
  unfold UpdateInterrupts.
  destruct (userdata =? 0); cbn [negb]; cp_exec; cbn;
    rewrite <- !app_assoc; reflexivity.
Qed.

(** What [SetCPStatusFromCPU] leaves, case by case. *)
Lemma exec_SetCPStatusFromCPU cfg s :
  let s1 := set_fifo (flags_from_CPU (fifo s)) s in
  let interrupt := interrupt_of s1 in
  exec (SetCPStatusFromCPU cfg) s =
  if negb (Bool.eqb interrupt (s_interrupt_set s)) && negb (s_interrupt_waiting s)
  then if bCPUThread cfg
       then set_calls (calls s ++ [ProcessorInterface_SetInterrupt_INT_CAUSE_CP
                                     interrupt])
              (set_s_interrupt_set interrupt s1)
       else exec (UpdateInterrupts (userdata_of interrupt)) s1
  else s1.
Proof.
  intros s1 interrupt. unfold SetCPStatusFromCPU.
  rewrite exec_bind, exec_watermark_check. fold s1.
  rewrite !exec_bind_gets. fold interrupt.
  rewrite exec_when. unfold IsOnThread.
  change (s_interrupt_set s1) with (s_interrupt_set s).
  change (s_interrupt_waiting s1) with (s_interrupt_waiting s).
  destruct (negb (Bool.eqb interrupt (s_interrupt_set s))
            && negb (s_interrupt_waiting s)); [ | reflexivity ].
  rewrite exec_if. destruct (bCPUThread cfg); [ | reflexivity ].
  subst interrupt. rewrite interrupt_guard. cp_exec. reflexivity.
Qed.

(** What [SetCPStatusFromGPU] leaves, case by case. *)
Lemma exec_SetCPStatusFromGPU cfg s :
  let s1 := set_fifo (flags_from_GPU (fifo s)) s in
  let interrupt := interrupt_of s1 in
  exec (SetCPStatusFromGPU cfg) s =
  if negb (Bool.eqb interrupt (s_interrupt_set s)) && negb (s_interrupt_waiting s)
  then if bCPUThread cfg
       then if UseDeterministicGPUThread cfg
            then set_s_interrupt_waiting true s1
            else set_pending_events (pending_events s ++ [userdata_of interrupt])
                   (set_s_interrupt_waiting true s1)
       else exec (UpdateInterrupts (userdata_of interrupt)) s1
  else s1.
Proof.
  intros s1 interrupt. unfold SetCPStatusFromGPU.
  rewrite exec_bind_gets, exec_bind.
  assert (Hbrk :
    exec (if bFF_BPEnable (fifo s)
          then if CPBreakpoint (fifo s) =? CPReadPointer (fifo s)
               then when (negb (bFF_Breakpoint (fifo s)))
                      (fifo_assign (set_bFF_Breakpoint true))
               else fifo_assign (set_bFF_Breakpoint false)
          else fifo_assign (set_bFF_Breakpoint false)) s =
    set_fifo (set_bFF_Breakpoint
                (bFF_BPEnable (fifo s)
                 && (CPBreakpoint (fifo s) =? CPReadPointer (fifo s))) (fifo s)) s).
  { destruct s as [f ? ? ? ? ? ? ? ? ? ? ? ?]. destruct f. cbn [fifo bFF_BPEnable
      CPBreakpoint CPReadPointer bFF_Breakpoint].
    destruct bFF_BPEnable0; [ | reflexivity ].
    destruct (CPBreakpoint0 =? CPReadPointer0); [ | reflexivity ].
    destruct bFF_Breakpoint0; reflexivity. }
  rewrite Hbrk, exec_bind, exec_watermark_check.
  change (set_fifo _ (set_fifo _ s)) with s1.
  rewrite !exec_bind_gets. fold interrupt.
  rewrite exec_when. unfold IsOnThread.
  change (s_interrupt_set s1) with (s_interrupt_set s).
  change (s_interrupt_waiting s1) with (s_interrupt_waiting s).
  destruct (negb (Bool.eqb interrupt (s_interrupt_set s))
            && negb (s_interrupt_waiting s)); [ | reflexivity ].
  rewrite exec_if. destruct (bCPUThread cfg); [ | reflexivity ].
  subst interrupt. rewrite interrupt_guard. cp_exec.
  unfold UpdateInterruptsFromVideoBackend. rewrite exec_when.
  destruct (UseDeterministicGPUThread cfg); reflexivity.
Qed.

Lemma SetCPStatusFromCPU_frame cfg s :
  let s' := exec (SetCPStatusFromCPU cfg) s in
  fifo s' = flags_from_CPU (fifo s)
  /\ s_cp_ctrl_reg s' = s_cp_ctrl_reg s
  /\ Fifo_CPUBase s' = Fifo_CPUBase s
  /\ Fifo_CPUEnd s' = Fifo_CPUEnd s
  /\ Fifo_CPUWritePointer s' = Fifo_CPUWritePointer s
  /\ pending_events s' = pending_events s
  /\ s_interrupt_waiting s' = s_interrupt_waiting s.
Proof.
  cbv zeta. rewrite exec_SetCPStatusFromCPU.
  destruct (s_interrupt_waiting s) eqn:Hw.
  - rewrite andb_false_r. cbn. rewrite Hw. repeat split.
  - rewrite exec_UpdateInterrupts.
    destruct (negb _ && negb false); [ destruct (bCPUThread cfg) | ];
      cbn; rewrite ?Hw; repeat split.
Qed.


(** ** Frame reasoning

    Preservation of an observation follows the structure of the
    computation. *)

Lemma preserves_ret {A B} (obs : CPState -> A) (b : B) : preserves obs (ret b).
Proof. intros s. reflexivity. Qed.

Lemma preserves_gets {A B} (obs : CPState -> A) (proj : CPState -> B) :
  preserves obs (gets proj).
Proof. intros s. reflexivity. Qed.

Lemma preserves_bind {A B C} (obs : CPState -> A) (m : M B) (k : B -> M C) :
  preserves obs m -> (forall b, preserves obs (k b)) -> preserves obs (bind m k).
Proof.
  intros Hm Hk s. rewrite exec_bind, Hk, Hm. reflexivity.
Qed.

Lemma preserves_when {A} (obs : CPState -> A) c m :
  preserves obs m -> preserves obs (when c m).
Proof. intros Hm. destruct c; [ exact Hm | apply preserves_ret ]. Qed.

Lemma preserves_modify {A} (obs : CPState -> A) upd :
  (forall s, obs (upd s) = obs s) -> preserves obs (modify upd).
Proof. intros H s. apply H. Qed.

Lemma preserves_apply {A B} (obs : CPState -> A) (m : M B) s :
  preserves obs m -> obs (exec m s) = obs s.
Proof. intros H. apply H. Qed.

Ltac frame_step :=
  match goal with
  | |- preserves _ (bind _ _) => apply preserves_bind; [ | intro ]
  | |- preserves _ (ret _) => apply preserves_ret
  | |- preserves _ (gets _) => apply preserves_gets
  | |- preserves _ (when _ _) => apply preserves_when
  | |- preserves _ (ASSERT_MSG _ _) => apply preserves_when
  | |- preserves _ (if ?c then _ else _) => destruct c
  | |- preserves _ (modify _) => apply preserves_modify; intro; reflexivity
  | |- preserves _ (fifo_assign _) => apply preserves_modify; intro; reflexivity
  | |- preserves _ (call _) => apply preserves_modify; intro; reflexivity
  end.

Ltac frame := repeat frame_step.

(** ** The burst commit *)

Lemma u32_of_range x : is_u32 (u32_of x).
Proof. unfold is_u32, u32_of. apply Z.mod_pos_bound. lia. Qed.

Lemma add32_no_wrap a b : 0 <= a + b < 2 ^ 32 -> add32 a b = a + b.
Proof. intros H. unfold add32, u32_of. apply Z.mod_small. exact H. Qed.

(** The descriptor after a commit in linked mode. *)
Lemma GatherPipeBursted_linked_fifo cfg s :
  UCPCtrlReg.GPLinkEnable (s_cp_ctrl_reg s) = true ->
  let f := flags_from_CPU (fifo s) in
  fifo (exec (GatherPipeBursted cfg) s) =
  set_CPReadWriteDistance (add32 (CPReadWriteDistance f) GATHER_PIPE_SIZE)
    (set_CPWritePointer
       (if CPWritePointer f =? CPEnd f then CPBase f
        else add32 (CPWritePointer f) GATHER_PIPE_SIZE) f).
Proof.
  intros Hlink f.
  destruct (SetCPStatusFromCPU_frame cfg s) as (Hf & Hctrl & _).
  unfold GatherPipeBursted. rewrite exec_bind, exec_bind_gets.
  rewrite Hctrl, Hlink. cbn [negb]. subst f. rewrite <- Hf.
  generalize (exec (SetCPStatusFromCPU cfg) s) as s1. intros s1.
  repeat first [ rewrite (preserves_apply fifo) by frame | cp_step ];
    reflexivity.
Qed.

(** What a commit never touches, whatever the mode. *)
Lemma GatherPipeBursted_frame cfg s :
  let s' := exec (GatherPipeBursted cfg) s in
  s_cp_ctrl_reg s' = s_cp_ctrl_reg s
  /\ CPBase (fifo s') = CPBase (fifo s)
  /\ CPEnd (fifo s') = CPEnd (fifo s)
  /\ pending_events s' = pending_events s
  /\ s_interrupt_waiting s' = s_interrupt_waiting s.
Proof.
  destruct (SetCPStatusFromCPU_frame cfg s) as (Hf & Hctrl & _ & _ & _ & Hev & Hw).
  unfold GatherPipeBursted. cbv zeta. rewrite exec_bind, exec_bind_gets.
  set (s1 := exec (SetCPStatusFromCPU cfg) s) in *.
  assert (Hb : CPBase (fifo s1) = CPBase (fifo s)) by (rewrite Hf; reflexivity).
  assert (He : CPEnd (fifo s1) = CPEnd (fifo s)) by (rewrite Hf; reflexivity).
  set (ctrl := s_cp_ctrl_reg s1). clearbody ctrl.
  rewrite <- Hctrl, <- Hb, <- He, <- Hev, <- Hw. clearbody s1.
  repeat split.
  - apply (preserves_apply s_cp_ctrl_reg). frame.
  - apply (preserves_apply (fun x => CPBase (fifo x))). frame.
  - apply (preserves_apply (fun x => CPEnd (fifo x))). frame.
  - apply (preserves_apply pending_events). frame.
  - apply (preserves_apply s_interrupt_waiting). frame.
Qed.

(** C1.  A commit issued while the control register has [GPLinkEnable] set
    advances the write pointer circularly: it becomes [CPBase] when it
    equalled [CPEnd] before the commit, and otherwise the old pointer plus
    the burst size of 32, the sum being the [u32] sum of the source (it is the
    plain sum whenever that fits 32 bits).  The same commit adds 32 to
    [CPReadWriteDistance], again as a [u32] sum. *)
Theorem GatherPipeBursted_linked_commit cfg s :
  UCPCtrlReg.GPLinkEnable (s_cp_ctrl_reg s) = true ->
  let f := fifo s in
  let f' := fifo (exec (GatherPipeBursted cfg) s) in
  CPWritePointer f' =
    (if CPWritePointer f =? CPEnd f then CPBase f
     else (CPWritePointer f + 32) mod 2 ^ 32)
  /\ CPReadWriteDistance f' = (CPReadWriteDistance f + 32) mod 2 ^ 32
  /\ (CPWritePointer f <> CPEnd f -> 0 <= CPWritePointer f + 32 < 2 ^ 32 ->
      CPWritePointer f' = CPWritePointer f + 32)
  /\ (0 <= CPReadWriteDistance f + 32 < 2 ^ 32 ->
      CPReadWriteDistance f' = CPReadWriteDistance f + 32).
Proof.
  intros Hlink f f'. subst f f'.
  rewrite (GatherPipeBursted_linked_fifo cfg s Hlink). cbn.
  unfold add32, u32_of, GATHER_PIPE_SIZE.
  repeat split.
  - intros Hne Hfit. apply Z.eqb_neq in Hne. rewrite Hne.
    apply Z.mod_small. exact Hfit.
  - intros Hfit. apply Z.mod_small. exact Hfit.
Qed.

(** C10.  A commit issued while [GPLinkEnable] is clear leaves the write
    pointer, the read pointer, the safe read pointer, the distance, base, end
    and breakpoint of the descriptor and the three mirrored
    [ProcessorInterface] registers as they were; of the descriptor only the
    two watermark flags are reassigned, and the last call the commit makes
    is the wake hint [Fifo::RunGpu]. *)
Theorem GatherPipeBursted_unlinked_frame cfg s :
  UCPCtrlReg.GPLinkEnable (s_cp_ctrl_reg s) = false ->
  let f := fifo s in
  let s' := exec (GatherPipeBursted cfg) s in
  CPWritePointer (fifo s') = CPWritePointer f
  /\ CPReadPointer (fifo s') = CPReadPointer f
  /\ SafeCPReadPointer (fifo s') = SafeCPReadPointer f
  /\ CPReadWriteDistance (fifo s') = CPReadWriteDistance f
  /\ CPBase (fifo s') = CPBase f
  /\ CPEnd (fifo s') = CPEnd f
  /\ CPBreakpoint (fifo s') = CPBreakpoint f
  /\ Fifo_CPUWritePointer s' = Fifo_CPUWritePointer s
  /\ Fifo_CPUBase s' = Fifo_CPUBase s
  /\ Fifo_CPUEnd s' = Fifo_CPUEnd s
  /\ fifo s' = flags_from_CPU f
  /\ exists earlier, calls s' = earlier ++ [Fifo_RunGpu].
Proof.
  intros Hlink f s'.
  destruct (SetCPStatusFromCPU_frame cfg s) as (Hf & Hctrl & Hb & He & Hwp & _).
  assert (Hs' : fifo s' = fifo (exec (SetCPStatusFromCPU cfg) s)
                /\ Fifo_CPUWritePointer s' = Fifo_CPUWritePointer s
                /\ Fifo_CPUBase s' = Fifo_CPUBase s
                /\ Fifo_CPUEnd s' = Fifo_CPUEnd s
                /\ exists earlier, calls s' = earlier ++ [Fifo_RunGpu]).
  { subst s'. unfold GatherPipeBursted. rewrite exec_bind, exec_bind_gets.
    rewrite Hctrl, Hlink. cbn [negb].
    rewrite <- Hb, <- He, <- Hwp.
    generalize (exec (SetCPStatusFromCPU cfg) s) as s1. intros s1.
    cp_exec; repeat split; eauto. }
  destruct Hs' as (Hfifo & Hpw & Hpb & Hpe & Hcalls).
  rewrite Hfifo, Hf. fold f. cbn. repeat split; auto.
Qed.

(** ** Watermark flags *)

Lemma flags_from_CPU_correct f : watermark_flags_correct (flags_from_CPU f).
Proof.
  unfold watermark_flags_correct, flags_from_CPU. cbn.
  destruct (Z.ltb_spec (CPHiWatermark f) (CPReadWriteDistance f));
    destruct (Z.ltb_spec (CPReadWriteDistance f) (CPLoWatermark f));
    repeat split; intros; try lia; try discriminate; try tauto.
Qed.

Lemma SetCPStatusFromGPU_frame cfg s :
  let s' := exec (SetCPStatusFromGPU cfg) s in
  fifo s' = flags_from_GPU (fifo s)
  /\ s_cp_ctrl_reg s' = s_cp_ctrl_reg s.
Proof.
  cbv zeta. rewrite exec_SetCPStatusFromGPU, exec_UpdateInterrupts.
  destruct (negb _ && negb _);
    [ destruct (bCPUThread cfg); [ destruct (UseDeterministicGPUThread cfg) | ] | ];
    split; reflexivity.
Qed.

(** C5.  After either flag recomputation ([SetCPStatusFromGPU] or
    [SetCPStatusFromCPU]) the high-watermark flag holds exactly when the
    distance exceeds the high watermark, the low-watermark flag holds exactly
    when the distance is below the low watermark, and both are clear exactly
    when the distance lies between the two watermarks, bounds included. *)
Theorem watermark_flags_after_recomputation cfg s :
  watermark_flags_correct (fifo (exec (SetCPStatusFromGPU cfg) s))
  /\ watermark_flags_correct (fifo (exec (SetCPStatusFromCPU cfg) s)).
Proof.
  split.
  - destruct (SetCPStatusFromGPU_frame cfg s) as (Hf & _). rewrite Hf.
    unfold flags_from_GPU. apply flags_from_CPU_correct.
  - destruct (SetCPStatusFromCPU_frame cfg s) as (Hf & _). rewrite Hf.
    apply flags_from_CPU_correct.
Qed.

(** ** Scenario A *)

Lemma commits_succ cfg n s :
  commits cfg (S n) s = exec (GatherPipeBursted cfg) (commits cfg n s).
Proof. reflexivity. Qed.

(** While the write pointer has not reached [CPEnd], [n] commits from the
    base of an empty ring put both the write pointer and the distance at
    [32 * n]. *)
Lemma commits_below_end cfg s (n : nat) :
  UCPCtrlReg.GPLinkEnable (s_cp_ctrl_reg s) = true ->
  CPBase (fifo s) = 0 ->
  0 <= CPEnd (fifo s) < 2 ^ 32 ->
  CPWritePointer (fifo s) = 0 ->
  CPReadWriteDistance (fifo s) = 0 ->
  32 * Z.of_nat n <= CPEnd (fifo s) ->
  let s' := commits cfg n s in
  s_cp_ctrl_reg s' = s_cp_ctrl_reg s
  /\ CPBase (fifo s') = 0
  /\ CPEnd (fifo s') = CPEnd (fifo s)
  /\ CPWritePointer (fifo s') = 32 * Z.of_nat n
  /\ CPReadWriteDistance (fifo s') = 32 * Z.of_nat n.
Proof.
  intros Hlink Hbase Hend Hwp Hdist. induction n as [ | n IH ]; intros Hn s'.
  - subst s'. cbn. auto.
  - subst s'. rewrite commits_succ.
    destruct IH as (Hc & Hb & He & Hw & Hd); [ clear - Hn; lia | ].
    remember (commits cfg n s) as sn eqn:Esn. clear Esn.
    destruct (GatherPipeBursted_frame cfg sn) as (Hc' & Hb' & He' & _).
    assert (Hl : UCPCtrlReg.GPLinkEnable (s_cp_ctrl_reg sn) = true)
      by (rewrite Hc; exact Hlink).
    pose proof (GatherPipeBursted_linked_fifo cfg sn Hl) as Hf. cbv zeta in Hf.
    rewrite Hf. unfold flags_from_CPU. cp_fields.
    rewrite Hc in Hc'. rewrite Hb in Hb'. rewrite He in He'.
    rewrite Hw, Hd, He.
    assert (Hne : (32 * Z.of_nat n =? CPEnd (fifo s)) = false)
      by (apply Z.eqb_neq; clear - Hn; lia).
    rewrite Hne. unfold GATHER_PIPE_SIZE.
    rewrite !add32_no_wrap by (clear - Hn Hend; lia).
    rewrite Nat2Z.inj_succ. unfold Z.succ.
    split; [ exact Hc' | ]. split; [ exact Hb | ].
    repeat split; ring.
Qed.

(** The commit that finds the write pointer at [CPEnd] moves it to the base. *)
Lemma GatherPipeBursted_at_end cfg s :
  UCPCtrlReg.GPLinkEnable (s_cp_ctrl_reg s) = true ->
  CPWritePointer (fifo s) = CPEnd (fifo s) ->
  CPWritePointer (fifo (exec (GatherPipeBursted cfg) s)) = CPBase (fifo s)
  /\ CPReadWriteDistance (fifo (exec (GatherPipeBursted cfg) s)) =
     add32 (CPReadWriteDistance (fifo s)) GATHER_PIPE_SIZE.
Proof.
  intros Hlink Hwp.
  pose proof (GatherPipeBursted_linked_fifo cfg s Hlink) as Hf. cbv zeta in Hf.
  rewrite Hf. unfold flags_from_CPU. cp_fields.
  rewrite Hwp, Z.eqb_refl. split; reflexivity.
Qed.

(** C9 (as the code has it).  With base 0, end 0x1000, the FIFO linked, the
    write pointer and the distance at 0, 128 commits with no consumption
    leave the distance at 0x1000 and the write pointer at 0x1000, which is
    [CPEnd]: the pointer is moved back to the base by the commit that finds
    it equal to [CPEnd], the 129th, after which the distance is 0x1020. *)
Theorem scenario_A_128_commits cfg s :
  CPBase (fifo s) = 0 ->
  CPEnd (fifo s) = 0x1000 ->
  UCPCtrlReg.GPLinkEnable (s_cp_ctrl_reg s) = true ->
  CPWritePointer (fifo s) = 0 ->
  CPReadWriteDistance (fifo s) = 0 ->
  (CPWritePointer (fifo (commits cfg 128 s)) = 0x1000
   /\ CPReadWriteDistance (fifo (commits cfg 128 s)) = 0x1000)
  /\ (CPWritePointer (fifo (commits cfg 129 s)) = 0
      /\ CPReadWriteDistance (fifo (commits cfg 129 s)) = 0x1020).
Proof.
  intros Hbase Hend Hlink Hwp Hdist.
  assert (Hn : 32 * Z.of_nat 128 <= CPEnd (fifo s)) by (rewrite Hend; discriminate).
  assert (Hr : 0 <= CPEnd (fifo s) < 2 ^ 32)
    by (rewrite Hend; split; [ discriminate | reflexivity ]).
  pose proof (commits_below_end cfg s 128 Hlink Hbase Hr Hwp Hdist Hn) as H128.
  cbv zeta in H128. destruct H128 as (Hc & Hb & He & Hw & Hd).
  change (32 * Z.of_nat 128) with 0x1000 in Hw, Hd.
  split; [ split; assumption | ].
  rewrite <- Hc in Hlink. rewrite <- Hend, <- He in Hw.
  destruct (GatherPipeBursted_at_end cfg _ Hlink Hw) as (Hw' & Hd').
  rewrite commits_succ, Hw', Hd', Hb, Hd. split; reflexivity.
Qed.

Lemma scenario_A_128_commits_witness :
  CPWritePointer (fifo (commits single_core 128 scenario_A_start))
  = 0x1000
  /\ CPReadWriteDistance
       (fifo (commits single_core 128 scenario_A_start)) = 0x1000.
Proof.
  apply (scenario_A_128_commits single_core scenario_A_start);
    reflexivity.
Defined.

(** C9 as stated fails: after the 128 commits of scenario A the write
    pointer is not 0. *)
Lemma scenario_A_write_pointer_not_wrapped :
  let s' := commits single_core 128 scenario_A_start in
  ~ (CPWritePointer (fifo s') = 0 /\ CPReadWriteDistance (fifo s') = 0x1000).
Proof.
  intros s' [Hwp _]. vm_compute in Hwp. discriminate Hwp.
Qed.

Lemma GatherPipeBursted_linked_commit_witness :
  let s := scenario_A_start in
  CPWritePointer (fifo (exec (GatherPipeBursted single_core) s)) = 32
  /\ CPReadWriteDistance (fifo (exec (GatherPipeBursted single_core) s)) = 32.
Proof.
  destruct (GatherPipeBursted_linked_commit single_core
              scenario_A_start) as (Hwp & Hd & _).
  - reflexivity.
  - split; [ rewrite Hwp | rewrite Hd ]; reflexivity.
Defined.

Lemma GatherPipeBursted_unlinked_frame_witness :
  let s := booted in
  CPWritePointer (fifo (exec (GatherPipeBursted dual_core) s)) = 0
  /\ CPReadWriteDistance (fifo (exec (GatherPipeBursted dual_core) s)) = 0.
Proof.
  destruct (GatherPipeBursted_unlinked_frame dual_core booted)
    as (Hwp & _ & _ & Hd & _).
  - reflexivity.
  - split; [ rewrite Hwp | rewrite Hd ]; reflexivity.
Defined.

(** ** The register window *)

Lemma land_0xFFFF x : Z.land x 0xFFFF = x mod 2 ^ 16.
Proof. change 0xFFFF with (Z.ones 16). apply Z.land_ones. lia. Qed.

Lemma ReadLow_mod x : ReadLow x = x mod 2 ^ 16.
Proof.
  unfold ReadLow, u16_of. rewrite land_0xFFFF. apply Z.mod_mod. lia.
Qed.

Lemma ReadHigh_div x : is_u32 x -> ReadHigh x = x / 2 ^ 16.
Proof.
  intros [Hlo Hhi]. unfold ReadHigh, u16_of.
  rewrite Z.shiftr_div_pow2 by lia.
  apply Z.mod_small. split.
  - apply Z.div_pos; lia.
  - apply Z.div_lt_upper_bound; lia.
Qed.

(** The nested [u32] operations of the wrapped distance amount to one
    reduction of the plain expression. *)
Lemma wrapped_distance_u32 e srp wp b :
  add32 (sub32 (add32 (sub32 e srp) wp) b) 32 = (e - srp + wp - b + 32) mod 2 ^ 32.
Proof.
  unfold add32, sub32, u32_of.
  rewrite (Zplus_mod_idemp_l (e - srp) wp).
  rewrite (Zminus_mod_idemp_l (e - srp + wp) b).
  rewrite (Zplus_mod_idemp_l (e - srp + wp - b) 32).
  reflexivity.
Qed.

Lemma mmio_Read_FIFO_RW_DISTANCE_LO cfg :
  mmio_Read cfg FIFO_RW_DISTANCE_LO =
  run_read (if IsOnThread cfg
            then ComplexRead (dual_core_distance_lambda ReadLow)
            else DirectRead (LowPart fifo_CPReadWriteDistance)).
Proof. reflexivity. Qed.

Lemma mmio_Read_FIFO_RW_DISTANCE_HI cfg :
  mmio_Read cfg FIFO_RW_DISTANCE_HI =
  run_read (if IsOnThread cfg
            then ComplexRead (dual_core_distance_lambda ReadHigh)
            else DirectRead (HighPart fifo_CPReadWriteDistance)).
Proof. reflexivity. Qed.

Lemma dual_core_distance_lambda_eval half s :
  let f := fifo s in
  eval (dual_core_distance_lambda half) s =
  half (if SafeCPReadPointer f <=? CPWritePointer f
        then sub32 (CPWritePointer f) (SafeCPReadPointer f)
        else add32 (sub32 (add32 (sub32 (CPEnd f) (SafeCPReadPointer f))
                                 (CPWritePointer f)) (CPBase f)) 32)
  /\ exec (dual_core_distance_lambda half) s = s.
Proof.
  unfold dual_core_distance_lambda, eval, exec, bind, gets, ret. cbn [fst snd].
  destruct (SafeCPReadPointer (fifo s) <=? CPWritePointer (fifo s));
    split; reflexivity.
Qed.

(** C2.  The two halves read from the read-write-distance register are the
    low and the high 16 bits of one value.  In dual-core mode that value is
    [CPWritePointer - SafeCPReadPointer] when the write pointer is not behind
    the safe read pointer, and otherwise
    [(CPEnd - SafeCPReadPointer) + (CPWritePointer - CPBase) + 32], computed
    on [u32]; in single-core mode it is the stored [CPReadWriteDistance].
    Neither read changes the state. *)
Theorem FIFO_RW_DISTANCE_read cfg s :
  let f := fifo s in
  is_u32 (CPWritePointer f) ->
  is_u32 (SafeCPReadPointer f) ->
  is_u32 (CPReadWriteDistance f) ->
  let value :=
    if bCPUThread cfg
    then if SafeCPReadPointer f <=? CPWritePointer f
         then CPWritePointer f - SafeCPReadPointer f
         else ((CPEnd f - SafeCPReadPointer f) + (CPWritePointer f - CPBase f) + 32)
              mod 2 ^ 32
    else CPReadWriteDistance f in
  eval (mmio_Read cfg FIFO_RW_DISTANCE_LO) s = Some (value mod 2 ^ 16)
  /\ eval (mmio_Read cfg FIFO_RW_DISTANCE_HI) s = Some (value / 2 ^ 16)
  /\ exec (mmio_Read cfg FIFO_RW_DISTANCE_LO) s = s
  /\ exec (mmio_Read cfg FIFO_RW_DISTANCE_HI) s = s.
Proof.
  intros f Hwp Hsrp Hdist value.
  rewrite mmio_Read_FIFO_RW_DISTANCE_LO, mmio_Read_FIFO_RW_DISTANCE_HI.
  unfold IsOnThread. subst value. destruct (bCPUThread cfg).
  - destruct (dual_core_distance_lambda_eval ReadLow s) as (Hlo & Hslo).
    destruct (dual_core_distance_lambda_eval ReadHigh s) as (Hhi & Hshi).
    cbn [run_read]. unfold eval, exec, bind, ret in *. cbn [fst snd] in *.
    rewrite Hlo, Hhi, Hslo, Hshi. fold f.
    destruct (Z.leb_spec (SafeCPReadPointer f) (CPWritePointer f)) as [Hle | Hlt].
    + assert (Hsub : sub32 (CPWritePointer f) (SafeCPReadPointer f)
                     = CPWritePointer f - SafeCPReadPointer f).
      { unfold sub32, u32_of. apply Z.mod_small.
        unfold is_u32 in *. lia. }
      rewrite Hsub, ReadLow_mod, ReadHigh_div;
        [ repeat split | unfold is_u32 in *; lia ].
    + rewrite wrapped_distance_u32.
      replace (CPEnd f - SafeCPReadPointer f + (CPWritePointer f - CPBase f) + 32)
        with (CPEnd f - SafeCPReadPointer f + CPWritePointer f - CPBase f + 32)
        by ring.
      rewrite ReadLow_mod, ReadHigh_div by apply u32_of_range.
      repeat split.
  - cbn [run_read]. unfold eval, exec, bind, ret, gets. cbn [fst snd load16 get32].
    fold f. rewrite land_0xFFFF.
    rewrite land_0xFFFF, Z.shiftr_div_pow2 by lia.
    rewrite (Z.mod_small (CPReadWriteDistance f / 2 ^ 16)).
    + repeat split.
    + unfold is_u32 in Hdist. split.
      * apply Z.div_pos; lia.
      * apply Z.div_lt_upper_bound; lia.
Qed.

Lemma FIFO_RW_DISTANCE_read_witness :
  eval (mmio_Read dual_core FIFO_RW_DISTANCE_LO) write_pointer_behind
  = Some 0x1000
  /\ eval (mmio_Read dual_core FIFO_RW_DISTANCE_HI) write_pointer_behind
     = Some 0.
Proof.
  destruct (FIFO_RW_DISTANCE_read dual_core write_pointer_behind)
    as (Hlo & Hhi & _).
  - split; [ discriminate | reflexivity ].
  - split; [ discriminate | reflexivity ].
  - split; [ discriminate | reflexivity ].
  - split; [ exact Hlo | exact Hhi ].
Defined.

(** ** Write masks *)

Lemma WMASK_HI_RESTRICT_value cfg :
  WMASK_HI_RESTRICT cfg = if bWii cfg then 0x1fff else 0x03ff.
Proof.
  unfold WMASK_HI_RESTRICT, GetPhysicalAddressMask.
  destruct (bWii cfg); reflexivity.
Qed.

(** The low half of a field whose low half was just stored. *)
Lemma low_after_store old v :
  is_u16 v ->
  Z.land (Z.lor (Z.land old 0xFFFF0000) (Z.land v 0xFFFF)) 0xFFFF = v.
Proof.
  intros Hv. rewrite Z.land_lor_distr_l, <- Z.land_assoc.
  change (Z.land 0xFFFF0000 0xFFFF) with 0.
  rewrite Z.land_0_r, Z.lor_0_l, <- Z.land_assoc, Z.land_diag, land_0xFFFF.
  apply Z.mod_small. exact Hv.
Qed.

(** The high half of a field whose high half was just stored. *)
Lemma high_after_store old v :
  is_u16 v ->
  Z.land (Z.shiftr (Z.lor (Z.land old 0x0000FFFF) (Z.shiftl v 16)) 16) 0xFFFF = v.
Proof.
  intros Hv. rewrite Z.shiftr_lor, Z.shiftr_land.
  change (Z.shiftr 0x0000FFFF 16) with 0.
  rewrite Z.land_0_r, Z.lor_0_l, Z.shiftr_shiftl_l by lia.
  change (16 - 16) with 0. rewrite Z.shiftl_0_r, land_0xFFFF.
  apply Z.mod_small. exact Hv.
Qed.

Lemma get32_set32 x v f : get32 x (set32 x v f) = v.
Proof. destruct x; reflexivity. Qed.

(** A direct write to the low half of a field followed by a direct read. *)
Lemma DirectWrite_LowPart_read_back x mask val s :
  is_u16 (Z.land val mask) ->
  eval (run_read (DirectRead (LowPart x)))
    (exec (run_write (DirectWrite (LowPart x) mask) val) s)
  = Some (Z.land val mask).
Proof.
  intros Hv. cbn [run_read run_write]. unfold eval, exec, bind, gets, ret, modify.
  cbn [fst snd load16 store16 fifo set_fifo]. rewrite get32_set32.
  rewrite low_after_store by exact Hv. reflexivity.
Qed.

Lemma DirectWrite_HighPart_read_back x mask val s :
  is_u16 (Z.land val mask) ->
  eval (run_read (DirectRead (HighPart x)))
    (exec (run_write (DirectWrite (HighPart x) mask) val) s)
  = Some (Z.land val mask).
Proof.
  intros Hv. cbn [run_read run_write]. unfold eval, exec, bind, gets, ret, modify.
  cbn [fst snd load16 store16 fifo set_fifo]. rewrite get32_set32.
  assert (Hm : Z.land (Z.land val mask) 0xFFFF = Z.land val mask).
  { rewrite land_0xFFFF. apply Z.mod_small. exact Hv. }
  rewrite Hm, high_after_store by exact Hv. reflexivity.
Qed.

Lemma is_u16_0xffe0 : is_u16 (Z.land 0xFFFF WMASK_LO_ALIGN_32BIT).
Proof. split; [ discriminate | reflexivity ]. Qed.

Lemma is_u16_hi_mask cfg : is_u16 (Z.land 0xFFFF (WMASK_HI_RESTRICT cfg)).
Proof.
  rewrite WMASK_HI_RESTRICT_value.
  destruct (bWii cfg); (split; [ discriminate | reflexivity ]).
Qed.

Lemma land_0xFFFF_hi_mask cfg :
  Z.land 0xFFFF (WMASK_HI_RESTRICT cfg) = if bWii cfg then 0x1FFF else 0x03FF.
Proof. rewrite WMASK_HI_RESTRICT_value. destruct (bWii cfg); reflexivity. Qed.

(** The breakpoint register is written through [WriteLow] and [WriteHigh]. *)
Lemma FIFO_BP_LO_read_back cfg s :
  read_back cfg FIFO_BP_LO 0xFFFF s = Some 0xFFE0.
Proof.
  unfold read_back.
  change (mmio_Read cfg FIFO_BP_LO)
    with (run_read (DirectRead (LowPart fifo_CPBreakpoint))).
  change (mmio_Write cfg FIFO_BP_LO 0xFFFF)
    with (fifo_assign (fun f =>
            set_CPBreakpoint
              (WriteLow (CPBreakpoint f) (Z.land 0xFFFF WMASK_LO_ALIGN_32BIT)) f)).
  cbn [run_read]. unfold eval, exec, bind, gets, ret, fifo_assign, modify, WriteLow.
  cbn [fst snd load16 get32 fifo set_fifo CPBreakpoint set_CPBreakpoint].
  change (Z.land 0xFFFF WMASK_LO_ALIGN_32BIT) with (Z.land 0xFFE0 0xFFFF).
  rewrite low_after_store; [ reflexivity | split; [ discriminate | reflexivity ] ].
Qed.

Lemma FIFO_BP_HI_read_back cfg s :
  read_back cfg FIFO_BP_HI 0xFFFF s = Some (if bWii cfg then 0x1FFF else 0x03FF).
Proof.
  unfold read_back.
  change (mmio_Read cfg FIFO_BP_HI)
    with (run_read (DirectRead (HighPart fifo_CPBreakpoint))).
  change (mmio_Write cfg FIFO_BP_HI 0xFFFF)
    with (fifo_assign (fun f =>
            set_CPBreakpoint
              (WriteHigh (CPBreakpoint f) (Z.land 0xFFFF (WMASK_HI_RESTRICT cfg))) f)).
  cbn [run_read]. unfold eval, exec, bind, gets, ret, fifo_assign, modify, WriteHigh.
  cbn [fst snd load16 get32 fifo set_fifo CPBreakpoint set_CPBreakpoint].
  rewrite land_0xFFFF_hi_mask.
  destruct (bWii cfg).
  - change (u32_of (Z.shiftl 0x1FFF 16)) with (Z.shiftl 0x1FFF 16).
    rewrite high_after_store; [ reflexivity | split; [ discriminate | reflexivity ] ].
  - change (u32_of (Z.shiftl 0x03FF 16)) with (Z.shiftl 0x03FF 16).
    rewrite high_after_store; [ reflexivity | split; [ discriminate | reflexivity ] ].
Qed.

(** A half-register registered with [DirectRead] and [DirectWrite] on the same
    target reads back what the mask lets through. *)
Lemma direct_lo_read_back cfg addr s :
  (exists x, handlers_of (RegisterMMIO cfg) addr =
             Some (DirectRead (LowPart x),
                   DirectWrite (LowPart x) WMASK_LO_ALIGN_32BIT)) ->
  read_back cfg addr 0xFFFF s = Some 0xFFE0.
Proof.
  intros [x Hx]. unfold read_back, mmio_Read, mmio_Write. rewrite Hx.
  exact (DirectWrite_LowPart_read_back x _ _ s is_u16_0xffe0).
Qed.

Lemma direct_hi_read_back cfg addr s :
  (exists x, handlers_of (RegisterMMIO cfg) addr =
             Some (DirectRead (HighPart x),
                   DirectWrite (HighPart x) (WMASK_HI_RESTRICT cfg))) ->
  read_back cfg addr 0xFFFF s = Some (if bWii cfg then 0x1FFF else 0x03FF).
Proof.
  intros [x Hx]. unfold read_back, mmio_Read, mmio_Write. rewrite Hx.
  rewrite <- land_0xFFFF_hi_mask.
  exact (DirectWrite_HighPart_read_back x _ _ s (is_u16_hi_mask cfg)).
Qed.

(** C8.  For the low and the high half-register of base, end, high
    watermark, low watermark, breakpoint and write pointer: writing 0xFFFF
    and reading the half back returns 0xFFE0 for a low half and, for a high
    half, 0x03FF on GameCube and 0x1FFF on Wii; the returned value is the
    mask itself, so every bit outside the mask reads as zero. *)
Theorem write_mask_fidelity cfg s :
  Forall (fun addr => read_back cfg addr 0xFFFF s = Some 0xFFE0)
    lo_half_registers
  /\ Forall (fun addr =>
               read_back cfg addr 0xFFFF s
               = Some (if bWii cfg then 0x1FFF else 0x03FF))
       hi_half_registers.
Proof.
  split.
  - unfold lo_half_registers.
    apply Forall_cons; [ apply direct_lo_read_back; eexists; reflexivity | ].
    apply Forall_cons; [ apply direct_lo_read_back; eexists; reflexivity | ].
    apply Forall_cons; [ apply direct_lo_read_back; eexists; reflexivity | ].
    apply Forall_cons; [ apply direct_lo_read_back; eexists; reflexivity | ].
    apply Forall_cons; [ apply FIFO_BP_LO_read_back | ].
    apply Forall_cons; [ apply direct_lo_read_back; eexists; reflexivity | ].
    apply Forall_nil.
  - unfold hi_half_registers.
    apply Forall_cons; [ apply direct_hi_read_back; eexists; reflexivity | ].
    apply Forall_cons; [ apply direct_hi_read_back; eexists; reflexivity | ].
    apply Forall_cons; [ apply direct_hi_read_back; eexists; reflexivity | ].
    apply Forall_cons; [ apply direct_hi_read_back; eexists; reflexivity | ].
    apply Forall_cons; [ apply FIFO_BP_HI_read_back | ].
    apply Forall_cons; [ apply direct_hi_read_back; eexists; reflexivity | ].
    apply Forall_nil.
Qed.

(** ** The interrupt engine: transitions *)

Lemma interrupt_of_desired_line s : interrupt_of s = desired_line s.
Proof. reflexivity. Qed.

Lemma userdata_of_nonzero b : negb (userdata_of b =? 0) = b.
Proof. destruct b; reflexivity. Qed.

Lemma exec_CoreTiming_run_next s :
  exec CoreTiming_run_next s =
  match pending_events s with
  | [] => s
  | userdata :: rest =>
      exec (UpdateInterrupts userdata) (set_pending_events rest s)
  end.
Proof.
  unfold CoreTiming_run_next. rewrite exec_bind_gets.
  destruct (pending_events s); reflexivity.
Qed.

(** Draining a queue of one task runs that task. *)
Lemma exec_CoreTiming_drain_one s userdata :
  pending_events s = [userdata] ->
  exec CoreTiming_drain s = exec (UpdateInterrupts userdata) (set_pending_events [] s).
Proof.
  intros Hev. unfold CoreTiming_drain. rewrite exec_bind_gets, Hev.
  cbn [fold_right]. rewrite exec_bind, exec_ret, exec_CoreTiming_run_next, Hev.
  reflexivity.
Qed.

Lemma exec_CoreTiming_drain_none s :
  pending_events s = [] -> exec CoreTiming_drain s = s.
Proof.
  intros Hev. unfold CoreTiming_drain. rewrite exec_bind_gets, Hev. reflexivity.
Qed.

Lemma eqb_false_neq (a b : bool) : a <> b -> negb (Bool.eqb a b) = true.
Proof. destruct a, b; intros H; try reflexivity; contradiction H; reflexivity. Qed.

(** C7 (as the code has it).  In dual-core mode, with no dispatch pending,
    every change of the desired line that [SetCPStatusFromGPU] finds is
    handed to the scheduler, a de-assert with no source active as much as
    an assert: the pending flag is set, the line itself is left alone, and
    one task carrying the desired value is submitted (none when the GPU
    thread is deterministic).  When the desired line equals the asserted
    one nothing is submitted.  [SetCPStatusFromCPU] applies the same change
    directly and submits nothing. *)
Theorem dual_core_transitions cfg s :
  bCPUThread cfg = true ->
  s_interrupt_waiting s = false ->
  let sg := exec (SetCPStatusFromGPU cfg) s in
  let sc := exec (SetCPStatusFromCPU cfg) s in
  let want_g := desired_line (set_fifo (flags_from_GPU (fifo s)) s) in
  let want_c := desired_line (set_fifo (flags_from_CPU (fifo s)) s) in
  (want_g <> s_interrupt_set s ->
     s_interrupt_waiting sg = true
     /\ s_interrupt_set sg = s_interrupt_set s
     /\ pending_events sg =
        pending_events s ++
        (if UseDeterministicGPUThread cfg then [] else [userdata_of want_g])
     /\ calls sg = calls s)
  /\ (want_g = s_interrupt_set s -> irq_state sg = irq_state s)
  /\ (want_c <> s_interrupt_set s ->
        s_interrupt_set sc = want_c
        /\ s_interrupt_waiting sc = false
        /\ pending_events sc = pending_events s
        /\ calls sc = calls s ++ [ProcessorInterface_SetInterrupt_INT_CAUSE_CP want_c]).
Proof.
  intros Hdual Hw sg sc want_g want_c.
  assert (Hsg : sg =
    if negb (Bool.eqb want_g (s_interrupt_set s))
    then if UseDeterministicGPUThread cfg
         then set_s_interrupt_waiting true (set_fifo (flags_from_GPU (fifo s)) s)
         else set_pending_events (pending_events s ++ [userdata_of want_g])
                (set_s_interrupt_waiting true
                   (set_fifo (flags_from_GPU (fifo s)) s))
    else set_fifo (flags_from_GPU (fifo s)) s).
  { subst sg. rewrite exec_SetCPStatusFromGPU. cbv zeta.
    rewrite interrupt_of_desired_line. fold want_g.
    rewrite Hdual, Hw. cbn [negb]. rewrite andb_true_r. reflexivity. }
  assert (Hsc : sc =
    if negb (Bool.eqb want_c (s_interrupt_set s))
    then set_calls (calls s ++ [ProcessorInterface_SetInterrupt_INT_CAUSE_CP want_c])
           (set_s_interrupt_set want_c (set_fifo (flags_from_CPU (fifo s)) s))
    else set_fifo (flags_from_CPU (fifo s)) s).
  { subst sc. rewrite exec_SetCPStatusFromCPU. cbv zeta.
    rewrite interrupt_of_desired_line. fold want_c.
    rewrite Hdual, Hw. cbn [negb]. rewrite andb_true_r. reflexivity. }
  clearbody sg sc want_g want_c. split; [ | split ].
  - intros Hne. apply eqb_false_neq in Hne. rewrite Hne in Hsg. subst sg.
    destruct (UseDeterministicGPUThread cfg); cbn; rewrite ?app_nil_r; auto.
  - intros Heq. rewrite Heq, Bool.eqb_reflx in Hsg. subst sg. reflexivity.
  - intros Hne. apply eqb_false_neq in Hne. rewrite Hne in Hsc. subst sc.
    cbn. auto.
Qed.

Lemma dual_core_transitions_witness :
  pending_events (exec (SetCPStatusFromGPU dual_core) (asserted_without_alarm dual_core))
  = [0].
Proof.
  destruct (dual_core_transitions dual_core (asserted_without_alarm dual_core))
    as (Hg & _).
  - reflexivity.
  - reflexivity.
  - destruct Hg as (_ & _ & Hev & _).
    + vm_compute. discriminate.
    + rewrite Hev. reflexivity.
Defined.

(** C7 as stated fails: in dual-core mode, with the line asserted and no
    alarm left (no breakpoint, the distance between the watermarks), the
    de-assert is not held back: the recomputation submits a task carrying 0
    to the scheduler. *)
Lemma plain_deassert_is_deferred :
  let s := asserted_without_alarm dual_core in
  let s' := exec (SetCPStatusFromGPU dual_core) s in
  s_interrupt_set s = true
  /\ s_interrupt_waiting s = false
  /\ pending_events s = []
  /\ bFF_Breakpoint (fifo s') = false
  /\ bFF_HiWatermark (fifo s') = false
  /\ bFF_LoWatermark (fifo s') = false
  /\ ~ (pending_events s' = pending_events s)
  /\ pending_events s' = [0].
Proof.
  vm_compute. repeat split; try reflexivity. discriminate.
Qed.

(** ** Register accesses and the interrupt state *)

Ltac mmio_handlers :=
  cbv [mmio_Write mmio_Read handlers_of RegisterMMIO fold_left Register app
       Reg_beq directly_mapped_vars metrics_mmios mv_addr mv_ptr mv_readonly
       mv_wmask mm_addr mm_value run_write run_read IsOnThread
       SetCpControlRegister SetCpClearRegister SetCpStatusRegister
       Fifo_AtBreakpoint dual_core_distance_lambda].

(** No register write touches the asserted line, the pending flag or the
    scheduler. *)
Lemma mmio_Write_irq_state cfg addr val :
  preserves irq_state (mmio_Write cfg addr val).
Proof.
  destruct addr; mmio_handlers; destruct (bCPUThread cfg); frame.
Qed.

Lemma mmio_Read_irq_state cfg addr :
  preserves irq_state (mmio_Read cfg addr).
Proof.
  destruct addr; mmio_handlers; destruct (bCPUThread cfg); frame.
Qed.

Lemma irq_state_eq s s' :
  irq_state s' = irq_state s ->
  s_interrupt_set s' = s_interrupt_set s
  /\ s_interrupt_waiting s' = s_interrupt_waiting s
  /\ pending_events s' = pending_events s.
Proof. unfold irq_state. intros H. inversion H. auto. Qed.

(** A commit leaves the asserted line equal to the line [SetCPStatusFromCPU]
    leaves, and the flags and the control word it was computed from. *)
Lemma GatherPipeBursted_line cfg s :
  let s1 := exec (SetCPStatusFromCPU cfg) s in
  let s' := exec (GatherPipeBursted cfg) s in
  s_interrupt_set s' = s_interrupt_set s1 /\ desired_line s' = desired_line s1.
Proof.
  intros s1 s'.
  assert (H : (fun x => (s_interrupt_set x, desired_line x)) s'
              = (fun x => (s_interrupt_set x, desired_line x)) s1).
  { subst s' s1. unfold GatherPipeBursted. rewrite exec_bind, exec_bind_gets.
    generalize (s_cp_ctrl_reg (exec (SetCPStatusFromCPU cfg) s)) as ctrl.
    generalize (exec (SetCPStatusFromCPU cfg) s) as s1. intros s1 ctrl.
    apply (preserves_apply (fun x => (s_interrupt_set x, desired_line x))).
    frame. }
  cbv beta in H. inversion H. auto.
Qed.

(** ** The settled interrupt line *)

Lemma UpdateInterrupts_line userdata s :
  let s' := exec (UpdateInterrupts userdata) s in
  s_interrupt_set s' = negb (userdata =? 0)
  /\ s_interrupt_waiting s' = false
  /\ pending_events s' = pending_events s
  /\ desired_line s' = desired_line s.
Proof. cbv zeta. rewrite exec_UpdateInterrupts. repeat split. Qed.

(** What a recomputation leaves when nothing was pending: either the line
    already agrees with the desired one, or (consumer side, dual core) the
    change is pending. *)
Lemma recompute_outcome cfg r s :
  s_interrupt_waiting s = false ->
  pending_events s = [] ->
  let s1 := exec (recompute cfg r) s in
  (s_interrupt_set s1 = desired_line s1
   /\ s_interrupt_waiting s1 = false /\ pending_events s1 = [])
  \/ (bCPUThread cfg = true /\ r = By_consumer
      /\ s_interrupt_waiting s1 = true
      /\ pending_events s1 =
         if UseDeterministicGPUThread cfg then []
         else [userdata_of (desired_line s1)]).
Proof.
  intros Hw Hev.
  assert (Hcpu : let s1 := exec (SetCPStatusFromCPU cfg) s in
                 s_interrupt_set s1 = desired_line s1
                 /\ s_interrupt_waiting s1 = false /\ pending_events s1 = []).
  { cbv zeta. rewrite exec_SetCPStatusFromCPU. cbv zeta.
    rewrite interrupt_of_desired_line, Hw. cbn [negb]. rewrite andb_true_r.
    set (s1 := set_fifo (flags_from_CPU (fifo s)) s).
    destruct (Bool.eqb (desired_line s1) (s_interrupt_set s)) eqn:Heq; cbn [negb].
    - apply Bool.eqb_prop in Heq. repeat split; auto.
    - destruct (bCPUThread cfg).
      + repeat split; auto.
      + destruct (UpdateInterrupts_line (userdata_of (desired_line s1)) s1)
          as (Hs & Hw' & Hev' & Hd).
        rewrite Hs, Hw', Hev', Hd, userdata_of_nonzero. repeat split; auto. }
  destruct r; cbn [recompute]; cbv zeta.
  - rewrite exec_SetCPStatusFromGPU. cbv zeta.
    rewrite interrupt_of_desired_line, Hw. cbn [negb]. rewrite andb_true_r.
    set (s1 := set_fifo (flags_from_GPU (fifo s)) s).
    destruct (Bool.eqb (desired_line s1) (s_interrupt_set s)) eqn:Heq; cbn [negb].
    + apply Bool.eqb_prop in Heq. left. repeat split; auto.
    + destruct (bCPUThread cfg).
      * right. destruct (UseDeterministicGPUThread cfg); cbn;
          rewrite ?Hev; repeat split; reflexivity.
      * left.
        destruct (UpdateInterrupts_line (userdata_of (desired_line s1)) s1)
          as (Hs & Hw' & Hev' & Hd).
        rewrite Hs, Hw', Hev', Hd, userdata_of_nonzero. repeat split; auto.
  - left. exact Hcpu.
  - left. cbv zeta in Hcpu. destruct Hcpu as (Hs & Hw' & Hev').
    destruct (GatherPipeBursted_line cfg s) as (Hs' & Hd').
    destruct (GatherPipeBursted_frame cfg s) as (_ & _ & _ & Hev'' & Hw'').
    rewrite Hs', Hd', Hev'', Hw''.
    destruct (SetCPStatusFromCPU_frame cfg s) as (_ & _ & _ & _ & _ & He & Hww).
    repeat split; auto.
Qed.

(** C3 (as the code has it).  Take any setting of the three
    interrupt-enable bits and of the read-enable bit, with no dispatch
    pending.  After the status is recomputed (by the consumer, by the
    producer, or by a commit) and the scheduler has run what that left
    pending, a state with no dispatch pending has its interrupt line asserted
    exactly when a source is active and enabled and reads are enabled.  Such
    a state is reached unless the consumer recomputes in dual-core mode with
    a deterministic GPU thread, which sets the pending flag and submits no
    task. *)
Theorem interrupt_line_settled cfg r s :
  s_interrupt_waiting s = false ->
  pending_events s = [] ->
  let s' := exec (recompute cfg r ;; CoreTiming_drain) s in
  let f := fifo s' in
  (s_interrupt_waiting s' = false ->
   s_interrupt_set s' =
   ((bFF_Breakpoint f && bFF_BPInt f)
    || (bFF_HiWatermark f && bFF_HiWatermarkInt f)
    || (bFF_LoWatermark f && bFF_LoWatermarkInt f))
   && UCPCtrlReg.GPReadEnable (s_cp_ctrl_reg s'))
  /\ (bCPUThread cfg && UseDeterministicGPUThread cfg = false \/ r <> By_consumer ->
      s_interrupt_waiting s' = false /\ pending_events s' = []).
Proof.
  intros Hw Hev s' f.
  change (((bFF_Breakpoint f && bFF_BPInt f)
           || (bFF_HiWatermark f && bFF_HiWatermarkInt f)
           || (bFF_LoWatermark f && bFF_LoWatermarkInt f))
          && UCPCtrlReg.GPReadEnable (s_cp_ctrl_reg s'))
    with (desired_line s').
  clear f. subst s'. rewrite exec_bind.
  destruct (recompute_outcome cfg r s Hw Hev)
    as [(Hs & Hw1 & Hev1) | (Hdual & Hr & Hw1 & Hev1)];
    cbv zeta in *;
    set (s1 := exec (recompute cfg r) s) in *; clearbody s1.
  - rewrite (exec_CoreTiming_drain_none s1 Hev1). auto.
  - destruct (UseDeterministicGPUThread cfg).
    + rewrite (exec_CoreTiming_drain_none s1 Hev1). split.
      * intros Hn. rewrite Hw1 in Hn. discriminate Hn.
      * intros [Hdet | Hnr]; [ rewrite Hdual in Hdet; discriminate Hdet
                             | contradiction (Hnr Hr) ].
    + rewrite (exec_CoreTiming_drain_one s1 _ Hev1).
      destruct (UpdateInterrupts_line (userdata_of (desired_line s1))
                  (set_pending_events [] s1)) as (Hs & Hw' & Hev' & Hd).
      rewrite Hs, Hw', Hev', Hd, userdata_of_nonzero. auto.
Qed.

Lemma interrupt_line_settled_witness :
  let s' := exec (recompute dual_core By_consumer ;; CoreTiming_drain)
              (asserted_without_alarm dual_core) in
  s_interrupt_waiting s' = false /\ s_interrupt_set s' = false.
Proof.
  destruct (interrupt_line_settled dual_core By_consumer
              (asserted_without_alarm dual_core)) as (Hline & Hsettled).
  - reflexivity.
  - reflexivity.
  - split.
    + reflexivity.
    + rewrite Hline; reflexivity.
Defined.

(** C3 as stated fails.  A recomputation made while a dispatch is pending
    changes nothing, so the task that runs afterwards asserts a line that is
    no longer asked for: the state has no dispatch pending, no source is
    active, and the line is asserted. *)
Lemma settled_line_can_lag :
  let s := stale_dispatch_run dual_core in
  let f := fifo s in
  s_interrupt_waiting s = false
  /\ pending_events s = []
  /\ s_interrupt_set s = true
  /\ ~ (s_interrupt_set s =
        ((bFF_Breakpoint f && bFF_BPInt f)
         || (bFF_HiWatermark f && bFF_HiWatermarkInt f)
         || (bFF_LoWatermark f && bFF_LoWatermarkInt f))
        && UCPCtrlReg.GPReadEnable (s_cp_ctrl_reg s)).
Proof.
  vm_compute. repeat split; try reflexivity. discriminate.
Qed.

(** ** At most one pending dispatch *)

(** Every action but the scheduler's leaves a set pending flag set and the
    pending tasks as they are. *)
Lemma step_while_waiting cfg a s :
  a <> Scheduler_run ->
  s_interrupt_waiting s = true ->
  pending_events (exec (step cfg a) s) = pending_events s
  /\ s_interrupt_waiting (exec (step cfg a) s) = true.
Proof.
  intros Ha Hw. destruct a; cbn [step].
  - destruct (irq_state_eq _ _ (mmio_Write_irq_state cfg addr val s))
      as (_ & Hw' & Hev). rewrite Hw', Hev. auto.
  - rewrite exec_bind, exec_ret.
    destruct (irq_state_eq _ _ (mmio_Read_irq_state cfg addr s))
      as (_ & Hw' & Hev). rewrite Hw', Hev. auto.
  - destruct (GatherPipeBursted_frame cfg s) as (_ & _ & _ & Hev & Hw').
    rewrite Hw', Hev. auto.
  - rewrite exec_fifo_assign. auto.
  - rewrite exec_SetCPStatusFromGPU. cbv zeta. rewrite Hw. cbn [negb].
    rewrite andb_false_r. auto.
  - contradiction Ha. reflexivity.
Qed.

Lemma step_at_most_one_pending cfg a s :
  at_most_one_pending s -> at_most_one_pending (exec (step cfg a) s).
Proof.
  unfold at_most_one_pending. intros (Hlen & Hflag).
  assert (Hsame : forall s',
            pending_events s' = pending_events s ->
            s_interrupt_waiting s' = s_interrupt_waiting s ->
            (List.length (pending_events s') <= 1)%nat
            /\ (pending_events s' <> [] -> s_interrupt_waiting s' = true)).
  { intros s' Hev Hw. rewrite Hev, Hw. auto. }
  destruct a; cbn [step].
  - destruct (irq_state_eq _ _ (mmio_Write_irq_state cfg addr val s))
      as (_ & Hw & Hev). auto.
  - rewrite exec_bind, exec_ret.
    destruct (irq_state_eq _ _ (mmio_Read_irq_state cfg addr s))
      as (_ & Hw & Hev). auto.
  - destruct (GatherPipeBursted_frame cfg s) as (_ & _ & _ & Hev & Hw). auto.
  - rewrite exec_fifo_assign. apply Hsame; reflexivity.
  - rewrite exec_SetCPStatusFromGPU, exec_UpdateInterrupts. cbv zeta.
    destruct (s_interrupt_waiting s) eqn:Hw.
    + rewrite andb_false_r. apply Hsame; [ reflexivity | exact Hw ].
    + assert (Hev : pending_events s = []).
      { destruct (pending_events s) as [ | e l ]; [ reflexivity | ].
        assert (Ht : false = true) by (apply Hflag; discriminate).
        discriminate Ht. }
      destruct (negb _ && negb false);
        [ | apply Hsame; [ reflexivity | exact Hw ] ].
      destruct (bCPUThread cfg);
        [ destruct (UseDeterministicGPUThread cfg) | ]; cbn; rewrite ?Hev; cbn;
        split; auto; intros Hne; contradiction Hne; reflexivity.
  - rewrite exec_CoreTiming_run_next.
    destruct (pending_events s) as [ | e l ] eqn:Hev.
    + rewrite Hev. auto.
    + rewrite exec_UpdateInterrupts. cbn in *.
      destruct l as [ | e' l' ]; [ | cbn in Hlen; lia ].
      split; [ lia | intros Hne; contradiction Hne; reflexivity ].
Qed.

Lemma run_at_most_one_pending cfg acts s :
  at_most_one_pending s -> at_most_one_pending (exec (run cfg acts) s).
Proof.
  revert s. induction acts as [ | a acts IH ]; intros s Hs.
  - exact Hs.
  - cbn [run]. rewrite exec_bind. apply IH. apply step_at_most_one_pending.
    exact Hs.
Qed.

Lemma Init_pending_events s0 : pending_events (exec Init s0) = pending_events s0.
Proof. apply (preserves_apply pending_events). unfold Init. frame. Qed.

(** C4.  In every state reached from [Init] at most one deferred dispatch is
    pending, and one is pending only while [s_interrupt_waiting] is set.
    While the flag is set, no action other than the scheduler running the
    task changes the flag or what is pending: no register access, commit,
    consumer update or status recomputation submits a second task or clears
    the flag, however often the desired line changes in between. *)
Theorem at_most_one_pending_dispatch cfg s0 acts :
  pending_events s0 = [] ->
  let s := reached cfg s0 acts in
  at_most_one_pending s
  /\ (forall a,
        a <> Scheduler_run ->
        s_interrupt_waiting s = true ->
        pending_events (exec (step cfg a) s) = pending_events s
        /\ s_interrupt_waiting (exec (step cfg a) s) = true).
Proof.
  intros Hev s. split.
  - apply run_at_most_one_pending. unfold at_most_one_pending.
    rewrite Init_pending_events, Hev. split; [ cbn; lia | ].
    intros Hne. contradiction Hne. reflexivity.
  - intros a Ha Hw. apply step_while_waiting; assumption.
Qed.

Lemma at_most_one_pending_dispatch_witness :
  let s := reached dual_core power_on
             [ Producer_write CTRL_REGISTER ctrl_read_underflow_int;
               Producer_write FIFO_LO_WATERMARK_LO 0x20;
               Consumer_status ] in
  pending_events s = [1]
  /\ at_most_one_pending s
  /\ pending_events (exec (step dual_core Consumer_status) s) = pending_events s
  /\ pending_events (exec (step dual_core Producer_commit) s) = pending_events s.
Proof.
  destruct (at_most_one_pending_dispatch dual_core power_on
              [ Producer_write CTRL_REGISTER ctrl_read_underflow_int;
                Producer_write FIFO_LO_WATERMARK_LO 0x20;
                Consumer_status ]) as (Hinv & Hstep).
  - reflexivity.
  - split; [ reflexivity | ]. split; [ exact Hinv | ]. split.
    + apply Hstep; [ discriminate | reflexivity ].
    + apply Hstep; [ discriminate | reflexivity ].
Defined.

(** ** Register writes and the interrupt line *)

(** The control-register handler: the word is stored, the mode flags are
    copied from it, a flush is requested when reads go from enabled to
    disabled, and the consumer is woken. *)
Lemma exec_CTRL_REGISTER_write cfg val s :
  let f := fifo s in
  exec (mmio_Write cfg CTRL_REGISTER val) s =
  set_calls (calls s
             ++ (if bFF_GPReadEnable f && negb (UCPCtrlReg.GPReadEnable val)
                 then [Fifo_FlushGpu] else [])
             ++ [Fifo_RunGpu])
    (set_fifo
       (set_bFF_GPReadEnable (UCPCtrlReg.GPReadEnable val)
          (set_bFF_GPLinkEnable (UCPCtrlReg.GPLinkEnable val)
             (set_bFF_LoWatermarkInt (UCPCtrlReg.FifoUnderflowIntEnable val)
                (set_bFF_HiWatermarkInt (UCPCtrlReg.FifoOverflowIntEnable val)
                   (set_bFF_BPEnable (UCPCtrlReg.BPEnable val)
                      (set_bFF_BPInt (UCPCtrlReg.BPInt val) f))))))
       (set_s_cp_ctrl_reg val s)).
Proof.
  intros f. subst f.
  change (mmio_Write cfg CTRL_REGISTER val)
    with (modify (set_s_cp_ctrl_reg val) ;; SetCpControlRegister ;; call Fifo_RunGpu).
  unfold SetCpControlRegister.
  destruct s as [f ? ? ? ? ? ? ? ? ? ? ? ?]. destruct f.
  cbn [fifo bFF_GPReadEnable].
  destruct bFF_GPReadEnable0, (UCPCtrlReg.GPReadEnable val) eqn:Hre;
    cp_exec;
    try match goal with
        | H : _ && negb _ = _ |- _ => rewrite Hre in H; discriminate H
        end;
    rewrite ?Hre; cbn; rewrite <- ?app_assoc; reflexivity.
Qed.

Lemma SetCPStatusFromGPU_dual_core cfg s :
  bCPUThread cfg = true ->
  s_interrupt_waiting s = false ->
  let s1 := set_fifo (flags_from_GPU (fifo s)) s in
  exec (SetCPStatusFromGPU cfg) s =
  if negb (Bool.eqb (desired_line s1) (s_interrupt_set s))
  then if UseDeterministicGPUThread cfg
       then set_s_interrupt_waiting true s1
       else set_pending_events (pending_events s ++ [userdata_of (desired_line s1)])
              (set_s_interrupt_waiting true s1)
  else s1.
Proof.
  intros Hdual Hw s1. rewrite exec_SetCPStatusFromGPU. cbv zeta.
  rewrite interrupt_of_desired_line. fold s1.
  rewrite Hdual, Hw. cbn [negb]. rewrite andb_true_r. reflexivity.
Qed.

Lemma recompute_s_cp_ctrl_reg cfg r s :
  s_cp_ctrl_reg (exec (recompute cfg r) s) = s_cp_ctrl_reg s.
Proof.
  destruct r; cbn [recompute].
  - apply SetCPStatusFromGPU_frame.
  - apply SetCPStatusFromCPU_frame.
  - apply GatherPipeBursted_frame.
Qed.

Lemma desired_line_reads_disabled s :
  UCPCtrlReg.GPReadEnable (s_cp_ctrl_reg s) = false -> desired_line s = false.
Proof. intros H. unfold desired_line. rewrite H. apply andb_false_r. Qed.

(** Dual core, consumer side: lowering an asserted line once reads are
    disabled goes through the scheduler. *)
Lemma dual_core_consumer_deassert cfg s :
  bCPUThread cfg = true ->
  UCPCtrlReg.GPReadEnable (s_cp_ctrl_reg s) = false ->
  s_interrupt_set s = true ->
  s_interrupt_waiting s = false ->
  pending_events s = [] ->
  let s2 := exec (SetCPStatusFromGPU cfg) s in
  s_interrupt_set s2 = true
  /\ s_interrupt_waiting s2 = true
  /\ pending_events s2 = (if UseDeterministicGPUThread cfg then [] else [0])
  /\ (UseDeterministicGPUThread cfg = false ->
      let s3 := exec CoreTiming_drain s2 in
      s_interrupt_set s3 = false
      /\ s_interrupt_waiting s3 = false
      /\ pending_events s3 = []).
Proof.
  intros Hdual Hre Hset Hw Hev s2.
  assert (Hs2 : s2 =
    if UseDeterministicGPUThread cfg
    then set_s_interrupt_waiting true (set_fifo (flags_from_GPU (fifo s)) s)
    else set_pending_events [0]
           (set_s_interrupt_waiting true (set_fifo (flags_from_GPU (fifo s)) s))).
  { subst s2. rewrite (SetCPStatusFromGPU_dual_core cfg s Hdual Hw). cbv zeta.
    rewrite desired_line_reads_disabled by exact Hre.
    rewrite Hset, Hev. reflexivity. }
  clearbody s2. destruct (UseDeterministicGPUThread cfg); subst s2.
  - cp_fields. repeat split; congruence.
  - cp_fields. repeat split; try assumption; try reflexivity.
    all: rewrite (exec_CoreTiming_drain_one _ 0) by reflexivity;
      rewrite exec_UpdateInterrupts; reflexivity.
Qed.

(** C6 (as the code has it).  No register write re-evaluates the interrupt
    line: the asserted line, the pending flag and the tasks held by the
    scheduler are the same after the write as before, the control register
    included.  The line is re-evaluated by the next status recomputation
    (consumer, producer or commit).  After a control-register write that
    clears read-enable while the line is asserted and nothing is pending,
    that recomputation lowers the line: at once in single-core mode and on
    the producer side of dual-core mode; on the consumer side of dual-core
    mode through one task carrying 0, after which the line is low (no task
    is submitted when the GPU thread is deterministic). *)
Theorem control_write_and_interrupt_line cfg val s :
  let s1 := exec (mmio_Write cfg CTRL_REGISTER val) s in
  (forall addr v, irq_state (exec (mmio_Write cfg addr v) s) = irq_state s)
  /\ (UCPCtrlReg.GPReadEnable val = false ->
      s_interrupt_set s = true ->
      s_interrupt_waiting s = false ->
      pending_events s = [] ->
      forall r,
        let s2 := exec (recompute cfg r) s1 in
        if bCPUThread cfg && match r with By_consumer => true | _ => false end
        then s_interrupt_set s2 = true
             /\ s_interrupt_waiting s2 = true
             /\ pending_events s2 =
                (if UseDeterministicGPUThread cfg then [] else [0])
             /\ (UseDeterministicGPUThread cfg = false ->
                 let s3 := exec CoreTiming_drain s2 in
                 s_interrupt_set s3 = false
                 /\ s_interrupt_waiting s3 = false
                 /\ pending_events s3 = [])
        else s_interrupt_set s2 = false
             /\ s_interrupt_waiting s2 = false
             /\ pending_events s2 = []).
Proof.
  intros s1. split.
  - intros addr v. apply mmio_Write_irq_state.
  - intros Hre Hset Hw Hev r s2.
    destruct (irq_state_eq _ _ (mmio_Write_irq_state cfg CTRL_REGISTER val s))
      as (Hset1 & Hw1 & Hev1).
    fold s1 in Hset1, Hw1, Hev1. rewrite Hset in Hset1. rewrite Hw in Hw1.
    rewrite Hev in Hev1.
    assert (Hctrl1 : UCPCtrlReg.GPReadEnable (s_cp_ctrl_reg s1) = false).
    { subst s1. rewrite exec_CTRL_REGISTER_write. exact Hre. }
    clearbody s1.
    assert (Hd2 : desired_line s2 = false).
    { apply desired_line_reads_disabled. subst s2.
      rewrite recompute_s_cp_ctrl_reg. exact Hctrl1. }
    destruct (bCPUThread cfg && match r with By_consumer => true | _ => false end)
      eqn:Hcase.
    + apply andb_prop in Hcase. destruct Hcase as (Hdual & Hr).
      destruct r; try discriminate Hr. subst s2. cbn [recompute].
      exact (dual_core_consumer_deassert cfg s1 Hdual Hctrl1 Hset1 Hw1 Hev1).
    + pose proof (recompute_outcome cfg r s1 Hw1 Hev1) as Hout.
      cbv zeta in Hout. fold s2 in Hout. clearbody s2.
      destruct Hout as [(Hs & Hw2 & Hev2) | (Hdual & Hr & _)].
      * rewrite Hd2 in Hs. auto.
      * rewrite Hdual, Hr in Hcase. discriminate Hcase.
Qed.

Lemma control_write_and_interrupt_line_witness :
  let s1 := exec (mmio_Write dual_core CTRL_REGISTER ctrl_underflow_int_only)
              (underflow_asserted dual_core) in
  let s2 := exec (recompute dual_core By_consumer) s1 in
  irq_state s1 = irq_state (underflow_asserted dual_core)
  /\ pending_events s2 = [0]
  /\ s_interrupt_set (exec CoreTiming_drain s2) = false.
Proof.
  destruct (control_write_and_interrupt_line dual_core ctrl_underflow_int_only
              (underflow_asserted dual_core)) as (Hwrite & Hnext).
  split; [ apply Hwrite | ].
  destruct (Hnext eq_refl eq_refl eq_refl eq_refl By_consumer)
    as (_ & _ & Hev & Hdrain).
  split; [ exact Hev | ].
  destruct (Hdrain eq_refl) as (Hlow & _). exact Hlow.
Defined.

(** C6 as stated fails.  In single-core mode, with the line asserted for an
    underflow, writing the control register with read-enable cleared leaves
    the line asserted although the desired line is now low; in dual-core
    mode the same write submits no task to the scheduler. *)
Lemma control_write_leaves_line_asserted :
  let s := underflow_asserted single_core in
  let s' := exec (mmio_Write single_core CTRL_REGISTER ctrl_underflow_int_only) s in
  let d := underflow_asserted dual_core in
  let d' := exec (mmio_Write dual_core CTRL_REGISTER ctrl_underflow_int_only) d in
  (s_interrupt_set s = true
   /\ bFF_LoWatermark (fifo s') = true
   /\ bFF_LoWatermarkInt (fifo s') = true
   /\ UCPCtrlReg.GPReadEnable (s_cp_ctrl_reg s') = false
   /\ desired_line s' = false
   /\ s_interrupt_set s' = true
   /\ ~ (s_interrupt_set s' = desired_line s'))
  /\ (s_interrupt_set d = true
      /\ desired_line d' = false
      /\ s_interrupt_set d' = true
      /\ s_interrupt_waiting d' = false
      /\ pending_events d' = []).
Proof.
  vm_compute. repeat split; try reflexivity. discriminate.
Qed.

(** * Further properties *)

(** ** Reasoning on bits *)

Lemma testbit_shiftl a n m :
  0 <= n -> Z.testbit (Z.shiftl a n) m = (n <=? m) && Z.testbit a (m - n).
Proof.
  intros Hn. destruct (Z.leb_spec n m).
  - rewrite Z.shiftl_spec by lia. reflexivity.
  - rewrite Z.shiftl_spec_low by lia. reflexivity.
Qed.

Lemma testbit_shiftr a n m :
  Z.testbit (Z.shiftr a n) m = (0 <=? m) && Z.testbit a (m + n).
Proof.
  destruct (Z.leb_spec 0 m).
  - rewrite Z.shiftr_spec by lia. reflexivity.
  - apply Z.testbit_neg_r. lia.
Qed.

Ltac bit_cases :=
  repeat match goal with
         | |- context [?a <? ?b] => destruct (Z.ltb_spec a b)
         | |- context [?a <=? ?b] => destruct (Z.leb_spec a b)
         end.

(** Equality of two words built from [Z.land], [Z.lor], shifts and runs of
    ones, bit by bit. *)
Ltac bitblast :=
  apply Z.bits_inj'; intros ?n ?Hn;
  repeat first
    [ rewrite Z.land_spec | rewrite Z.lor_spec
    | rewrite testbit_shiftl by lia
    | rewrite testbit_shiftr
    | rewrite Z.testbit_ones by lia
    | rewrite Z.testbit_0_l ];
  bit_cases; cbn [andb orb negb];
  rewrite ?andb_true_r, ?andb_false_r, ?orb_false_r, ?orb_true_r;
  cbn [andb orb negb];
  try reflexivity; try lia;
  try (f_equal; lia).

(** Masks as runs of ones. *)
Ltac masks_as_ones :=
  unfold u16_of, u32_of, WMASK_LO_ALIGN_32BIT;
  rewrite <- ?Z.land_ones by lia;
  change 0xFFFF0000 with (Z.shiftl (Z.ones 16) 16);
  change 0x0000FFFF with (Z.ones 16);
  change 0xffe0 with (Z.shiftl (Z.ones 11) 5).

Lemma is_u16_land x : is_u16 x -> x = Z.land x (Z.ones 16).
Proof. intros H. rewrite Z.land_ones by lia. symmetry. apply Z.mod_small. exact H. Qed.

Lemma is_u32_land x : is_u32 x -> x = Z.land x (Z.ones 32).
Proof. intros H. rewrite Z.land_ones by lia. symmetry. apply Z.mod_small. exact H. Qed.

Lemma land_is_u32 x : Z.land x (Z.ones 32) = x -> is_u32 x.
Proof.
  intros H. rewrite <- H, Z.land_ones by lia. apply Z.mod_pos_bound. lia.
Qed.

(** ** The halves of a 32-bit register *)

(** X1.  [WriteLow] and [WriteHigh] replace one half of a 32-bit register and
    leave the other: reading the written half returns the 16-bit value
    written, reading the other half returns what it held, and a [u32]
    register stays a [u32]. *)
Theorem half_register_writes reg lo hi :
  is_u16 lo ->
  is_u16 hi ->
  ReadLow (WriteLow reg lo) = lo
  /\ ReadHigh (WriteLow reg lo) = ReadHigh reg
  /\ ReadHigh (WriteHigh reg hi) = hi
  /\ ReadLow (WriteHigh reg hi) = ReadLow reg
  /\ (is_u32 reg -> is_u32 (WriteLow reg lo) /\ is_u32 (WriteHigh reg hi)).
Proof.
  intros Hlo Hhi.
  pose proof (is_u16_land lo Hlo) as Elo. pose proof (is_u16_land hi Hhi) as Ehi.
  unfold ReadLow, ReadHigh, WriteLow, WriteHigh.
  split; [ | split; [ | split; [ | split ] ] ].
  - rewrite Elo. masks_as_ones. bitblast.
  - masks_as_ones. rewrite Elo. bitblast.
  - rewrite Ehi. masks_as_ones. bitblast.
  - masks_as_ones. bitblast.
  - intros Hreg. split; apply land_is_u32.
    + rewrite (is_u32_land reg Hreg), Elo. masks_as_ones. bitblast.
    + masks_as_ones. bitblast.
Qed.

Lemma half_register_writes_witness :
  ReadLow (WriteLow 0x12345678 0xABCD) = 0xABCD
  /\ ReadHigh (WriteLow 0x12345678 0xABCD) = 0x1234.
Proof.
  destruct (half_register_writes 0x12345678 0xABCD 0)
    as (Hl & Hh & _).
  - split; [ discriminate | reflexivity ].
  - split; [ discriminate | reflexivity ].
  - split; [ exact Hl | rewrite Hh; reflexivity ].
Defined.

(** X2.  The two halves read from a [u32] value put that value back together,
    whatever the register held before and whichever half is written
    first. *)
Theorem half_registers_reassemble reg x :
  is_u32 x ->
  WriteHigh (WriteLow reg (ReadLow x)) (ReadHigh x) = x
  /\ WriteLow (WriteHigh reg (ReadHigh x)) (ReadLow x) = x.
Proof.
  intros Hx. pose proof (is_u32_land x Hx) as Ex.
  unfold ReadLow, ReadHigh, WriteLow, WriteHigh.
  split; rewrite Ex; masks_as_ones; bitblast.
Qed.

Lemma half_registers_reassemble_witness :
  WriteHigh (WriteLow 0xFFFFFFFF (ReadLow 0x12345678)) (ReadHigh 0x12345678)
  = 0x12345678.
Proof.
  apply (half_registers_reassemble 0xFFFFFFFF 0x12345678).
  split; [ discriminate | reflexivity ].
Defined.

(** ** Register reads *)

Ltac module_functions :=
  cbv [step GatherPipeBursted SetCPStatusFromCPU SetCPStatusFromGPU
       UpdateInterrupts UpdateInterruptsFromVideoBackend
       CoreTiming_ScheduleEvent_update_interrupts watermark_check ASSERT_MSG
       IsOnThread].

Lemma preserves_CoreTiming_run_next {A} (obs : CPState -> A) :
  (forall rest, preserves obs (modify (set_pending_events rest))) ->
  (forall userdata, preserves obs (UpdateInterrupts userdata)) ->
  preserves obs CoreTiming_run_next.
Proof.
  intros Hpop Hrun s. rewrite exec_CoreTiming_run_next.
  destruct (pending_events s) as [ | userdata rest ]; [ reflexivity | ].
  rewrite Hrun. apply (Hpop rest s).
Qed.

(** X3.  A register read returns a value and changes nothing, with one
    exception: reading the status register stores the word it returns in
    [s_cp_status_reg].  No read changes the descriptor, the control word, the
    interrupt state or calls a collaborator. *)
Theorem register_reads_change_nothing cfg addr s :
  (addr <> STATUS_REGISTER -> exec (mmio_Read cfg addr) s = s)
  /\ exec (mmio_Read cfg STATUS_REGISTER) s =
     set_s_cp_status_reg (s_cp_status_reg (exec (mmio_Read cfg STATUS_REGISTER) s)) s
  /\ eval (mmio_Read cfg STATUS_REGISTER) s =
     Some (s_cp_status_reg (exec (mmio_Read cfg STATUS_REGISTER) s)).
Proof.
  split; [ | split ].
  - intros Hne.
    destruct addr; try (contradiction Hne; reflexivity);
      mmio_handlers; destruct (bCPUThread cfg);
      cbv [exec bind gets ret fst snd]; try reflexivity;
      destruct (SafeCPReadPointer (fifo s) <=? CPWritePointer (fifo s));
      reflexivity.
  - destruct s as [f ? ? ? ? ? ? ? ? ? ? ? ?]. reflexivity.
  - reflexivity.
Qed.

(** ** Stubbed and read-only registers *)

(** X4.  Writes to the bounding-box registers, the status register, the
    performance-select register and the metrics registers leave the whole
    state as it was.  The metrics registers read as constants whatever the
    state: 4 for [CLKS_PER_VTX_OUT], 0 for the others; a read of the
    performance-select register is rejected. *)
Theorem stubbed_registers cfg val s :
  Forall (fun addr => exec (mmio_Write cfg addr val) s = s) write_rejecting_registers
  /\ Forall (fun addr =>
               eval (mmio_Read cfg addr) s =
               Some (if Reg_beq addr CLKS_PER_VTX_OUT then 4 else 0))
       metrics_registers
  /\ eval (mmio_Read cfg PERF_SELECT) s = None.
Proof.
  split; [ | split ].
  - unfold write_rejecting_registers, metrics_registers. cbn [app].
    repeat (apply Forall_cons; [ reflexivity | ]). apply Forall_nil.
  - unfold metrics_registers.
    repeat (apply Forall_cons; [ reflexivity | ]). apply Forall_nil.
  - reflexivity.
Qed.

(** ** What the actions leave alone *)

(** Preservation of an observation by a register write, a register read,
    and by the other actions. *)
Ltac split_mode :=
  match goal with
  | |- context [bCPUThread ?cfg] => destruct (bCPUThread cfg)
  | _ => idtac
  end.

Ltac write_frame addr := destruct addr; mmio_handlers; split_mode; frame.

Ltac other_actions_frame :=
  match goal with
  | |- preserves _ (step _ (Producer_read ?addr)) =>
      cbn [step]; apply preserves_bind; [ | intro; apply preserves_ret ];
      destruct addr; mmio_handlers; split_mode; frame
  | |- preserves _ (step _ Producer_commit) => module_functions; frame
  | |- preserves _ (step _ (Consumer_update _)) => cbn [step]; frame
  | |- preserves _ (step _ Consumer_status) => module_functions; frame
  | |- preserves _ (step _ Scheduler_run) =>
      cbn [step]; apply preserves_CoreTiming_run_next; intros;
      [ frame | unfold UpdateInterrupts; frame ]
  end.

Lemma step_s_bbox cfg a : preserves s_bbox (step cfg a).
Proof.
  destruct a; try other_actions_frame.
  cbn [step]. write_frame addr.
Qed.

Lemma run_preserves {A} (obs : CPState -> A) cfg acts :
  (forall a, In a acts -> preserves obs (step cfg a)) ->
  preserves obs (run cfg acts).
Proof.
  induction acts as [ | a acts IH ]; intros Hstep.
  - apply preserves_ret.
  - cbn [run]. apply preserves_bind.
    + apply Hstep. left. reflexivity.
    + intros _. apply IH. intros a' Ha'. apply Hstep. right. exact Ha'.
Qed.

(** X5.  The bounding box is set by [Init] and by nothing else: in every
    state reached from [Init], whatever was written, the four bounding-box
    registers read left 0, right 640, top 0 and bottom 480. *)
Theorem bounding_box_is_constant cfg s0 acts :
  let s := reached cfg s0 acts in
  eval (mmio_Read cfg FIFO_BOUNDING_BOX_LEFT) s = Some 0
  /\ eval (mmio_Read cfg FIFO_BOUNDING_BOX_RIGHT) s = Some 640
  /\ eval (mmio_Read cfg FIFO_BOUNDING_BOX_TOP) s = Some 0
  /\ eval (mmio_Read cfg FIFO_BOUNDING_BOX_BOTTOM) s = Some 480.
Proof.
  intros s.
  assert (Hbox : s_bbox s = MathUtil.Build_Rectangle 0 0 640 480).
  { subst s. unfold reached.
    rewrite (run_preserves s_bbox cfg acts (fun a _ => step_s_bbox cfg a)).
    reflexivity. }
  clearbody s.
  change (eval (mmio_Read cfg FIFO_BOUNDING_BOX_LEFT) s)
    with (Some (MathUtil.left (s_bbox s))).
  change (eval (mmio_Read cfg FIFO_BOUNDING_BOX_RIGHT) s)
    with (Some (MathUtil.right (s_bbox s))).
  change (eval (mmio_Read cfg FIFO_BOUNDING_BOX_TOP) s)
    with (Some (MathUtil.top (s_bbox s))).
  change (eval (mmio_Read cfg FIFO_BOUNDING_BOX_BOTTOM) s)
    with (Some (MathUtil.bottom (s_bbox s))).
  rewrite Hbox. repeat split.
Qed.

(** ** The token register *)

Lemma step_s_token_reg cfg a :
  (forall val, a <> Producer_write FIFO_TOKEN_REGISTER val) ->
  preserves s_token_reg (step cfg a).
Proof.
  intros Ha. destruct a; try other_actions_frame.
  cbn [step].
  destruct addr; try (contradiction (Ha val); reflexivity);
    mmio_handlers; split_mode; frame.
Qed.

(** X6.  The token register keeps the low 16 bits of what was last written
    to it: a read after a write returns them, and no other action (write to
    another register, read, commit, consumer or scheduler activity) changes
    the token. *)
Theorem token_register_holds cfg val s :
  read_back cfg FIFO_TOKEN_REGISTER val s = Some (Z.land val 0xffff)
  /\ (forall a,
        (forall v, a <> Producer_write FIFO_TOKEN_REGISTER v) ->
        eval (mmio_Read cfg FIFO_TOKEN_REGISTER) (exec (step cfg a) s)
        = eval (mmio_Read cfg FIFO_TOKEN_REGISTER) s).
Proof.
  split.
  - reflexivity.
  - intros a Ha.
    change (Some (s_token_reg (exec (step cfg a) s)) = Some (s_token_reg s)).
    rewrite (step_s_token_reg cfg a Ha s). reflexivity.
Qed.

(** ** Initialisation *)


(** ** Reads disabled *)

Lemma sink_values_app l1 l2 : sink_values (l1 ++ l2) = sink_values l1 ++ sink_values l2.
Proof. apply flat_map_app. Qed.

(** A call that is not addressed to the interrupt sink. *)
Lemma preserves_sink_state_call c :
  sink_values [c] = [] -> preserves sink_state (call c).
Proof.
  intros Hc s. unfold sink_state. rewrite exec_call. cbn [calls set_calls
    s_interrupt_set s_interrupt_waiting pending_events].
  rewrite sink_values_app, Hc, app_nil_r. reflexivity.
Qed.

Ltac sink_frame :=
  repeat first
    [ apply preserves_sink_state_call; reflexivity
    | frame_step ].

Lemma mmio_Write_sink_state cfg addr val :
  preserves sink_state (mmio_Write cfg addr val).
Proof. destruct addr; mmio_handlers; split_mode; sink_frame. Qed.

Lemma mmio_Read_sink_state cfg addr :
  preserves sink_state (mmio_Read cfg addr).
Proof. destruct addr; mmio_handlers; split_mode; sink_frame. Qed.

Lemma mmio_Write_s_cp_ctrl_reg cfg addr val :
  addr <> CTRL_REGISTER -> preserves s_cp_ctrl_reg (mmio_Write cfg addr val).
Proof.
  intros Hne. destruct addr; try (contradiction Hne; reflexivity);
    mmio_handlers; split_mode; frame.
Qed.

Lemma mmio_Read_s_cp_ctrl_reg cfg addr : preserves s_cp_ctrl_reg (mmio_Read cfg addr).
Proof. destruct addr; mmio_handlers; split_mode; frame. Qed.

Lemma GatherPipeBursted_sink_state cfg s :
  sink_state (exec (GatherPipeBursted cfg) s)
  = sink_state (exec (SetCPStatusFromCPU cfg) s).
Proof.
  unfold GatherPipeBursted. rewrite exec_bind, exec_bind_gets.
  generalize (s_cp_ctrl_reg (exec (SetCPStatusFromCPU cfg) s)) as ctrl.
  generalize (exec (SetCPStatusFromCPU cfg) s) as s1. intros s1 ctrl.
  apply (preserves_apply sink_state). unfold ASSERT_MSG. sink_frame.
Qed.

Lemma quiet_desired_line s :
  UCPCtrlReg.GPReadEnable (s_cp_ctrl_reg s) = false ->
  forall f, interrupt_of (set_fifo f s) = false.
Proof.
  intros Hre f. rewrite interrupt_of_desired_line.
  apply desired_line_reads_disabled. exact Hre.
Qed.

Lemma quiet_SetCPStatusFromCPU cfg s :
  quiet s -> exec (SetCPStatusFromCPU cfg) s = set_fifo (flags_from_CPU (fifo s)) s.
Proof.
  intros (Hre & Hset & Hw & Hev). rewrite exec_SetCPStatusFromCPU. cbv zeta.
  rewrite (quiet_desired_line s Hre), Hset. reflexivity.
Qed.

Lemma quiet_SetCPStatusFromGPU cfg s :
  quiet s -> exec (SetCPStatusFromGPU cfg) s = set_fifo (flags_from_GPU (fifo s)) s.
Proof.
  intros (Hre & Hset & Hw & Hev). rewrite exec_SetCPStatusFromGPU. cbv zeta.
  rewrite (quiet_desired_line s Hre), Hset. reflexivity.
Qed.

Lemma sink_state_quiet s s' :
  sink_state s' = sink_state s ->
  s_cp_ctrl_reg s' = s_cp_ctrl_reg s \/
  UCPCtrlReg.GPReadEnable (s_cp_ctrl_reg s') = false ->
  quiet s ->
  quiet s' /\ sink_values (calls s') = sink_values (calls s).
Proof.
  unfold sink_state, quiet. intros Hs Hctrl (Hre & Hset & Hw & Hev).
  inversion Hs as [[Hset' Hw' Hev' Hsink]].
  rewrite Hset', Hw', Hev'. repeat split; try assumption.
  destruct Hctrl as [Hc | Hc]; [ rewrite Hc | ]; assumption.
Qed.

Lemma step_quiet cfg a s :
  quiet s ->
  keeps_reads_disabled a ->
  quiet (exec (step cfg a) s)
  /\ sink_values (calls (exec (step cfg a) s)) = sink_values (calls s).
Proof.
  intros Hq Ha. destruct a; cbn [step].
  - apply sink_state_quiet; [ apply mmio_Write_sink_state | | exact Hq ].
    destruct (Reg_eq_dec addr CTRL_REGISTER) as [-> | Hne].
    + right. rewrite exec_CTRL_REGISTER_write. apply (Ha val). reflexivity.
    + left. apply (mmio_Write_s_cp_ctrl_reg cfg addr val Hne).
  - rewrite exec_bind, exec_ret.
    apply sink_state_quiet; [ apply mmio_Read_sink_state | | exact Hq ].
    left. apply mmio_Read_s_cp_ctrl_reg.
  - apply sink_state_quiet; [ | | exact Hq ].
    + rewrite GatherPipeBursted_sink_state, (quiet_SetCPStatusFromCPU cfg s Hq).
      reflexivity.
    + left. apply GatherPipeBursted_frame.
  - rewrite exec_fifo_assign.
    apply sink_state_quiet; [ reflexivity | left; reflexivity | exact Hq ].
  - rewrite (quiet_SetCPStatusFromGPU cfg s Hq).
    apply sink_state_quiet; [ reflexivity | left; reflexivity | exact Hq ].
  - rewrite exec_CoreTiming_run_next.
    destruct Hq as (Hre & Hset & Hw & Hev). rewrite Hev.
    repeat split; assumption.
Qed.

(** X8.  While the control word has read-enable clear, the line is low and
    nothing is pending, no sequence of actions that keeps read-enable clear
    changes that: whatever the descriptor holds and whatever interrupts are
    enabled, the line stays low, no dispatch is flagged or scheduled, and
    the interrupt sink is not called. *)
Theorem reads_disabled_line_stays_low cfg acts s :
  quiet s ->
  Forall keeps_reads_disabled acts ->
  quiet (exec (run cfg acts) s)
  /\ sink_values (calls (exec (run cfg acts) s)) = sink_values (calls s).
Proof.
  revert s. induction acts as [ | a acts IH ]; intros s Hq Hacts.
  - split; [ exact Hq | reflexivity ].
  - inversion Hacts as [ | a' acts' Ha Hrest ]; subst.
    cbn [run]. rewrite exec_bind.
    destruct (step_quiet cfg a s Hq Ha) as (Hq1 & Hsink1).
    destruct (IH _ Hq1 Hrest) as (Hq2 & Hsink2).
    split; [ exact Hq2 | rewrite Hsink2; exact Hsink1 ].
Qed.

Lemma reads_disabled_line_stays_low_witness :
  let acts := [ Producer_write FIFO_LO_WATERMARK_LO 0x20;
                Producer_write CTRL_REGISTER ctrl_underflow_int_only;
                Consumer_status; Producer_commit ] in
  bFF_LoWatermark (fifo (exec (run dual_core acts) booted)) = true
  /\ bFF_LoWatermarkInt (fifo (exec (run dual_core acts) booted)) = true
  /\ quiet (exec (run dual_core acts) booted).
Proof.
  split; [ reflexivity | ]. split; [ reflexivity | ].
  apply (reads_disabled_line_stays_low dual_core).
  - repeat split.
  - repeat (apply Forall_cons; [ intros val Hval; inversion Hval; reflexivity | ]);
      apply Forall_nil.
Defined.

(** ** The interrupt sink *)













(** ** Single-core mode *)

Lemma step_idle_single_core cfg a s :
  bCPUThread cfg = false ->
  s_interrupt_waiting s = false /\ pending_events s = [] ->
  s_interrupt_waiting (exec (step cfg a) s) = false
  /\ pending_events (exec (step cfg a) s) = [].
Proof.
  intros Hsingle (Hw & Hev). destruct a; cbn [step].
  - destruct (irq_state_eq _ _ (mmio_Write_irq_state cfg addr val s))
      as (_ & Hw' & Hev'). rewrite Hw', Hev'. auto.
  - rewrite exec_bind, exec_ret.
    destruct (irq_state_eq _ _ (mmio_Read_irq_state cfg addr s))
      as (_ & Hw' & Hev'). rewrite Hw', Hev'. auto.
  - destruct (GatherPipeBursted_frame cfg s) as (_ & _ & _ & Hev' & Hw').
    rewrite Hw', Hev'. auto.
  - rewrite exec_fifo_assign. auto.
  - destruct (recompute_outcome cfg By_consumer s Hw Hev)
      as [(_ & Hw' & Hev') | (Hdual & _)].
    + auto.
    + rewrite Hsingle in Hdual. discriminate Hdual.
  - rewrite exec_CoreTiming_run_next, Hev. auto.
Qed.

(** X10.  In single-core mode no dispatch is ever pending: in every state
    reached from [Init] the pending flag is clear and the scheduler holds no
    task, and a recomputation (by the consumer, the producer or a commit)
    leaves the line equal to the desired line at once. *)
Theorem single_core_never_pending cfg s0 acts :
  bCPUThread cfg = false ->
  pending_events s0 = [] ->
  let s := reached cfg s0 acts in
  s_interrupt_waiting s = false
  /\ pending_events s = []
  /\ (forall r,
        let s' := exec (recompute cfg r) s in
        s_interrupt_set s' = desired_line s'
        /\ s_interrupt_waiting s' = false
        /\ pending_events s' = []).
Proof.
  intros Hsingle Hev s.
  assert (Hs : s_interrupt_waiting s = false /\ pending_events s = []).
  { subst s. unfold reached.
    assert (H0 : s_interrupt_waiting (exec Init s0) = false
                 /\ pending_events (exec Init s0) = [])
      by (split; [ reflexivity | rewrite Init_pending_events; exact Hev ]).
    generalize (exec Init s0) H0. clear - Hsingle.
    induction acts as [ | a acts IH ]; intros s Hs.
    - exact Hs.
    - cbn [run]. rewrite exec_bind. apply IH.
      apply step_idle_single_core; assumption. }
  clearbody s. destruct Hs as (Hw & Hev'). repeat split; try assumption.
  all: destruct (recompute_outcome cfg r s Hw Hev')
         as [(Hl & Hw' & Hev'') | (Hdual & _)];
    [ assumption | rewrite Hsingle in Hdual; discriminate Hdual ].
Qed.

Lemma single_core_never_pending_witness :
  s_interrupt_set (underflow_asserted single_core) = true
  /\ s_interrupt_waiting (underflow_asserted single_core) = false
  /\ pending_events (underflow_asserted single_core) = [].
Proof.
  destruct (single_core_never_pending single_core power_on
              [ Producer_write CTRL_REGISTER ctrl_read_underflow_int;
                Producer_write FIFO_LO_WATERMARK_LO 0x20;
                Consumer_status;
                Scheduler_run ]) as (Hw & Hev & _).
  - reflexivity.
  - reflexivity.
  - split; [ vm_compute; reflexivity | ]. split; [ exact Hw | exact Hev ].
Defined.

(** ** Recomputing twice *)

(** X11.  Recomputing the status twice in a row does what recomputing it
    once does: the second run finds the flags, the line, the pending flag,
    the scheduler and the log of calls as the first left them. *)
Theorem recomputation_is_idempotent cfg s :
  exec (SetCPStatusFromCPU cfg) (exec (SetCPStatusFromCPU cfg) s)
  = exec (SetCPStatusFromCPU cfg) s
  /\ exec (SetCPStatusFromGPU cfg) (exec (SetCPStatusFromGPU cfg) s)
     = exec (SetCPStatusFromGPU cfg) s.
Proof.
  split.
  - rewrite (exec_SetCPStatusFromCPU cfg s). cbv zeta.
    set (s1 := set_fifo (flags_from_CPU (fifo s)) s).
    set (want := interrupt_of s1).
    assert (Hagain : forall s2,
              fifo s2 = fifo s1 -> s_cp_ctrl_reg s2 = s_cp_ctrl_reg s1 ->
              (s_interrupt_set s2 = want \/ s_interrupt_waiting s2 = true) ->
              exec (SetCPStatusFromCPU cfg) s2 = set_fifo (flags_from_CPU (fifo s2)) s2).
    { intros s2 Hf Hc Hst. rewrite exec_SetCPStatusFromCPU. cbv zeta.
      assert (Hw2 : interrupt_of (set_fifo (flags_from_CPU (fifo s2)) s2) = want).
      { unfold interrupt_of, bpInt_of, ovfInt_of, undfInt_of. cp_fields.
        rewrite Hf, Hc. reflexivity. }
      rewrite Hw2. destruct Hst as [-> | ->].
      - rewrite Bool.eqb_reflx. reflexivity.
      - rewrite andb_false_r. reflexivity. }
    destruct (Bool.eqb want (s_interrupt_set s)) eqn:Heq; cbn [negb andb].
    + rewrite Hagain; [ destruct s as [f ? ? ? ? ? ? ? ? ? ? ? ?]; reflexivity
                      | reflexivity | reflexivity | ].
      left. symmetry. apply Bool.eqb_prop. exact Heq.
    + destruct (s_interrupt_waiting s) eqn:Hw; cbn [negb].
      * rewrite Hagain; [ destruct s as [f ? ? ? ? ? ? ? ? ? ? ? ?]; reflexivity
                        | reflexivity | reflexivity | right; exact Hw ].
      * destruct (bCPUThread cfg).
        -- rewrite Hagain; [ destruct s as [f ? ? ? ? ? ? ? ? ? ? ? ?]; reflexivity
                           | reflexivity | reflexivity | left; reflexivity ].
        -- rewrite exec_UpdateInterrupts.
           rewrite Hagain; [ destruct s as [f ? ? ? ? ? ? ? ? ? ? ? ?]; reflexivity
                           | reflexivity | reflexivity | ].
           left. cbn. apply userdata_of_nonzero.
  - rewrite (exec_SetCPStatusFromGPU cfg s). cbv zeta.
    set (s1 := set_fifo (flags_from_GPU (fifo s)) s).
    set (want := interrupt_of s1).
    assert (Hagain : forall s2,
              fifo s2 = fifo s1 -> s_cp_ctrl_reg s2 = s_cp_ctrl_reg s1 ->
              (s_interrupt_set s2 = want \/ s_interrupt_waiting s2 = true) ->
              exec (SetCPStatusFromGPU cfg) s2 = set_fifo (flags_from_GPU (fifo s2)) s2).
    { intros s2 Hf Hc Hst. rewrite exec_SetCPStatusFromGPU. cbv zeta.
      assert (Hw2 : interrupt_of (set_fifo (flags_from_GPU (fifo s2)) s2) = want).
      { unfold interrupt_of, bpInt_of, ovfInt_of, undfInt_of. cp_fields.
        rewrite Hf, Hc. reflexivity. }
      rewrite Hw2. destruct Hst as [-> | ->].
      - rewrite Bool.eqb_reflx. reflexivity.
      - rewrite andb_false_r. reflexivity. }
    destruct (Bool.eqb want (s_interrupt_set s)) eqn:Heq; cbn [negb andb].
    + rewrite Hagain; [ destruct s as [f ? ? ? ? ? ? ? ? ? ? ? ?]; reflexivity
                      | reflexivity | reflexivity | ].
      left. symmetry. apply Bool.eqb_prop. exact Heq.
    + destruct (s_interrupt_waiting s) eqn:Hw; cbn [negb].
      * rewrite Hagain; [ destruct s as [f ? ? ? ? ? ? ? ? ? ? ? ?]; reflexivity
                        | reflexivity | reflexivity | right; exact Hw ].
      * destruct (bCPUThread cfg); [ destruct (UseDeterministicGPUThread cfg) | ].
        -- rewrite Hagain; [ destruct s as [f ? ? ? ? ? ? ? ? ? ? ? ?]; reflexivity
                           | reflexivity | reflexivity | right; reflexivity ].
        -- rewrite Hagain; [ destruct s as [f ? ? ? ? ? ? ? ? ? ? ? ?]; reflexivity
                           | reflexivity | reflexivity | right; reflexivity ].
        -- rewrite exec_UpdateInterrupts.
           rewrite Hagain; [ destruct s as [f ? ? ? ? ? ? ? ? ? ? ? ?]; reflexivity
                           | reflexivity | reflexivity | ].
           left. cbn. apply userdata_of_nonzero.
Qed.

(** ** The breakpoint flag *)

Lemma step_bFF_Breakpoint cfg a :
  not_consumer a -> preserves (fun s => bFF_Breakpoint (fifo s)) (step cfg a).
Proof.
  intros Ha. destruct a; try contradiction Ha; try other_actions_frame.
  cbn [step]. write_frame addr.
Qed.

(** X12.  The breakpoint flag is a function of the descriptor at the last
    consumer-side recomputation: [SetCPStatusFromGPU] sets it exactly when
    breakpoints are enabled and the read pointer equals the breakpoint
    address, whatever the flag was before.  Nothing the producer or the
    scheduler does changes it: not a commit, not a register write (the
    control-register write that disables breakpoints included). *)
Theorem breakpoint_flag cfg s :
  bFF_Breakpoint (fifo (exec (SetCPStatusFromGPU cfg) s))
  = bFF_BPEnable (fifo s) && (CPBreakpoint (fifo s) =? CPReadPointer (fifo s))
  /\ (forall a, not_consumer a ->
                bFF_Breakpoint (fifo (exec (step cfg a) s)) = bFF_Breakpoint (fifo s)).
Proof.
  split.
  - destruct (SetCPStatusFromGPU_frame cfg s) as (Hf & _). rewrite Hf. reflexivity.
  - intros a Ha. apply (step_bFF_Breakpoint cfg a Ha s).
Qed.

(** ** The control and clear registers *)

(** X13.  A write to the control register stores the whole word (a read
    returns it) and makes the six mode flags of the descriptor equal to the
    bits of the word; every other field of the descriptor is unchanged.
    The consumer is asked to flush exactly when reads were enabled and the
    word disables them, and the last call is the wake hint. *)
Theorem control_register_write cfg val s :
  let s' := exec (mmio_Write cfg CTRL_REGISTER val) s in
  let f := fifo s in
  let f' := fifo s' in
  eval (mmio_Read cfg CTRL_REGISTER) s' = Some val
  /\ bFF_GPReadEnable f' = UCPCtrlReg.GPReadEnable val
  /\ bFF_BPEnable f' = UCPCtrlReg.BPEnable val
  /\ bFF_HiWatermarkInt f' = UCPCtrlReg.FifoOverflowIntEnable val
  /\ bFF_LoWatermarkInt f' = UCPCtrlReg.FifoUnderflowIntEnable val
  /\ bFF_GPLinkEnable f' = UCPCtrlReg.GPLinkEnable val
  /\ bFF_BPInt f' = UCPCtrlReg.BPInt val
  /\ (forall x, get32 x f' = get32 x f)
  /\ bFF_Breakpoint f' = bFF_Breakpoint f
  /\ bFF_LoWatermark f' = bFF_LoWatermark f
  /\ bFF_HiWatermark f' = bFF_HiWatermark f
  /\ calls s' =
     calls s
     ++ (if bFF_GPReadEnable f && negb (UCPCtrlReg.GPReadEnable val)
         then [Fifo_FlushGpu] else [])
     ++ [Fifo_RunGpu].
Proof.
  intros s' f f'. subst s' f f'. rewrite exec_CTRL_REGISTER_write. cbv zeta.
  repeat split.
Qed.

(** X14.  A write to the clear register has no effect on the FIFO: the word
    is stored (a read returns it) and the consumer is woken; the
    descriptor, the control word, the interrupt state and the mirror
    registers are unchanged. *)
Theorem clear_register_is_inert cfg val s :
  let s' := exec (mmio_Write cfg CLEAR_REGISTER val) s in
  s' = set_calls (calls s ++ [Fifo_RunGpu]) (set_s_cp_clear_reg val s)
  /\ eval (mmio_Read cfg CLEAR_REGISTER) s' = Some val
  /\ fifo s' = fifo s
  /\ s_cp_ctrl_reg s' = s_cp_ctrl_reg s
  /\ irq_state s' = irq_state s.
Proof. repeat split. Qed.

(** ** Masked half writes *)

Ltac mask_blast cfg :=
  unfold masked_word, WriteHigh, WriteLow; rewrite ?WMASK_HI_RESTRICT_value;
  destruct (bWii cfg); change 0x1fff with (Z.ones 13);
  change 0x03ff with (Z.ones 10); change 0xFFFF with (Z.ones 16);
  change 0x1fffffff with (Z.ones 29); change 0x03ffffff with (Z.ones 26);
  masks_as_ones; bitblast.

(** The four ways two masked half writes reach a field. *)
Lemma direct_lo_then_hi cfg lo hi old :
  Z.lor (Z.land (Z.lor (Z.land old 0xFFFF0000)
                       (Z.land (Z.land lo WMASK_LO_ALIGN_32BIT) 0xFFFF)) 0x0000FFFF)
        (Z.shiftl (Z.land (Z.land hi (WMASK_HI_RESTRICT cfg)) 0xFFFF) 16)
  = masked_word cfg lo hi.
Proof. mask_blast cfg. Qed.

Lemma direct_hi_then_lo cfg lo hi old :
  Z.lor (Z.land (Z.lor (Z.land old 0x0000FFFF)
                       (Z.shiftl (Z.land (Z.land hi (WMASK_HI_RESTRICT cfg)) 0xFFFF) 16))
                0xFFFF0000)
        (Z.land (Z.land lo WMASK_LO_ALIGN_32BIT) 0xFFFF)
  = masked_word cfg lo hi.
Proof. mask_blast cfg. Qed.

Lemma mixed_lo_then_hi cfg lo hi old :
  WriteHigh (WriteLow old (Z.land (Z.land lo WMASK_LO_ALIGN_32BIT) 0xFFFF))
    (Z.land hi (WMASK_HI_RESTRICT cfg))
  = masked_word cfg lo hi.
Proof. mask_blast cfg. Qed.

Lemma WriteLow_then_WriteHigh cfg lo hi old :
  WriteHigh (WriteLow old (Z.land lo WMASK_LO_ALIGN_32BIT))
    (Z.land hi (WMASK_HI_RESTRICT cfg))
  = masked_word cfg lo hi.
Proof. mask_blast cfg. Qed.

Lemma WriteHigh_then_WriteLow cfg lo hi old :
  WriteLow (WriteHigh old (Z.land hi (WMASK_HI_RESTRICT cfg)))
    (Z.land lo WMASK_LO_ALIGN_32BIT)
  = masked_word cfg lo hi.
Proof. mask_blast cfg. Qed.

Lemma masked_word_aligned cfg lo hi : Z.land (masked_word cfg lo hi) (Z.ones 5) = 0.
Proof. mask_blast cfg. Qed.

Lemma masked_word_in_mask cfg lo hi :
  Z.land (masked_word cfg lo hi) (GetPhysicalAddressMask cfg) = masked_word cfg lo hi.
Proof. unfold GetPhysicalAddressMask. mask_blast cfg. Qed.

(** ** The read pointer and the distance *)

(** X15.  In dual-core mode the read-pointer register is read from the safe
    read pointer, which only a write to the high half republishes: after a
    write to the low half the register still reads what it read before;
    after a write to the high half both halves read the 32-bit read pointer
    that the writes put together.  In single-core mode reads come from the
    read pointer itself and no write touches the safe read pointer. *)
Theorem read_pointer_register cfg lo hi s :
  let s1 := exec (mmio_Write cfg FIFO_READ_POINTER_LO lo) s in
  let s2 := exec (mmio_Write cfg FIFO_READ_POINTER_HI hi) s1 in
  if bCPUThread cfg
  then eval (mmio_Read cfg FIFO_READ_POINTER_LO) s1
       = eval (mmio_Read cfg FIFO_READ_POINTER_LO) s
       /\ eval (mmio_Read cfg FIFO_READ_POINTER_HI) s1
          = eval (mmio_Read cfg FIFO_READ_POINTER_HI) s
       /\ SafeCPReadPointer (fifo s2) = CPReadPointer (fifo s2)
       /\ CPReadPointer (fifo s2) = masked_word cfg lo hi
       /\ eval (mmio_Read cfg FIFO_READ_POINTER_LO) s2
          = Some (Z.land lo WMASK_LO_ALIGN_32BIT)
       /\ eval (mmio_Read cfg FIFO_READ_POINTER_HI) s2
          = Some (Z.land hi (WMASK_HI_RESTRICT cfg))
  else SafeCPReadPointer (fifo s2) = SafeCPReadPointer (fifo s)
       /\ CPReadPointer (fifo s2) = masked_word cfg lo hi
       /\ eval (mmio_Read cfg FIFO_READ_POINTER_LO) s2
          = Some (Z.land lo WMASK_LO_ALIGN_32BIT)
       /\ eval (mmio_Read cfg FIFO_READ_POINTER_HI) s2
          = Some (Z.land hi (WMASK_HI_RESTRICT cfg)).
Proof.
  cbv zeta.
  assert (Hlo : Z.land (masked_word cfg lo hi) 0xFFFF = Z.land lo WMASK_LO_ALIGN_32BIT)
    by mask_blast cfg.
  assert (Hhi : Z.land (Z.shiftr (masked_word cfg lo hi) 16) 0xFFFF
                = Z.land hi (WMASK_HI_RESTRICT cfg))
    by mask_blast cfg.
  mmio_handlers. destruct (bCPUThread cfg);
    cbv [exec eval bind gets ret modify fifo_assign fst snd];
    cbn [load16 store16 get32 set32]; cp_fields.
  - change (Z.lor (Z.land (CPReadPointer (fifo s)) 0xFFFF0000)
              (Z.land (Z.land lo WMASK_LO_ALIGN_32BIT) 0xFFFF))
      with (WriteLow (CPReadPointer (fifo s))
              (Z.land (Z.land lo WMASK_LO_ALIGN_32BIT) 0xFFFF)).
    rewrite mixed_lo_then_hi, Hlo, Hhi. repeat split.
  - rewrite direct_lo_then_hi, Hlo, Hhi. repeat split.
Qed.

(** X16.  Writing the two halves of base, end, high watermark, low
    watermark, breakpoint or write pointer, in either order and whatever
    the field held, leaves the field equal to the high half under the
    address mask over the low half under 0xffe0.  That value is a multiple
    of 32 between 0 and [GetPhysicalAddressMask]: a field written through
    its registers is a 32-byte aligned physical address. *)
Theorem masked_half_writes_compose cfg lo hi s :
  Forall (fun r : Reg * Reg * Field32 =>
            let '(rlo, rhi, x) := r in
            get32 x (fifo (exec (mmio_Write cfg rhi hi)
                             (exec (mmio_Write cfg rlo lo) s)))
            = masked_word cfg lo hi
            /\ get32 x (fifo (exec (mmio_Write cfg rlo lo)
                                (exec (mmio_Write cfg rhi hi) s)))
               = masked_word cfg lo hi)
    masked_fields
  /\ masked_word cfg lo hi mod 32 = 0
  /\ 0 <= masked_word cfg lo hi <= GetPhysicalAddressMask cfg.
Proof.
  split; [ | split ].
  - unfold masked_fields.
    repeat (apply Forall_cons;
            [ mmio_handlers;
              cbv [exec eval bind gets ret modify fifo_assign fst snd];
              cbn [load16 store16 get32 set32]; cp_fields;
              rewrite ?direct_lo_then_hi, ?direct_hi_then_lo,
                ?WriteLow_then_WriteHigh, ?WriteHigh_then_WriteLow;
              split; reflexivity | ]).
    apply Forall_nil.
  - change 32 with (2 ^ 5). rewrite <- Z.land_ones by lia.
    apply masked_word_aligned.
  - pose proof (masked_word_in_mask cfg lo hi) as Hm.
    unfold GetPhysicalAddressMask in *.
    destruct (bWii cfg).
    + change 0x1fffffff with (Z.ones 29) in Hm. rewrite Z.land_ones in Hm by lia.
      rewrite <- Hm. pose proof (Z.mod_pos_bound (masked_word cfg lo hi) (2 ^ 29)).
      lia.
    + change 0x03ffffff with (Z.ones 26) in Hm. rewrite Z.land_ones in Hm by lia.
      rewrite <- Hm. pose proof (Z.mod_pos_bound (masked_word cfg lo hi) (2 ^ 26)).
      lia.
Qed.

(** X17.  In dual-core mode what the distance register reads does not
    depend on the stored distance: a write to either half changes neither
    half of what is read.  In single-core mode a half reads back what was
    written under its mask.  In both modes a write to the high half asks the
    consumer to synchronise and then wakes it, and a write to the low half
    calls nothing. *)
Theorem distance_register_writes cfg val s :
  (if bCPUThread cfg
   then forall w r, In w [FIFO_RW_DISTANCE_LO; FIFO_RW_DISTANCE_HI] ->
                    In r [FIFO_RW_DISTANCE_LO; FIFO_RW_DISTANCE_HI] ->
                    eval (mmio_Read cfg r) (exec (mmio_Write cfg w val) s)
                    = eval (mmio_Read cfg r) s
   else read_back cfg FIFO_RW_DISTANCE_LO val s
        = Some (Z.land val WMASK_LO_ALIGN_32BIT)
        /\ read_back cfg FIFO_RW_DISTANCE_HI val s
           = Some (Z.land val (WMASK_HI_RESTRICT cfg)))
  /\ calls (exec (mmio_Write cfg FIFO_RW_DISTANCE_HI val) s)
     = calls s ++ [Fifo_SyncGPU SyncGPUReason_Other; Fifo_RunGpu]
  /\ calls (exec (mmio_Write cfg FIFO_RW_DISTANCE_LO val) s) = calls s.
Proof.
  split; [ | split ].
  - unfold read_back. mmio_handlers. destruct (bCPUThread cfg).
    + intros w r [<- | [<- | []]] [<- | [<- | []]];
        cbv [exec eval bind gets ret modify fifo_assign call fst snd];
        cbn [load16 store16 get32 set32]; cp_fields;
        destruct (SafeCPReadPointer (fifo s) <=? CPWritePointer (fifo s));
        reflexivity.
    + cbv [exec eval bind gets ret modify fifo_assign call fst snd].
      cbn [load16 store16 get32 set32]. cp_fields. split.
      * f_equal. mask_blast cfg.
      * f_equal. mask_blast cfg.
  - mmio_handlers.
    cbv [exec eval bind gets ret modify fifo_assign call fst snd]. cp_fields.
    rewrite <- app_assoc. reflexivity.
  - reflexivity.
Qed.

(** ** The status register *)

Lemma testbit_assign_bit n b w m :
  0 <= n -> Z.testbit (assign_bit n b w) m = if n =? m then b else Z.testbit w m.
Proof.
  intros Hn. unfold assign_bit. destruct b.
  - rewrite Z.setbit_eqb by exact Hn. destruct (n =? m); reflexivity.
  - rewrite Z.clearbit_eqb. destruct (n =? m); cbn;
      [ apply andb_false_r | apply andb_true_r ].
Qed.

(** X18.  A status read synthesises five bits from the descriptor and keeps
    the other bits of the stored word: breakpoint and the two watermark bits
    are the flags, read-idle is set when the distance is zero or the read
    pointer equals the write pointer, and command-idle is set at least when
    the distance is zero or reads are disabled.  Reading again returns the
    same word. *)
Theorem status_register_read cfg s :
  let f := fifo s in
  exists v,
    eval (mmio_Read cfg STATUS_REGISTER) s = Some v
    /\ Z.testbit v UCPStatusReg.bit_Breakpoint = bFF_Breakpoint f
    /\ Z.testbit v UCPStatusReg.bit_OverflowHiWatermark = bFF_HiWatermark f
    /\ Z.testbit v UCPStatusReg.bit_UnderflowLoWatermark = bFF_LoWatermark f
    /\ Z.testbit v UCPStatusReg.bit_ReadIdle
       = (CPReadWriteDistance f =? 0) || (CPReadPointer f =? CPWritePointer f)
    /\ (CPReadWriteDistance f = 0 \/ bFF_GPReadEnable f = false ->
        Z.testbit v UCPStatusReg.bit_CommandIdle = true)
    /\ (forall n, 4 < n -> Z.testbit v n = Z.testbit (s_cp_status_reg s) n)
    /\ eval (mmio_Read cfg STATUS_REGISTER) (exec (mmio_Read cfg STATUS_REGISTER) s)
       = Some v.
Proof.
  intros f. mmio_handlers.
  cbv [exec eval bind gets ret modify fst snd]. cp_fields. fold f.
  unfold UCPStatusReg.bit_Breakpoint, UCPStatusReg.bit_OverflowHiWatermark,
    UCPStatusReg.bit_UnderflowLoWatermark, UCPStatusReg.bit_ReadIdle,
    UCPStatusReg.bit_CommandIdle.
  eexists. split; [ reflexivity | ].
  split; [ rewrite !testbit_assign_bit by lia; reflexivity | ].
  split; [ rewrite !testbit_assign_bit by lia; reflexivity | ].
  split; [ rewrite !testbit_assign_bit by lia; reflexivity | ].
  split; [ rewrite !testbit_assign_bit by lia; reflexivity | ].
  split.
  { intros Hidle. rewrite !testbit_assign_bit by lia. cbn [Z.eqb Pos.eqb].
    destruct Hidle as [Hd | Hre].
    - rewrite Hd. reflexivity.
    - rewrite Hre. cbn [negb]. apply orb_true_r. }
  split.
  { intros n Hn. rewrite !testbit_assign_bit by lia.
    repeat match goal with
           | |- context [?a =? n] =>
               destruct (Z.eqb_spec a n); [ lia | ]
           end.
    reflexivity. }
  f_equal. apply Z.bits_inj'. intros n Hn.
  rewrite !testbit_assign_bit by lia.
  repeat match goal with
         | |- context [if ?a =? n then _ else _] => destruct (a =? n)
         end; reflexivity.
Qed.

(** ** The trace of a commit *)

Lemma SetCPStatusFromCPU_flags cfg s :
  let s1 := exec (SetCPStatusFromCPU cfg) s in
  bFF_HiWatermark (fifo s1) = (CPHiWatermark (fifo s) <? CPReadWriteDistance (fifo s))
  /\ CPBase (fifo s1) = CPBase (fifo s)
  /\ CPEnd (fifo s1) = CPEnd (fifo s)
  /\ CPReadWriteDistance (fifo s1) = CPReadWriteDistance (fifo s)
  /\ CPWritePointer (fifo s1) = CPWritePointer (fifo s).
Proof.
  destruct (SetCPStatusFromCPU_frame cfg s) as (Hf & _).
  cbv zeta. rewrite Hf. repeat split.
Qed.

(** Symbolic execution in program order: a branch is split only once the
    state it runs in has been computed. *)
Ltac settled s :=
  lazymatch s with
  | context [@exec _ _ _] => fail
  | _ => idtac
  end.

Ltac cp_step_in_order :=
  match goal with
  | |- context [exec (bind (gets ?p) ?k) ?s] =>
      settled s; rewrite (exec_bind_gets p k s)
  | |- context [exec (bind ?m ?k) ?s] => settled s; rewrite (exec_bind m k s)
  | |- context [exec (modify ?u) ?s] => settled s; rewrite (exec_modify u s)
  | |- context [exec (fifo_assign ?u) ?s] =>
      settled s; rewrite (exec_fifo_assign u s)
  | |- context [exec (call ?c) ?s] => settled s; rewrite (exec_call c s)
  | |- context [exec (ret ?a) ?s] => settled s; rewrite (exec_ret a s)
  | |- context [exec (when ?c ?m) ?s] =>
      settled s; rewrite (exec_when c m s); cp_split c
  | |- context [exec (if ?c then ?m1 else ?m2) ?s] =>
      settled s; rewrite (exec_if c m1 m2 s); cp_split c
  end; cbv beta; cp_fields.

(** X19.  A commit in linked mode with reads enabled copies write pointer,
    base and end into the [ProcessorInterface] mirror, so none of the three
    sync assertions fails.  After the calls of the status recomputation it
    forces an exception check exactly when the distance before the commit
    exceeded the high watermark, then wakes the consumer, and the overflow
    assertion fails exactly when the new distance exceeds end minus base. *)
Theorem linked_commit_calls cfg s :
  UCPCtrlReg.GPLinkEnable (s_cp_ctrl_reg s) = true ->
  UCPCtrlReg.GPReadEnable (s_cp_ctrl_reg s) = true ->
  let f := fifo s in
  let s' := exec (GatherPipeBursted cfg) s in
  Fifo_CPUWritePointer s' = CPWritePointer (fifo s')
  /\ Fifo_CPUBase s' = CPBase f
  /\ Fifo_CPUEnd s' = CPEnd f
  /\ calls s' =
     calls (exec (SetCPStatusFromCPU cfg) s)
     ++ (if CPHiWatermark f <? CPReadWriteDistance f
         then [CoreTiming_ForceExceptionCheck 0] else [])
     ++ [Fifo_RunGpu]
     ++ (if add32 (CPReadWriteDistance f) GATHER_PIPE_SIZE
            <=? sub32 (CPEnd f) (CPBase f)
         then [] else [ASSERT_MSG_failed FIFO_overflowed_by_GatherPipe]).
Proof.
  intros Hlink Hre f s'. subst f s'.
  destruct (SetCPStatusFromCPU_frame cfg s) as (_ & Hctrl & _).
  destruct (SetCPStatusFromCPU_flags cfg s) as (Hhi & Hb & He & Hd & _).
  unfold GatherPipeBursted. rewrite exec_bind, exec_bind_gets.
  rewrite Hctrl, Hlink, Hre. cbn [negb andb].
  rewrite <- Hhi, <- Hb, <- He, <- Hd.
  generalize (exec (SetCPStatusFromCPU cfg) s) as s1. intros s1.
  unfold ASSERT_MSG.
  repeat cp_step_in_order.
  all: rewrite ?Z.eqb_refl in *; try discriminate.
  all: match goal with
       | H : negb (?a <=? ?b) = true |- _ =>
           apply (proj1 (negb_true_iff _)) in H; rewrite H
       | H : negb (?a <=? ?b) = false |- _ =>
           apply (proj1 (negb_false_iff _)) in H; rewrite H
       end.
  all: rewrite <- ?app_assoc; repeat split; reflexivity.
Qed.

Lemma linked_commit_calls_witness :
  let s := exec (mmio_Write single_core CTRL_REGISTER 0x11) (exec Init power_on) in
  calls (exec (GatherPipeBursted single_core) s) =
  calls (exec (SetCPStatusFromCPU single_core) s) ++ [Fifo_RunGpu]
  ++ [ASSERT_MSG_failed FIFO_overflowed_by_GatherPipe].
Proof.
  intros s.
  refine (proj2 (proj2 (proj2 (linked_commit_calls single_core s _ _)))).
  - vm_compute. reflexivity.
  - vm_compute. reflexivity.
Defined.

Ltac use_negb :=
  repeat match goal with
         | H : negb ?c = true |- _ => apply (proj1 (negb_true_iff _)) in H
         | H : negb ?c = false |- _ => apply (proj1 (negb_false_iff _)) in H
         end.

(** X20.  A commit in linked mode with reads disabled leaves the three
    mirror registers alone; each of the three sync assertions then fails
    exactly when the mirror register differs from the descriptor after the
    commit.  Exception check, wake hint and overflow assertion are as with
    reads enabled. *)
Theorem linked_commit_without_reads cfg s :
  UCPCtrlReg.GPLinkEnable (s_cp_ctrl_reg s) = true ->
  UCPCtrlReg.GPReadEnable (s_cp_ctrl_reg s) = false ->
  let f := fifo s in
  let s' := exec (GatherPipeBursted cfg) s in
  Fifo_CPUWritePointer s' = Fifo_CPUWritePointer s
  /\ Fifo_CPUBase s' = Fifo_CPUBase s
  /\ Fifo_CPUEnd s' = Fifo_CPUEnd s
  /\ calls s' =
     calls (exec (SetCPStatusFromCPU cfg) s)
     ++ (if CPHiWatermark f <? CPReadWriteDistance f
         then [CoreTiming_ForceExceptionCheck 0] else [])
     ++ [Fifo_RunGpu]
     ++ (if add32 (CPReadWriteDistance f) GATHER_PIPE_SIZE
            <=? sub32 (CPEnd f) (CPBase f)
         then [] else [ASSERT_MSG_failed FIFO_overflowed_by_GatherPipe])
     ++ out_of_sync (CPWritePointer (fifo s') =? Fifo_CPUWritePointer s)
     ++ out_of_sync (CPBase f =? Fifo_CPUBase s)
     ++ out_of_sync (CPEnd f =? Fifo_CPUEnd s).
Proof.
  intros Hlink Hre f s'. subst f s'.
  destruct (SetCPStatusFromCPU_frame cfg s) as (_ & Hctrl & Hpb & Hpe & Hpw & _).
  destruct (SetCPStatusFromCPU_flags cfg s) as (Hhi & Hb & He & Hd & _).
  unfold GatherPipeBursted. rewrite exec_bind, exec_bind_gets.
  rewrite Hctrl, Hlink, Hre. cbn [negb andb].
  rewrite <- Hhi, <- Hb, <- He, <- Hd, <- Hpb, <- Hpe, <- Hpw.
  generalize (exec (SetCPStatusFromCPU cfg) s) as s1. intros s1.
  unfold ASSERT_MSG.
  repeat cp_step_in_order.
  all: use_negb.
  all: repeat match goal with
              | H : ?c = _ |- context [?c] => rewrite H
              end.
  all: unfold out_of_sync; rewrite <- ?app_assoc; repeat split; reflexivity.
Qed.

(** X21.  A commit in unlinked mode makes, after the calls of the status
    recomputation, at most a flush request followed by the wake hint; the
    flush is requested exactly in dual-core non-deterministic mode when the
    mirror end and base agree with the descriptor and the distance is
    positive. *)
Theorem unlinked_commit_calls cfg s :
  UCPCtrlReg.GPLinkEnable (s_cp_ctrl_reg s) = false ->
  let f := fifo s in
  calls (exec (GatherPipeBursted cfg) s) =
  calls (exec (SetCPStatusFromCPU cfg) s)
  ++ (if bCPUThread cfg && negb (UseDeterministicGPUThread cfg)
         && (Fifo_CPUEnd s =? CPEnd f) && (Fifo_CPUBase s =? CPBase f)
         && (0 <? CPReadWriteDistance f)
      then [Fifo_FlushGpu] else [])
  ++ [Fifo_RunGpu].
Proof.
  intros Hlink f. subst f.
  destruct (SetCPStatusFromCPU_frame cfg s) as (_ & Hctrl & Hpb & Hpe & Hpw & _).
  destruct (SetCPStatusFromCPU_flags cfg s) as (Hhi & Hb & He & Hd & _).
  unfold GatherPipeBursted, IsOnThread. rewrite exec_bind, exec_bind_gets.
  rewrite Hctrl, Hlink. cbn [negb andb].
  rewrite <- Hb, <- He, <- Hd, <- Hpb, <- Hpe.
  generalize (exec (SetCPStatusFromCPU cfg) s) as s1. intros s1.
  repeat cp_step_in_order.
  all: cbn [andb];
    repeat match goal with
           | H : ?c = _ |- context [?c] => rewrite H
           end.
  all: rewrite <- ?app_assoc; reflexivity.
Qed.

Lemma linked_commit_without_reads_witness :
  let s := exec (mmio_Write single_core CTRL_REGISTER 0x10)
             (exec (mmio_Write single_core FIFO_BASE_LO 0x20) booted) in
  Fifo_CPUBase (exec (GatherPipeBursted single_core) s) = 0
  /\ calls (exec (GatherPipeBursted single_core) s) =
     calls (exec (SetCPStatusFromCPU single_core) s)
     ++ [Fifo_RunGpu; ASSERT_MSG_failed FIFOs_linked_but_out_of_sync;
         ASSERT_MSG_failed FIFOs_linked_but_out_of_sync].
Proof.
  intros s.
  destruct (linked_commit_without_reads single_core s) as (_ & Hb & _ & Hcalls).
  - vm_compute. reflexivity.
  - vm_compute. reflexivity.
  - split; [ rewrite Hb | rewrite Hcalls ]; vm_compute; reflexivity.
Defined.

Lemma unlinked_commit_calls_witness :
  let s := set_fifo (set_CPReadWriteDistance 32 (fifo booted)) booted in
  calls (exec (GatherPipeBursted dual_core) s) =
  calls (exec (SetCPStatusFromCPU dual_core) s) ++ [Fifo_FlushGpu; Fifo_RunGpu].
Proof.
  intros s. rewrite (unlinked_commit_calls dual_core s).
  - vm_compute. reflexivity.
  - vm_compute. reflexivity.
Defined.

(** ** The ring *)

Lemma succ_mod q S :
  0 < S ->
  (q + 1) mod S = if q mod S =? S - 1 then 0 else q mod S + 1.
Proof.
  intros HS.
  pose proof (Z.div_mod q S ltac:(lia)) as Hq.
  pose proof (Z.mod_pos_bound q S HS) as Hr.
  destruct (Z.eqb_spec (q mod S) (S - 1)) as [He | Hne]; symmetry.
  - apply (Z.mod_unique (q + 1) S (q / S + 1) 0); lia.
  - apply (Z.mod_unique (q + 1) S (q / S) (q mod S + 1)); lia.
Qed.

(** A ring whose last slot starts at [CPEnd], and the slot of a pointer on
    it. *)
Lemma ring_extent f :
  on_ring f ->
  let k := (CPWritePointer f - CPBase f) / GATHER_PIPE_SIZE in
  CPEnd f = CPBase f + GATHER_PIPE_SIZE * (ring_slots f - 1)
  /\ CPWritePointer f = CPBase f + GATHER_PIPE_SIZE * k
  /\ 0 <= k < ring_slots f.
Proof.
  unfold on_ring, ring_slots, GATHER_PIPE_SIZE.
  intros (Hwp & Hwpmod & Hemod & Hbase & Hend). cbv zeta.
  pose proof (Z.div_mod (CPEnd f - CPBase f) 32 ltac:(lia)) as Hd.
  pose proof (Z.div_mod (CPWritePointer f - CPBase f) 32 ltac:(lia)) as Hk.
  lia.
Qed.

Lemma on_slot f m :
  0 <= CPBase f -> CPEnd f < 2 ^ 32 ->
  CPEnd f = CPBase f + GATHER_PIPE_SIZE * (ring_slots f - 1) ->
  0 <= m < ring_slots f ->
  CPWritePointer f = CPBase f + GATHER_PIPE_SIZE * m ->
  on_ring f.
Proof.
  unfold on_ring, GATHER_PIPE_SIZE. intros Hb He Hext Hm Hwp.
  rewrite Hwp. rewrite Hext at 2 3.
  replace (CPBase f + 32 * m - CPBase f) with (m * 32) by lia.
  replace (CPBase f + 32 * (ring_slots f - 1) - CPBase f)
    with ((ring_slots f - 1) * 32) by lia.
  rewrite !Z.mod_mul by lia. lia.
Qed.

(** X22.  Commits in linked mode walk the ring: starting with the write
    pointer on a slot of a ring whose last slot starts at [CPEnd], after [n]
    commits the pointer is on slot (start slot + n) modulo the number of
    slots, which is (end - base) / 32 + 1; the distance has grown by 32 n
    modulo 2^32; base and end are unchanged and the pointer is still on the
    ring. *)
Theorem commits_walk_the_ring cfg s n :
  UCPCtrlReg.GPLinkEnable (s_cp_ctrl_reg s) = true ->
  on_ring (fifo s) ->
  is_u32 (CPReadWriteDistance (fifo s)) ->
  let f := fifo s in
  let f' := fifo (commits cfg n s) in
  CPWritePointer f' =
    CPBase f
    + GATHER_PIPE_SIZE
      * (((CPWritePointer f - CPBase f) / GATHER_PIPE_SIZE + Z.of_nat n)
         mod ring_slots f)
  /\ CPReadWriteDistance f' =
     u32_of (CPReadWriteDistance f + GATHER_PIPE_SIZE * Z.of_nat n)
  /\ CPBase f' = CPBase f /\ CPEnd f' = CPEnd f
  /\ on_ring f'.
Proof.
  intros Hlink Hring Hdist f f'. subst f f'.
  destruct (ring_extent (fifo s) Hring) as (Hext & Hk & Hkr).
  destruct Hring as (_ & _ & _ & Hbase & Hend).
  set (k := (CPWritePointer (fifo s) - CPBase (fifo s)) / GATHER_PIPE_SIZE) in *.
  clearbody k.
  set (S := ring_slots (fifo s)) in *.
  assert (Hinv :
    s_cp_ctrl_reg (commits cfg n s) = s_cp_ctrl_reg s
    /\ CPBase (fifo (commits cfg n s)) = CPBase (fifo s)
    /\ CPEnd (fifo (commits cfg n s)) = CPEnd (fifo s)
    /\ CPWritePointer (fifo (commits cfg n s)) =
       CPBase (fifo s) + GATHER_PIPE_SIZE * ((k + Z.of_nat n) mod S)
    /\ CPReadWriteDistance (fifo (commits cfg n s)) =
       u32_of (CPReadWriteDistance (fifo s) + GATHER_PIPE_SIZE * Z.of_nat n)).
  { induction n as [ | n IH ].
    - unfold commits. cbn [Nat.iter Z.of_nat].
      rewrite Z.add_0_r, Z.mul_0_r, Z.add_0_r, Z.mod_small by lia.
      unfold u32_of. rewrite Z.mod_small by exact Hdist. auto.
    - destruct IH as (Hc & Hb & He & Hw & Hd).
      change (commits cfg (Datatypes.S n) s)
        with (exec (GatherPipeBursted cfg) (commits cfg n s)).
      generalize dependent (commits cfg n s). intros sn Hc Hb He Hw Hd.
      destruct (GatherPipeBursted_frame cfg sn) as (Hc' & Hb' & He' & _).
      rewrite Hc', Hb', He'.
      rewrite (GatherPipeBursted_linked_fifo cfg sn) by (rewrite Hc; exact Hlink).
      cbn [CPWritePointer CPReadWriteDistance set_CPReadWriteDistance
           set_CPWritePointer flags_from_CPU set_bFF_LoWatermark
           set_bFF_HiWatermark CPEnd CPBase].
      split; [ exact Hc | ]. split; [ exact Hb | ]. split; [ exact He | ].
      rewrite Hw, He, Hb, Hext, Hd, Nat2Z.inj_succ.
      replace (k + Z.succ (Z.of_nat n)) with (k + Z.of_nat n + 1) by lia.
      rewrite (succ_mod (k + Z.of_nat n) S) by lia.
      pose proof (Z.mod_pos_bound (k + Z.of_nat n) S ltac:(lia)) as Hm.
      set (m := (k + Z.of_nat n) mod S) in *. clearbody m.
      unfold GATHER_PIPE_SIZE in *. split.
      + destruct (Z.eqb_spec m (S - 1)) as [Hlast | Hmid].
        * replace (CPBase (fifo s) + 32 * m =? CPBase (fifo s) + 32 * (S - 1))
            with true by (symmetry; apply Z.eqb_eq; lia).
          lia.
        * replace (CPBase (fifo s) + 32 * m =? CPBase (fifo s) + 32 * (S - 1))
            with false by (symmetry; apply Z.eqb_neq; lia).
          rewrite add32_no_wrap by lia. lia.
      + unfold add32, u32_of. rewrite Zplus_mod_idemp_l. f_equal. lia. }
  destruct Hinv as (_ & Hb & He & Hw & Hd).
  split; [ exact Hw | ]. split; [ exact Hd | ].
  split; [ exact Hb | ]. split; [ exact He | ].
  assert (HS : ring_slots (fifo (commits cfg n s)) = S)
    by (unfold S, ring_slots; rewrite He, Hb; reflexivity).
  apply (on_slot _ ((k + Z.of_nat n) mod S)).
  - rewrite Hb. exact Hbase.
  - rewrite He. exact Hend.
  - rewrite HS, He, Hb. exact Hext.
  - rewrite HS. apply Z.mod_pos_bound. lia.
  - rewrite Hw, Hb. reflexivity.
Qed.

Lemma commits_walk_the_ring_witness :
  let s := scenario_A_start in
  CPWritePointer (fifo (commits single_core 129 s)) = 0
  /\ CPWritePointer (fifo (commits single_core 128 s)) = 0x1000.
Proof.
  intros s.
  assert (Hlink : UCPCtrlReg.GPLinkEnable (s_cp_ctrl_reg s) = true)
    by (vm_compute; reflexivity).
  assert (Hring : on_ring (fifo s))
    by (vm_compute; repeat split; congruence).
  assert (Hdist : is_u32 (CPReadWriteDistance (fifo s)))
    by (vm_compute; split; congruence).
  split.
  - rewrite (proj1 (commits_walk_the_ring single_core s 129 Hlink Hring Hdist)).
    vm_compute. reflexivity.
  - rewrite (proj1 (commits_walk_the_ring single_core s 128 Hlink Hring Hdist)).
    vm_compute. reflexivity.
Defined.

(** ** Address ranges *)

(** X23.  Two address ranges overlap exactly when each starts below the
    other's upper bound.  The test is symmetric, a range does not overlap the
    one starting at its upper bound, and for non-empty ranges it holds
    exactly when some address lies in both; an empty range strictly inside
    another is reported as overlapping. *)
Theorem AddressRangesOverlap_spec aLower aUpper bLower bUpper :
  (AddressRangesOverlap aLower aUpper bLower bUpper = true
   <-> bLower < aUpper /\ aLower < bUpper)
  /\ AddressRangesOverlap aLower aUpper bLower bUpper
     = AddressRangesOverlap bLower bUpper aLower aUpper
  /\ AddressRangesOverlap aLower aUpper aUpper bUpper = false
  /\ (aLower < aUpper -> bLower < bUpper ->
      (AddressRangesOverlap aLower aUpper bLower bUpper = true
       <-> exists x, aLower <= x < aUpper /\ bLower <= x < bUpper))
  /\ (bLower < aLower < bUpper ->
      AddressRangesOverlap aLower aLower bLower bUpper = true).
Proof.
  unfold AddressRangesOverlap.
  split; [ | split; [ | split; [ | split ] ] ].
  - destruct (Z.leb_spec bUpper aLower), (Z.leb_spec aUpper bLower);
      cbn; split; intros; try discriminate; try reflexivity; lia.
  - rewrite orb_comm. reflexivity.
  - rewrite Z.leb_refl, orb_true_r. reflexivity.
  - intros Ha Hb.
    destruct (Z.leb_spec bUpper aLower), (Z.leb_spec aUpper bLower); cbn; split;
      try discriminate; try (intros (x & Hx1 & Hx2); lia).
    intros _. exists (Z.max aLower bLower). lia.
  - intros H.
    destruct (Z.leb_spec bUpper aLower), (Z.leb_spec aLower bLower); cbn;
      try reflexivity; lia.
Qed.

Lemma AddressRangesOverlap_spec_witness :
  AddressRangesOverlap 0x100 0x200 0x180 0x280 = true
  /\ AddressRangesOverlap 0x100 0x100 0x80 0x180 = true.
Proof.
  destruct (AddressRangesOverlap_spec 0x100 0x200 0x180 0x280)
    as (_ & _ & _ & Hiff & _).
  destruct (AddressRangesOverlap_spec 0x100 0x100 0x80 0x180)
    as (_ & _ & _ & _ & Hempty).
  split.
  - apply Hiff; [ lia | lia | ]. exists 0x180. lia.
  - apply Hempty. lia.
Defined.
